(** * local-chat: the streaming relay (src/server.ts) and its browser client

    A shallow embedding of the chat relay server and of the client script that
    consumes its Server-Sent-Events feed, with the properties the written
    specification states about them.

    Layout: the JavaScript values and built-ins the code relies on ([JS]),
    the server ([Server]), the client ([Client]), a reference engine used to
    run the code on concrete inputs ([Reference]); the theorems follow. *)

From Stdlib Require Import List NArith Bool String Ascii Lia Arith PeanoNat.
From Stdlib Require Import DecimalString.
Import ListNotations.

Set Warnings "-register-all".

(* ================================================================== *)
(** ** JavaScript values and built-ins *)
(* ================================================================== *)

Module JS.

(** A JavaScript string is a sequence of code units. *)
Definition jsstring := list N.

(** The code units of a source literal. *)
Definition lit (s : string) : jsstring :=
  map N_of_ascii (list_ascii_of_string s).

(** The double quote and the line feed, which the literals cannot hold. *)
Definition dq : jsstring := [34%N].
Definition nl : jsstring := [10%N].
(** [quoted s] is s between double quotes. *)
Definition quoted (s : jsstring) : jsstring := dq ++ s ++ dq.

Fixpoint streq (a b : jsstring) : bool :=
  match a, b with
  | [], [] => true
  | x :: a', y :: b' => N.eqb x y && streq a' b'
  | _, _ => false
  end.

(** [s.startsWith(p)] *)
Fixpoint startsWith (s p : jsstring) {struct p} : bool :=
  match p, s with
  | [], _ => true
  | x :: p', y :: s' => N.eqb x y && startsWith s' p'
  | _ :: _, [] => false
  end.

(** [s.endsWith(p)] *)
Definition endsWith (s p : jsstring) : bool :=
  startsWith (rev s) (rev p).

(** [s.includes(p)] *)
Fixpoint includes (s p : jsstring) : bool :=
  startsWith s p ||
  match s with
  | [] => false
  | _ :: s' => includes s' p
  end.

(** The longest prefix of [s] whose code units all satisfy [p]. *)
Fixpoint takeWhile (p : N -> bool) (s : jsstring) : jsstring :=
  match s with
  | c :: s' => if p c then c :: takeWhile p s' else []
  | [] => []
  end.

(** [s.indexOf(p)], [None] for -1 *)
Fixpoint indexOf (s p : jsstring) : option nat :=
  if startsWith s p then Some 0
  else match s with
       | [] => None
       | _ :: s' => option_map S (indexOf s' p)
       end.

(** [String(n)] for a natural number *)
Definition decimal (n : N) : jsstring :=
  lit (NilEmpty.string_of_uint (N.to_uint n)).

(** [s.slice(n)] for [0 <= n] *)
Definition slice (s : jsstring) (n : nat) : jsstring := skipn n s.

(** [s.split(sep)] for a separator that is not empty: the scan goes left to
    right, a separator found at the current position ends the current piece
    and the scan resumes behind it.  [skip] counts the code units of a found
    separator that are still to be passed. *)
Fixpoint split_from (sep : jsstring) (skip : nat) (s : jsstring) : list jsstring :=
  match s with
  | [] => [[]]
  | c :: s' =>
      match skip with
      | S k => split_from sep k s'
      | O =>
          if startsWith s sep then [] :: split_from sep (List.length sep - 1) s'
          else match split_from sep 0 s' with
               | p :: ps => (c :: p) :: ps
               | [] => [[c]]
               end
      end
  end.

Definition split (s sep : jsstring) : list jsstring := split_from sep 0 s.

(** [a.join(sep)] on an array of strings *)
Fixpoint join (a : list jsstring) (sep : jsstring) : jsstring :=
  match a with
  | [] => []
  | [x] => x
  | x :: rest => x ++ sep ++ join rest sep
  end.

(** White space and line terminators, the code units [trim] removes. *)
Definition isWhiteSpace (c : N) : bool :=
  existsb (N.eqb c)
    [9; 10; 11; 12; 13; 32; 160; 5760; 8232; 8233; 8239; 8287; 12288; 65279]%N
  || (N.leb 8192 c && N.leb c 8202).

(** [s.trim()] *)
Definition trimStart (s : jsstring) : jsstring :=
  (fix go (s : jsstring) : jsstring :=
     match s with
     | c :: s' => if isWhiteSpace c then go s' else s
     | [] => []
     end) s.
Definition trim (s : jsstring) : jsstring := rev (trimStart (rev (trimStart s))).

(** [\w] of a regular expression without flags *)
Definition isWordChar (c : N) : bool :=
  (N.leb 48 c && N.leb c 57) || (N.leb 65 c && N.leb c 90)
  || (N.leb 97 c && N.leb c 122) || N.eqb c 95.

(** [s.replace(re, f)] for a global regular expression that never matches the
    empty string.  [matchAt s] is the match of [re] that starts at the first
    code unit of [s], if there is one: the text that replaces it and the
    number of code units it consumes.  The scan goes left to right and resumes
    behind each match; [skip] counts the code units of the last match still to
    be passed. *)
Fixpoint replace_from (matchAt : jsstring -> option (jsstring * nat))
    (skip : nat) (s : jsstring) : jsstring :=
  match s with
  | [] => []
  | c :: s' =>
      match skip with
      | S k => replace_from matchAt k s'
      | O =>
          match matchAt s with
          | Some (r, n) => r ++ replace_from matchAt (n - 1) s'
          | None => c :: replace_from matchAt 0 s'
          end
      end
  end.

Definition replaceAll (matchAt : jsstring -> option (jsstring * nat))
    (s : jsstring) : jsstring :=
  replace_from matchAt 0 s.

(** A number is seen by this code only through its string conversion and its
    truthiness, so that is all the embedding keeps of it. *)
Record number := { num_string : jsstring; num_truthy : bool }.

Inductive value :=
| VUndefined
| VNull
| VBool (b : bool)
| VNumber (n : number)
| VString (s : jsstring)
| VArray (elems : list value)
| VObject (props : list (jsstring * value)).

(** [!!v] *)
Definition truthy (v : value) : bool :=
  match v with
  | VUndefined | VNull => false
  | VBool b => b
  | VNumber n => num_truthy n
  | VString s => match s with [] => false | _ => true end
  | VArray _ | VObject _ => true
  end.

(** [typeof v] *)
Definition typeof (v : value) : jsstring :=
  match v with
  | VUndefined => lit "undefined"
  | VNull => lit "object"
  | VBool _ => lit "boolean"
  | VNumber _ => lit "number"
  | VString _ => lit "string"
  | VArray _ | VObject _ => lit "object"
  end.

(** [Array.isArray(v)] *)
Definition isArray (v : value) : bool :=
  match v with VArray _ => true | _ => false end.

(** The elements of an array. *)
Definition elements (v : value) : list value :=
  match v with VArray elems => elems | _ => [] end.

(** [a === b] where [b] is a string literal *)
Definition strictEqString (a : value) (s : jsstring) : bool :=
  match a with VString x => streq x s | _ => false end.

Fixpoint lookup (props : list (jsstring * value)) (k : jsstring) : option value :=
  match props with
  | [] => None
  | (k', v) :: rest => if streq k' k then Some v else lookup rest k
  end.

(** [v.k] for a value that is neither [null] nor [undefined] and a name [k]
    that no prototype defines (every name this code reads is one): the own
    property of an object, [undefined] otherwise. *)
Definition get (v : value) (k : jsstring) : value :=
  match v with
  | VObject props => match lookup props k with Some x => x | None => VUndefined end
  | _ => VUndefined
  end.

(** [String(v)], the conversion string concatenation applies, for the
    values [JSON.parse] gives: an object is converted by the [toString] it
    inherits.  (An object with an own property [toString] or [valueOf],
    whose conversion raises a [TypeError], is not told apart.) *)
Fixpoint toString (v : value) : jsstring :=
  match v with
  | VUndefined => lit "undefined"
  | VNull => lit "null"
  | VBool true => lit "true"
  | VBool false => lit "false"
  | VNumber n => num_string n
  | VString s => s
  | VArray elems =>
      join (map (fun e => match e with
                          | VUndefined | VNull => []
                          | _ => toString e
                          end) elems) (lit ",")
  | VObject _ => lit "[object Object]"
  end.

(** What a [throw] carries: an [Error] (of any subclass) with its message, or
    some other value. *)
Inductive thrown :=
| ThrownError (message : jsstring)
| ThrownValue (v : value).

(** [error instanceof Error ? error.message : "Unknown error"] *)
Definition errorMessage (e : thrown) : jsstring :=
  match e with
  | ThrownError m => m
  | ThrownValue _ => lit "Unknown error"
  end.

(** The parts of the platform that the language standard leaves to the engine
    or that are outside this repository. *)
Class Engine := {
  (** [JSON.parse(text)]: the value, or the message of the [SyntaxError] *)
  JSON_parse : jsstring -> jsstring + value;
  (** [JSON.stringify(v)] *)
  JSON_stringify : value -> jsstring;
  (** [new TextEncoder().encode(s)], the UTF-8 bytes of [s] *)
  TextEncoder_encode : jsstring -> list N;
  (** the message of the [TypeError] that reading property [k] of [null]
      raises *)
  nullPropertyMessage : jsstring -> jsstring;
  (** the message of the [TypeError] that a closed stream controller raises *)
  invalidStateMessage : jsstring;
  (** the message of the [TypeError] that evaluating the member expression
      [e] raises when its object is [v], which is [null] or [undefined] *)
  notAnObjectMessage : value -> jsstring -> jsstring;
}.

End JS.

(* ================================================================== *)
(** ** The relay server, src/server.ts *)
(* ================================================================== *)

Module Server.
Import JS.

Definition MODELS : list jsstring :=
  [ lit "claude-opus-4-5-20250514";
    lit "claude-sonnet-4-20250514";
    lit "claude-haiku-3-5-20241022" ].

(** [interface ChatRequest].  The type annotations are erased at run time:
    the fields hold the values read from the request body. *)
Record ChatRequest := {
  model : value;
  system : value;
  messages : list value;
}.

(** [{ valid: true; data } | { valid: false; error }] *)
Inductive ValidationResult :=
| Valid (data : ChatRequest)
| Invalid (error : jsstring).

(** [MODELS.includes(model)] *)
Definition MODELS_includes (v : value) : bool :=
  existsb (strictEqString v) MODELS.

(** The loop [for (const msg of messages)] of [validateRequest]: the error
    of the first message that fails a check, if any. *)
Fixpoint validateMessages (msgs : list value) : option jsstring :=
  match msgs with
  | [] => None
  | msg :: rest =>
      if negb (truthy msg) || negb (streq (typeof msg) (lit "object")) then
        Some (lit "Each message must be an object")
      else if negb (strictEqString (get msg (lit "role")) (lit "user"))
              && negb (strictEqString (get msg (lit "role")) (lit "assistant")) then
        Some (lit "Message role must be 'user' or 'assistant'")
      else if negb (streq (typeof (get msg (lit "content"))) (lit "string")) then
        Some (lit "Message content must be a string")
      else validateMessages rest
  end.

Definition validateRequest (body : value) : ValidationResult :=
  if negb (truthy body) || negb (streq (typeof body) (lit "object")) then
    Invalid (lit "Invalid request body")
  else
    let model := get body (lit "model") in
    let system := get body (lit "system") in
    let messages := get body (lit "messages") in
    if negb (truthy model) || negb (MODELS_includes model) then
      Invalid (lit "Invalid model. Must be one of: " ++ join MODELS (lit ", "))
    else if negb (match system with VUndefined => true | _ => false end)
            && negb (streq (typeof system) (lit "string")) then
      Invalid (lit "System prompt must be a string")
    else if negb (isArray messages) then
      Invalid (lit "Messages must be an array")
    else
      match validateMessages (elements messages) with
      | Some error => Invalid error
      | None =>
          Valid {| model := model;
                   system := if truthy system then system else VString [];
                   messages := elements messages |}
      end.

(** *** The upstream streaming API

    [client.messages.stream(params)] of the SDK, which is outside this
    repository: the relay sees the events the stream yields, how the
    iteration ends, and what [finalMessage()] gives. *)

Inductive CacheControl := ephemeral_1h.   (* { type: "ephemeral", ttl: "1h" } *)

Record TextBlockParam := {
  text : value;
  cache_control : option CacheControl;
}.

Record MessageParam := {
  role : value;
  content : list TextBlockParam;
}.

Record MessageStreamParams := {
  p_model : value;
  max_tokens : N;
  p_system : list TextBlockParam;
  p_messages : list MessageParam;
}.

Inductive ContentDelta :=
| text_delta (text : jsstring)
| input_json_delta (partial_json : jsstring)
| citations_delta
| thinking_delta (thinking : jsstring)
| signature_delta.

Inductive MessageStreamEvent :=
| message_start
| message_delta
| message_stop
| content_block_start
| content_block_delta (delta : ContentDelta)
| content_block_stop.

(** How the iteration [for await (const event of stream)] ends once the
    events are consumed: the stream is exhausted, or it raises. *)
Inductive Ending :=
| EndOfStream
| Raises (e : thrown).

Record MessageStream := {
  events : list MessageStreamEvent;
  ending : Ending;
  (** [await stream.finalMessage()]: the final message, or what it raises *)
  finalMessage : thrown + value;
}.

(** [const client = new Anthropic()] *)
Record Anthropic := {
  messages_stream : MessageStreamParams -> MessageStream;
}.

(** *** The outbound stream

    The controller of the [ReadableStream]: the chunks enqueued so far and
    whether the stream has been closed.  [closeCalls] counts the calls of
    [close()], whatever their outcome. *)
Record Controller := {
  chunks : list (list N);
  closeRequested : bool;
  closeCalls : nat;
}.

Definition newController : Controller :=
  {| chunks := []; closeRequested := false; closeCalls := 0 |}.

(** Code that runs against the controller and may throw. *)
Definition M (A : Type) : Type := Controller -> (thrown + A) * Controller.

Definition ret {A} (x : A) : M A := fun c => (inr x, c).
Definition throw {A} (e : thrown) : M A := fun c => (inl e, c).
Definition bind {A B} (m : M A) (k : A -> M B) : M B :=
  fun c => match m c with
           | (inl e, c') => (inl e, c')
           | (inr x, c') => k x c'
           end.

Notation "m ;; k" := (bind m (fun _ => k)) (at level 61, right associativity).

(** [try { body } catch (error) { handler(error) } finally { finalizer }] *)
Definition try_catch_finally (body : M unit) (handler : thrown -> M unit)
    (finalizer : M unit) : M unit :=
  fun c =>
    let '(r1, c1) := body c in
    let '(r2, c2) := match r1 with
                     | inl e => handler e c1
                     | inr x => (inr x, c1)
                     end in
    let '(r3, c3) := finalizer c2 in
    match r3 with
    | inl e => (inl e, c3)
    | inr _ => (r2, c3)
    end.

Section Relay.
Context {engine : Engine}.
Variable client : Anthropic.

(** [controller.enqueue(chunk)] *)
Definition enqueue (chunk : list N) : M unit :=
  fun c =>
    if closeRequested c then (inl (ThrownError invalidStateMessage), c)
    else (inr tt, {| chunks := chunks c ++ [chunk];
                     closeRequested := closeRequested c;
                     closeCalls := closeCalls c |}).

(** [controller.close()] *)
Definition close : M unit :=
  fun c =>
    if closeRequested c then
      (inl (ThrownError invalidStateMessage),
       {| chunks := chunks c; closeRequested := true;
          closeCalls := S (closeCalls c) |})
    else
      (inr tt, {| chunks := chunks c; closeRequested := true;
                  closeCalls := S (closeCalls c) |}).

(** [encoder.encode(`data: ${data}\n\n`)] *)
Definition frame (data : jsstring) : list N :=
  TextEncoder_encode (lit "data: " ++ data ++ nl ++ nl).

Definition deltaData (text : jsstring) : jsstring :=
  JSON_stringify (VObject [(lit "type", VString (lit "delta"));
                           (lit "text", VString text)]).

Definition doneData (usage : value) : jsstring :=
  JSON_stringify (VObject [(lit "type", VString (lit "done"));
                           (lit "usage", usage)]).

Definition errorData (errorMsg : jsstring) : jsstring :=
  JSON_stringify (VObject [(lit "type", VString (lit "error"));
                           (lit "error", VString errorMsg)]).

(** [finalMessage.usage]: reading a property of [null] or [undefined]
    raises a [TypeError]. *)
Definition usageOf (finalMessage : value) : thrown + value :=
  match finalMessage with
  | VNull | VUndefined =>
      inl (ThrownError (notAnObjectMessage finalMessage (lit "finalMessage.usage")))
  | _ => inr (get finalMessage (lit "usage"))
  end.

(** The body of the loop over the upstream events. *)
Definition onEvent (stream : MessageStream) (event : MessageStreamEvent) : M unit :=
  match event with
  | content_block_delta (text_delta text) => enqueue (frame (deltaData text))
  | message_stop =>
      match finalMessage stream with
      | inl e => throw e
      | inr finalMessage =>
          match usageOf finalMessage with
          | inl e => throw e
          | inr usage => enqueue (frame (doneData usage))
          end
      end
  | _ => ret tt
  end.

(** [for await (const event of stream) { ... }] *)
Fixpoint forAwait (stream : MessageStream) (evs : list MessageStreamEvent) : M unit :=
  match evs with
  | [] => match ending stream with
          | EndOfStream => ret tt
          | Raises e => throw e
          end
  | event :: rest => onEvent stream event ;; forAwait stream rest
  end.

(** [start(controller)] of the response's [ReadableStream] *)
Definition start (stream : MessageStream) : M unit :=
  try_catch_finally
    (forAwait stream (events stream))
    (fun error => enqueue (frame (errorData (errorMessage error))))
    close.

(** *** The events behind the frames

    The three events of the client-facing protocol, and the events the loop
    of [start] sends for an upstream stream, read off its branches: a
    [Delta] for each text delta, a [Done] for each [message_stop] whose final
    message is there, and an [Error] where the iteration, [finalMessage] or
    the reading of its [usage] raises, which ends the loop. *)

Inductive StreamEvent :=
| Delta (text : jsstring)
| Done (usage : value)
| Error (error : jsstring).

Definition isTerminal (e : StreamEvent) : bool :=
  match e with
  | Delta _ => false
  | Done _ | Error _ => true
  end.

Definition eventData (e : StreamEvent) : jsstring :=
  match e with
  | Delta text => deltaData text
  | Done usage => doneData usage
  | Error errorMsg => errorData errorMsg
  end.

(** The chunk that carries an event, and the line of text in it. *)
Definition wire (e : StreamEvent) : list N := frame (eventData e).
Definition wire_line (e : StreamEvent) : jsstring := lit "data: " ++ eventData e.

Fixpoint relayedFrom (stream : MessageStream) (evs : list MessageStreamEvent)
    : list StreamEvent :=
  match evs with
  | [] => match ending stream with
          | EndOfStream => []
          | Raises e => [Error (errorMessage e)]
          end
  | content_block_delta (text_delta text) :: rest =>
      Delta text :: relayedFrom stream rest
  | message_stop :: rest =>
      match finalMessage stream with
      | inl e => [Error (errorMessage e)]
      | inr finalMessage =>
          match usageOf finalMessage with
          | inl e => [Error (errorMessage e)]
          | inr usage => Done usage :: relayedFrom stream rest
          end
      end
  | _ :: rest => relayedFrom stream rest
  end.

Definition relayedEvents (stream : MessageStream) : list StreamEvent :=
  relayedFrom stream (events stream).

(** The text of the upstream text deltas, in order; the assistant's reply is
    their concatenation. *)
Fixpoint textFragments (evs : list MessageStreamEvent) : list jsstring :=
  match evs with
  | [] => []
  | content_block_delta (text_delta text) :: rest => text :: textFragments rest
  | _ :: rest => textFragments rest
  end.

Definition replyText (stream : MessageStream) : jsstring :=
  List.concat (textFragments (events stream)).

(** The [text] fields of the [Delta] events among [evs], in order. *)
Fixpoint deltaTexts (evs : list StreamEvent) : list jsstring :=
  match evs with
  | [] => []
  | Delta text :: rest => text :: deltaTexts rest
  | _ :: rest => deltaTexts rest
  end.

Definition isError (e : StreamEvent) : bool :=
  match e with Error _ => true | _ => false end.

(** The shape of an upstream stream that runs as the streaming API
    describes: it yields [message_stop] once, as its last event, and ends;
    or it raises before any [message_stop]. *)
Definition isStop (ev : MessageStreamEvent) : bool :=
  match ev with message_stop => true | _ => false end.

Definition completesWithStop (stream : MessageStream) : Prop :=
  exists pre, events stream = pre ++ [message_stop] /\
              existsb isStop pre = false /\
              ending stream = EndOfStream.

Definition raisesBeforeStop (stream : MessageStream) : Prop :=
  existsb isStop (events stream) = false /\
  exists e, ending stream = Raises e.

Definition followsProtocol (stream : MessageStream) : Prop :=
  completesWithStop stream \/ raisesBeforeStop stream.

(** *** Requests and responses *)

Record Request := {
  method : jsstring;
  pathname : jsstring;
  bodyText : jsstring;
}.

Inductive Body :=
| BodyText (s : jsstring)
| BodyFile (path : jsstring)
| BodyStream (outcome : thrown + unit) (controller : Controller).

Record Response := {
  status : N;
  headers : list (jsstring * jsstring);
  body : Body;
}.

(** [systemContent] *)
Definition systemContent (system : value) : list TextBlockParam :=
  if truthy system then [{| text := system; cache_control := Some ephemeral_1h |}]
  else [].

(** [formattedMessages]: the block of the message before the last one carries
    the cache directive. *)
Definition formattedMessages (messages : list value) : list MessageParam :=
  map (fun '(i, m) =>
         let isLastBeforeCurrent := Nat.eqb (S (S i)) (List.length messages) in
         {| role := get m (lit "role");
            content := [{| text := get m (lit "content");
                           cache_control := if isLastBeforeCurrent
                                            then Some ephemeral_1h else None |}] |})
      (combine (seq 0 (List.length messages)) messages).

Definition badRequest (error : jsstring) : Response :=
  {| status := 400;
     headers := [(lit "Content-Type", lit "application/json")];
     body := BodyText (JSON_stringify (VObject [(lit "error", VString error)])) |}.

(** [handleChat(req)]: the response, and the calls made to the upstream API.
    The response is given with its stream run to the end. *)
Definition handleChat (req : Request) : Response * list MessageStreamParams :=
  match JSON_parse (bodyText req) with
  | inl _ => (badRequest (lit "Invalid JSON"), [])
  | inr body =>
      match validateRequest body with
      | Invalid error => (badRequest error, [])
      | Valid data =>
          let params := {| p_model := model data;
                           max_tokens := 8192;
                           p_system := systemContent (system data);
                           p_messages := formattedMessages (messages data) |} in
          let stream := messages_stream client params in
          let '(outcome, controller) := start stream newController in
          ({| status := 200;
              headers := [(lit "Content-Type", lit "text/event-stream");
                          (lit "Cache-Control", lit "no-cache");
                          (lit "Connection", lit "keep-alive")];
              body := BodyStream outcome controller |},
           [params])
      end
  end.

(** [getContentType(path)] *)
Definition getContentType (path : jsstring) : jsstring :=
  if endsWith path (lit ".html") then lit "text/html"
  else if endsWith path (lit ".css") then lit "text/css"
  else if endsWith path (lit ".js") then lit "application/javascript"
  else lit "application/octet-stream".

(** [serveStatic(path)], with [exists] telling which files are there. *)
Definition serveStatic (exists_ : jsstring -> bool) (path : jsstring) : Response :=
  let filePath := lit "./public" ++
                  (if streq path (lit "/") then lit "/index.html" else path) in
  if exists_ filePath then
    {| status := 200;
       headers := [(lit "Content-Type", getContentType filePath)];
       body := BodyFile filePath |}
  else {| status := 404; headers := []; body := BodyText (lit "Not Found") |}.

(** The [fetch] handler of [Bun.serve] (the headers [Response.json] adds are
    left out). *)
Definition fetch (exists_ : jsstring -> bool) (req : Request)
    : Response * list MessageStreamParams :=
  if streq (pathname req) (lit "/api/chat") && streq (method req) (lit "POST") then
    handleChat req
  else if streq (pathname req) (lit "/api/models") && streq (method req) (lit "GET") then
    ({| status := 200; headers := [];
        body := BodyText (JSON_stringify
                  (VObject [(lit "models", VArray (map VString MODELS))])) |}, [])
  else (serveStatic exists_ (pathname req), []).

End Relay.

End Server.

(* ================================================================== *)
(** ** The browser client (the page script) *)
(* ================================================================== *)

Module Client.
Import JS.

(** An entry of [state.messages] *)
Record Message := {
  role : jsstring;
  content : jsstring;
}.

(** A message element of [#messages] *)
Record Div := {
  className : jsstring;
  loading : bool;
  innerHTML : jsstring;
}.

(** The page: [state], the children of [messagesEl] and the send button. *)
Record Page := {
  messages : list Message;
  isStreaming : bool;
  messagesEl : list Div;
  sendBtn_disabled : bool;
}.

(** [escapeHtml(text)]: the text is stored in a fresh element as its
    [textContent] and read back as [innerHTML], which is the text with
    [&], [<], [>] and the no-break space replaced by their entities. *)
Definition escapeChar (c : N) : jsstring :=
  if N.eqb c 38 then lit "&amp;"
  else if N.eqb c 60 then lit "&lt;"
  else if N.eqb c 62 then lit "&gt;"
  else if N.eqb c 160 then lit "&nbsp;"
  else [c].

Definition escapeHtml (text : jsstring) : jsstring := flat_map escapeChar text.

Definition fence : jsstring := lit "```".

(** The match, at the start of [s], of the expression for fenced code (a
    fence, a group of word characters taken greedily, an optional line feed,
    a group of any characters taken lazily, a fence), with the text the
    replacement function returns for it.  The language tag takes every word
    character, the line feed is taken when it is there, and the code runs up
    to the next fence; a shorter tag or a line feed left to the code would
    not let the expression match where this choice does not. *)
Definition codeBlockAt (s : jsstring) : option (jsstring * nat) :=
  if startsWith s fence then
    let afterFence := skipn 3 s in
    let lang := takeWhile isWordChar afterFence in
    let afterLang := skipn (List.length lang) afterFence in
    let '(lf, rest) := match afterLang with
                       | c :: r => if N.eqb c 10 then (1, r) else (0, afterLang)
                       | [] => (0, afterLang)
                       end in
    match indexOf rest fence with
    | Some k =>
        let code := firstn k rest in
        Some (lit "<pre><code>" ++ code ++ lit "</code></pre>",
              3 + List.length lang + lf + k + 3)
    | None => None
    end
  else None.

(** The match, at the start of [s], of the expression for inline code (a
    backtick, a group of one or more characters that are not backticks, a
    backtick), with its replacement ['<code>$1</code>']. *)
Definition inlineCodeAt (s : jsstring) : option (jsstring * nat) :=
  match s with
  | c :: r =>
      if N.eqb c 96 then
        let code := takeWhile (fun c => negb (N.eqb c 96)) r in
        match code, skipn (List.length code) r with
        | _ :: _, d :: _ =>
            if N.eqb d 96 then
              Some (lit "<code>" ++ code ++ lit "</code>", List.length code + 2)
            else None
        | _, _ => None
        end
      else None
  | [] => None
  end.

(** [p => p.trim() ? `<p>${p}</p>` : ''] *)
Definition paragraph (p : jsstring) : jsstring :=
  match trim p with
  | [] => []
  | _ => lit "<p>" ++ p ++ lit "</p>"
  end.

Definition formatContent (text : jsstring) : jsstring :=
  match text with
  | [] => []
  | _ =>
      let escaped := escapeHtml text in
      let escaped := replaceAll codeBlockAt escaped in
      let escaped := replaceAll inlineCodeAt escaped in
      join (map paragraph (split escaped (nl ++ nl))) []
  end.

(** [renderMessage(role, content, isStreaming)]: the new element, which is
    appended to [messagesEl]. *)
Definition renderMessage (role content : jsstring) (isStreaming : bool) : Div :=
  {| className := lit "message " ++ role;
     loading := isStreaming;
     innerHTML := formatContent content |}.

(** [addMessage(role, content)] *)
Definition addMessage (page : Page) (role content : jsstring) : Page :=
  {| messages := messages page ++ [{| role := role; content := content |}];
     isStreaming := isStreaming page;
     messagesEl := messagesEl page ++ [renderMessage role content false];
     sendBtn_disabled := sendBtn_disabled page |}.

(** The complete lines of a text, those a line feed ends, and the partial
    line behind the last line feed. *)
Definition completeLines (text : jsstring) : list jsstring :=
  removelast (split text nl).

Definition partialLine (text : jsstring) : jsstring :=
  last (split text nl) [].

(** The locals of [streamResponse]. *)
Record Stream := {
  fullContent : jsstring;
  buffer : jsstring;
  assistantDiv : Div;
}.

Definition setInnerHTML (d : Div) (html : jsstring) : Div :=
  {| className := className d; loading := loading d; innerHTML := html |}.

Definition withBuffer (b : jsstring) (st : Stream) : Stream :=
  {| fullContent := fullContent st; buffer := b; assistantDiv := assistantDiv st |}.

(** How a piece of [streamResponse] completes: normally, or by throwing. *)
Inductive Completion :=
| Normal (st : Stream)
| Throw (e : thrown) (st : Stream).

Definition mapBuffer (b : jsstring) (c : Completion) : Completion :=
  match c with
  | Normal st => Normal (withBuffer b st)
  | Throw e st => Throw e (withBuffer b st)
  end.

(** The locals when [streamResponse] enters its [try]: the assistant's
    element has just been rendered, empty and loading. *)
Definition initialStream : Stream :=
  {| fullContent := []; buffer := [];
     assistantDiv := renderMessage (lit "assistant") [] true |}.

(** [fullContent += data.text; assistantDiv.innerHTML = formatContent(fullContent)] *)
Definition appendDelta (st : Stream) (data : value) : Stream :=
  let fullContent := fullContent st ++ toString (get data (lit "text")) in
  {| fullContent := fullContent;
     buffer := buffer st;
     assistantDiv := setInnerHTML (assistantDiv st) (formatContent fullContent) |}.

(** [new Error(v).message] *)
Definition newErrorMessage (v : value) : jsstring :=
  match v with
  | VUndefined => []
  | _ => toString v
  end.

Section Consumer.
Context {engine : Engine}.

(** The statements of the inner [try] behind [JSON.parse]: the dispatch on
    [data.type].  ([console.log] has no effect on the page.) *)
Definition dispatch (st : Stream) (data : value) : Completion :=
  match data with
  | VNull | VUndefined => Throw (ThrownError (nullPropertyMessage (lit "type"))) st
  | _ =>
      if strictEqString (get data (lit "type")) (lit "delta") then
        Normal (appendDelta st data)
      else if strictEqString (get data (lit "type")) (lit "done") then
        Normal st
      else if strictEqString (get data (lit "type")) (lit "error") then
        Throw (ThrownError (newErrorMessage (get data (lit "error")))) st
      else Normal st
  end.

(** [e.message && !e.message.includes("JSON")], for the errors the inner
    [try] can raise, which are all [Error] objects. *)
Definition isOurError (e : thrown) : bool :=
  match e with
  | ThrownError message =>
      match message with
      | [] => false
      | _ => negb (includes message (lit "JSON"))
      end
  | ThrownValue _ => false
  end.

(** The body of [for (const line of lines)]. *)
Definition handleLine (st : Stream) (line : jsstring) : Completion :=
  if negb (startsWith line (lit "data: ")) then Normal st
  else
    let tried := match JSON_parse (slice line 6) with
                 | inl message => Throw (ThrownError message) st
                 | inr data => dispatch st data
                 end in
    match tried with
    | Normal st' => Normal st'
    | Throw e st' => if isOurError e then Throw e st' else Normal st'
    end.

Fixpoint forLines (st : Stream) (lines : list jsstring) : Completion :=
  match lines with
  | [] => Normal st
  | line :: rest =>
      match handleLine st line with
      | Normal st' => forLines st' rest
      | Throw e st' => Throw e st'
      end
  end.

(** One turn of [while (true)] after a read that gave [chunk], the text
    [decoder.decode(value, { stream: true })] returns for it. *)
Definition onRead (st : Stream) (chunk : jsstring) : Completion :=
  let buffer := buffer st ++ chunk in
  let lines := split buffer nl in
  (* lines.pop(): the last piece leaves the array and becomes the buffer *)
  let st := withBuffer (last lines []) st in
  forLines st (removelast lines).

(** How the reads of a response body end: [done], or the read rejects. *)
Inductive ReadEnding :=
| ReadDone
| ReadRejects (e : thrown).

(** The end of the reads: [done] leaves the loop, a rejected read throws. *)
Definition finish (ending : ReadEnding) (st : Stream) : Completion :=
  match ending with
  | ReadDone => Normal st
  | ReadRejects e => Throw e st
  end.

Fixpoint readLoop (st : Stream) (reads : list jsstring) (ending : ReadEnding)
    : Completion :=
  match reads with
  | [] => finish ending st
  | chunk :: rest =>
      match onRead st chunk with
      | Normal st' => readLoop st' rest ending
      | Throw e st' => Throw e st'
      end
  end.

(** "Process any remaining buffer": whatever the [try] raises is dropped. *)
Definition flushBuffer (st : Stream) : Stream :=
  if startsWith (buffer st) (lit "data: ") then
    match JSON_parse (slice (buffer st) 6) with
    | inl _ => st
    | inr data =>
        match data with
        | VNull | VUndefined => st
        | _ => if strictEqString (get data (lit "type")) (lit "delta")
               then appendDelta st data else st
        end
    end
  else st.

(** What [fetch("/api/chat", ...)] gives the client. *)
Record ResponseBody := {
  reads : list jsstring;
  ending : ReadEnding;
}.

Record FetchResponse := {
  ok : bool;
  status : N;
  responseText : thrown + jsstring;     (* await response.text() *)
  responseBody : option ResponseBody;   (* response.body *)
}.

Definition Fetched : Type := thrown + FetchResponse.

(** The [try] block of [streamResponse] up to the transcript update. *)
Definition consume (st : Stream) (fetched : Fetched) : Completion :=
  match fetched with
  | inl e => Throw e st
  | inr response =>
      if negb (ok response) then
        match responseText response with
        | inl e => Throw e st
        | inr errorText =>
            Throw (ThrownError (match errorText with
                                | [] => lit "HTTP " ++ decimal (status response)
                                | _ => errorText
                                end)) st
        end
      else
        match responseBody response with
        | None => Throw (ThrownError (lit "No response body")) st
        | Some body =>
            match readLoop st (reads body) (ending body) with
            | Normal st' => Normal (flushBuffer st')
            | Throw e st' => Throw e st'
            end
        end
  end.

(** [streamResponse()]: the page once the function has returned. *)
Definition streamResponse (page : Page) (fetched : Fetched) : Page :=
  match consume initialStream fetched with
  | Normal st' =>
      {| messages := messages page ++
                     [{| role := lit "assistant"; content := fullContent st' |}];
         isStreaming := false;
         messagesEl := messagesEl page ++
                       [{| className := className (assistantDiv st');
                           loading := false;
                           innerHTML := innerHTML (assistantDiv st') |}];
         sendBtn_disabled := false |}
  | Throw error st' =>
      {| messages := messages page;
         isStreaming := false;
         messagesEl := messagesEl page ++
                       [{| className := className (assistantDiv st');
                           loading := false;
                           innerHTML := formatContent
                                          (lit "Error: " ++ errorMessage error) |}];
         sendBtn_disabled := false |}
  end.

(** The body of the request [streamResponse] sends. *)
Definition requestBody (page : Page) (modelValue systemValue : jsstring) : jsstring :=
  JSON_stringify
    (VObject [(lit "model", VString modelValue);
              (lit "system", VString systemValue);
              (lit "messages",
               VArray (map (fun m => VObject [(lit "role", VString (role m));
                                              (lit "content", VString (content m))])
                           (messages page)))]).

(** The submit handler of the form, for the text in the input field. *)
Definition onSubmit (page : Page) (inputValue : jsstring) (fetched : Fetched) : Page :=
  match trim inputValue with
  | [] => page
  | text => if isStreaming page then page
            else streamResponse (addMessage page (lit "user") text) fetched
  end.

End Consumer.

End Client.

(* ================================================================== *)
(** ** A reference engine

    An instance of [Engine] that computes, used to run the code on concrete
    inputs.  [JSON.parse] and [JSON.stringify] follow the JSON grammar and
    the quoting rules of the language standard; the wording of the error
    messages, which the standard leaves open, is that of JavaScriptCore. *)
(* ================================================================== *)

Module Reference.
Import JS.

Definition isJsonWhiteSpace (c : N) : bool :=
  N.eqb c 32 || N.eqb c 9 || N.eqb c 10 || N.eqb c 13.

Fixpoint skipWs (s : jsstring) : jsstring :=
  match s with
  | c :: s' => if isJsonWhiteSpace c then skipWs s' else s
  | [] => []
  end.

Definition isDigit (c : N) : bool := N.leb 48 c && N.leb c 57.

Definition hexDigit (c : N) : option N :=
  if N.leb 48 c && N.leb c 57 then Some (c - 48)%N
  else if N.leb 65 c && N.leb c 70 then Some (c - 55)%N
  else if N.leb 97 c && N.leb c 102 then Some (c - 87)%N
  else None.

(** The characters of a string literal behind its opening quote: the string
    and what follows the closing quote. *)
Fixpoint parseChars (fuel : nat) (s : jsstring) : option (jsstring * jsstring) :=
  match fuel with
  | O => None
  | S fuel' =>
      match s with
      | [] => None
      | 34%N :: rest => Some ([], rest)
      | 92%N :: e :: rest =>
          let simple (c : N) :=
            match parseChars fuel' rest with
            | Some (str, r) => Some (c :: str, r)
            | None => None
            end in
          if N.eqb e 34 then simple 34%N
          else if N.eqb e 92 then simple 92%N
          else if N.eqb e 47 then simple 47%N
          else if N.eqb e 98 then simple 8%N
          else if N.eqb e 102 then simple 12%N
          else if N.eqb e 110 then simple 10%N
          else if N.eqb e 114 then simple 13%N
          else if N.eqb e 116 then simple 9%N
          else if N.eqb e 117 then
            match rest with
            | h1 :: h2 :: h3 :: h4 :: rest4 =>
                match hexDigit h1, hexDigit h2, hexDigit h3, hexDigit h4 with
                | Some a, Some b, Some c, Some d =>
                    match parseChars fuel' rest4 with
                    | Some (str, r) =>
                        Some ((a * 4096 + b * 256 + c * 16 + d)%N :: str, r)
                    | None => None
                    end
                | _, _, _, _ => None
                end
            | _ => None
            end
          else None
      | c :: rest =>
          if N.ltb c 32 then None
          else match parseChars fuel' rest with
               | Some (str, r) => Some (c :: str, r)
               | None => None
               end
      end
  end.

(** A number literal at the start of [s]: the literal and what follows. *)
Definition parseNumber (s : jsstring) : option (jsstring * jsstring) :=
  let '(sign, s1) := match s with
                     | 45%N :: r => ([45%N], r)
                     | _ => ([], s)
                     end in
  let int := takeWhile isDigit s1 in
  let s2 := skipn (List.length int) s1 in
  match int with
  | [] => None
  | 48%N :: _ :: _ => None
  | _ =>
      let fracOk :=
        match s2 with
        | 46%N :: r =>
            match takeWhile isDigit r with
            | [] => None
            | ds => Some (46%N :: ds, skipn (List.length ds) r)
            end
        | _ => Some ([], s2)
        end in
      match fracOk with
      | None => None
      | Some (frac, s3) =>
          let expOk :=
            match s3 with
            | e :: r =>
                if N.eqb e 101 || N.eqb e 69 then
                  let '(esign, r1) := match r with
                                      | c :: r2 =>
                                          if N.eqb c 43 || N.eqb c 45
                                          then ([c], r2) else ([], r)
                                      | [] => ([], r)
                                      end in
                  match takeWhile isDigit r1 with
                  | [] => None
                  | ds => Some (e :: esign ++ ds, skipn (List.length ds) r1)
                  end
                else Some ([], s3)
            | [] => Some ([], s3)
            end in
          match expOk with
          | None => None
          | Some (ex, s4) => Some (sign ++ int ++ frac ++ ex, s4)
          end
      end
  end.

(** The number a literal denotes, as far as this development sees numbers:
    its truthiness, and as its string conversion the text of the literal,
    which is the conversion for the short integer literals of the examples.
    For a literal that the language prints otherwise (a fraction with
    trailing zeros, an exponent, more digits than a double holds) the
    reference engine is not the language's; no example uses one. *)
Definition numberOfLiteral (l : jsstring) : number :=
  let mantissa := takeWhile (fun c => negb (N.eqb c 101 || N.eqb c 69)) l in
  let nonzero := existsb (fun c => N.leb 49 c && N.leb c 57) mantissa in
  {| num_string := if nonzero then l else lit "0"; num_truthy := nonzero |}.

(** [obj[k] = v] while an object literal is read: a later member replaces an
    earlier one of the same name. *)
Fixpoint setProp (props : list (jsstring * value)) (k : jsstring) (v : value)
    : list (jsstring * value) :=
  match props with
  | [] => [(k, v)]
  | (k', v') :: rest =>
      if streq k' k then (k', v) :: rest else (k', v') :: setProp rest k v
  end.

Fixpoint parseValue (fuel : nat) (s : jsstring) : option (value * jsstring) :=
  match fuel with
  | O => None
  | S fuel' =>
      match skipWs s with
      | [] => None
      | c :: r =>
          if N.eqb c 34 then
            match parseChars (S (List.length r)) r with
            | Some (str, rest) => Some (VString str, rest)
            | None => None
            end
          else if N.eqb c 91 then
            match skipWs r with
            | 93%N :: rest => Some (VArray [], rest)
            | _ => match parseElements fuel' r with
                   | Some (elems, rest) => Some (VArray elems, rest)
                   | None => None
                   end
            end
          else if N.eqb c 123 then
            match skipWs r with
            | 125%N :: rest => Some (VObject [], rest)
            | _ => match parseMembers fuel' r [] with
                   | Some (props, rest) => Some (VObject props, rest)
                   | None => None
                   end
            end
          else if startsWith (c :: r) (lit "true") then Some (VBool true, skipn 3 r)
          else if startsWith (c :: r) (lit "false") then Some (VBool false, skipn 4 r)
          else if startsWith (c :: r) (lit "null") then Some (VNull, skipn 3 r)
          else match parseNumber (c :: r) with
               | Some (l, rest) => Some (VNumber (numberOfLiteral l), rest)
               | None => None
               end
      end
  end
with parseElements (fuel : nat) (s : jsstring) : option (list value * jsstring) :=
  match fuel with
  | O => None
  | S fuel' =>
      match parseValue fuel' s with
      | None => None
      | Some (v, rest) =>
          match skipWs rest with
          | 44%N :: rest1 =>
              match parseElements fuel' rest1 with
              | Some (vs, rest2) => Some (v :: vs, rest2)
              | None => None
              end
          | 93%N :: rest1 => Some ([v], rest1)
          | _ => None
          end
      end
  end
with parseMembers (fuel : nat) (s : jsstring) (acc : list (jsstring * value))
    : option (list (jsstring * value) * jsstring) :=
  match fuel with
  | O => None
  | S fuel' =>
      match skipWs s with
      | 34%N :: r =>
          match parseChars (S (List.length r)) r with
          | None => None
          | Some (k, rest) =>
              match skipWs rest with
              | 58%N :: rest1 =>
                  match parseValue fuel' rest1 with
                  | None => None
                  | Some (v, rest2) =>
                      let acc1 := setProp acc k v in
                      match skipWs rest2 with
                      | 44%N :: rest3 => parseMembers fuel' rest3 acc1
                      | 125%N :: rest3 => Some (acc1, rest3)
                      | _ => None
                      end
                  end
              | _ => None
              end
          end
      | _ => None
      end
  end.

Definition syntaxErrorMessage : jsstring := lit "JSON Parse error: Unexpected token".

Definition parse (text : jsstring) : jsstring + value :=
  match parseValue (2 * List.length text + 2) text with
  | Some (v, rest) =>
      match skipWs rest with
      | [] => inr v
      | _ => inl syntaxErrorMessage
      end
  | None => inl syntaxErrorMessage
  end.

Definition hexChar (d : N) : N := if N.ltb d 10 then (d + 48)%N else (d + 87)%N.

Definition unicodeEscape (c : N) : jsstring :=
  [92; 117]%N ++ [hexChar (c / 4096); hexChar ((c / 256) mod 16);
                  hexChar ((c / 16) mod 16); hexChar (c mod 16)].

Definition isHighSurrogate (c : N) : bool := N.leb 55296 c && N.leb c 56319.
Definition isLowSurrogate (c : N) : bool := N.leb 56320 c && N.leb c 57343.

(** The characters of a quoted string, [QuoteJSONString] of the standard
    without the quotes. *)
Fixpoint quoteChars (s : jsstring) : jsstring :=
  match s with
  | [] => []
  | c :: rest =>
      if N.eqb c 34 then [92; 34]%N ++ quoteChars rest
      else if N.eqb c 92 then [92; 92]%N ++ quoteChars rest
      else if N.eqb c 8 then [92; 98]%N ++ quoteChars rest
      else if N.eqb c 12 then [92; 102]%N ++ quoteChars rest
      else if N.eqb c 10 then [92; 110]%N ++ quoteChars rest
      else if N.eqb c 13 then [92; 114]%N ++ quoteChars rest
      else if N.eqb c 9 then [92; 116]%N ++ quoteChars rest
      else if N.ltb c 32 then unicodeEscape c ++ quoteChars rest
      else if isHighSurrogate c then
        match rest with
        | d :: rest2 =>
            if isLowSurrogate d then c :: d :: quoteChars rest2
            else unicodeEscape c ++ quoteChars rest
        | [] => unicodeEscape c
        end
      else if isLowSurrogate c then unicodeEscape c ++ quoteChars rest
      else c :: quoteChars rest
  end.

Definition quoteJSONString (s : jsstring) : jsstring := quoted (quoteChars s).

(** [JSON.stringify(v)], as the text a template literal makes of it. *)
Fixpoint stringify (v : value) : jsstring :=
  match v with
  | VUndefined => lit "undefined"
  | VNull => lit "null"
  | VBool true => lit "true"
  | VBool false => lit "false"
  | VNumber n => num_string n
  | VString s => quoteJSONString s
  | VArray elems =>
      lit "[" ++ join (map (fun e => match e with
                                     | VUndefined => lit "null"
                                     | _ => stringify e
                                     end) elems) (lit ",") ++ lit "]"
  | VObject props =>
      lit "{" ++
      join (flat_map (fun '(k, x) => match x with
                                     | VUndefined => []
                                     | _ => [quoteJSONString k ++ lit ":" ++ stringify x]
                                     end) props) (lit ",") ++
      lit "}"
  end.

(** The UTF-8 bytes of a string; a surrogate without its partner is encoded
    as the replacement character. *)
Fixpoint utf8 (s : jsstring) : list N :=
  match s with
  | [] => []
  | c :: rest =>
      if N.ltb c 128 then c :: utf8 rest
      else if N.ltb c 2048 then
        [192 + c / 64; 128 + c mod 64]%N ++ utf8 rest
      else if isHighSurrogate c then
        match rest with
        | d :: rest2 =>
            if isLowSurrogate d then
              let cp := (65536 + (c - 55296) * 1024 + (d - 56320))%N in
              [240 + cp / 262144; 128 + (cp / 4096) mod 64;
               128 + (cp / 64) mod 64; 128 + cp mod 64]%N ++ utf8 rest2
            else [239; 191; 189]%N ++ utf8 rest
        | [] => [239; 191; 189]%N
        end
      else if isLowSurrogate c then [239; 191; 189]%N ++ utf8 rest
      else [224 + c / 4096; 128 + (c / 64) mod 64; 128 + c mod 64]%N ++ utf8 rest
  end.

#[export] Instance engine : Engine := {|
  JSON_parse := parse;
  JSON_stringify := stringify;
  TextEncoder_encode := utf8;
  nullPropertyMessage := fun k =>
    lit "null is not an object (evaluating 'data." ++ k ++ lit "')";
  invalidStateMessage := lit "Invalid state: Controller is already closed";
  notAnObjectMessage := fun v e =>
    match v with
    | VNull => lit "null"
    | _ => lit "undefined"
    end ++ lit " is not an object (evaluating '" ++ e ++ lit "')";
|}.

End Reference.

(* ================================================================== *)
(** ** The first revision of the chat handler

    src/server.ts holds two revisions of the server; the first one has no
    [validateRequest] and hands the parsed body to the upstream call as it
    is. *)
(* ================================================================== *)

Module Revision0.
Import JS.
Import Server.

Section Relay.
Context {engine : Engine}.
Variable client : Anthropic.



End Relay.

End Revision0.

(* ================================================================== *)
(** ** Views of the server's and the client's data

    The object behind each frame, the text of a frame, the request the
    client builds as a value, and the predicates the properties below are
    stated with. *)
(* ================================================================== *)

Module Views.
Import JS.

(** The object [JSON.stringify] is given for an event. *)
Definition eventValue (e : Server.StreamEvent) : value :=
  match e with
  | Server.Delta text =>
      VObject [(lit "type", VString (lit "delta")); (lit "text", VString text)]
  | Server.Done usage =>
      VObject [(lit "type", VString (lit "done")); (lit "usage", usage)]
  | Server.Error errorMsg =>
      VObject [(lit "type", VString (lit "error")); (lit "error", VString errorMsg)]
  end.

(** The object with the fields of a validated request. *)
Definition requestOf (data : Server.ChatRequest) : value :=
  VObject [(lit "model", Server.model data);
           (lit "system", Server.system data);
           (lit "messages", VArray (Server.messages data))].

(** The upstream events the loop of [start] reacts to. *)
Definition isRelayed (ev : Server.MessageStreamEvent) : bool :=
  match ev with
  | Server.content_block_delta (Server.text_delta _) => true
  | Server.message_stop => true
  | _ => false
  end.

Definition withEvents (stream : Server.MessageStream)
    (evs : list Server.MessageStreamEvent) : Server.MessageStream :=
  {| Server.events := evs;
     Server.ending := Server.ending stream;
     Server.finalMessage := Server.finalMessage stream |}.

(** [a] is a prefix of [b]. *)
Definition isPrefix {A} (a b : list A) : Prop := exists rest, b = a ++ rest.

(** The object of a transcript entry and of the request the client sends;
    [Client.requestBody] is its [JSON.stringify]. *)
Definition messageValue (m : Client.Message) : value :=
  VObject [(lit "role", VString (Client.role m));
           (lit "content", VString (Client.content m))].

Definition requestValue (page : Client.Page) (modelValue systemValue : jsstring) : value :=
  VObject [(lit "model", VString modelValue);
           (lit "system", VString systemValue);
           (lit "messages", VArray (map messageValue (Client.messages page)))].

(** Every entry of the transcript is a user's or the assistant's. *)
Definition rolesOk (page : Client.Page) : Prop :=
  Forall (fun m => Client.role m = lit "user" \/ Client.role m = lit "assistant")
         (Client.messages page).

(** A line the client parses: it starts with [data: ]. *)
Definition isData (line : jsstring) : bool := startsWith line (lit "data: ").

(** A response of the chat endpoint as [fetch] hands it to the client, with
    a body that arrives in [reads]. *)
Definition streamed (reads : list jsstring) (ending : Client.ReadEnding)
    : Client.Fetched :=
  inr {| Client.ok := true;
         Client.status := 200;
         Client.responseText := inr (List.concat reads);
         Client.responseBody :=
           Some {| Client.reads := reads; Client.ending := ending |} |}.

(** The assistant's element shows the rendering of the text assembled so
    far, and is still marked as loading. *)
Definition synced (st : Client.Stream) : Prop :=
  Client.assistantDiv st
  = Client.renderMessage (lit "assistant") (Client.fullContent st) true.

(** The page a turn leaves: the reply saved in the transcript and rendered,
    or an error shown in place of the reply. *)
Definition replied (page : Client.Page) (reply : jsstring) : Client.Page :=
  {| Client.messages :=
       Client.messages page ++
       [{| Client.role := lit "assistant"; Client.content := reply |}];
     Client.isStreaming := false;
     Client.messagesEl :=
       Client.messagesEl page ++
       [Client.renderMessage (lit "assistant") reply false];
     Client.sendBtn_disabled := false |}.

Definition failed (page : Client.Page) (message : jsstring) : Client.Page :=
  {| Client.messages := Client.messages page;
     Client.isStreaming := false;
     Client.messagesEl :=
       Client.messagesEl page ++
       [Client.renderMessage (lit "assistant") (lit "Error: " ++ message) false];
     Client.sendBtn_disabled := false |}.

(** The locals of [streamResponse] once the deltas among [evs] have been
    applied. *)
Definition advance (st : Client.Stream) (evs : list Server.StreamEvent)
    : Client.Stream :=
  {| Client.fullContent :=
       Client.fullContent st ++ List.concat (Server.deltaTexts evs);
     Client.buffer := Client.buffer st;
     Client.assistantDiv :=
       Client.renderMessage (lit "assistant")
         (Client.fullContent st ++ List.concat (Server.deltaTexts evs)) true |}.

(** The text of the frames of a list of events. *)
Section Frames.
Context {engine : Engine}.

Definition frameText (e : Server.StreamEvent) : jsstring :=
  lit "data: " ++ Server.eventData e ++ nl ++ nl.

Definition framesText (evs : list Server.StreamEvent) : jsstring :=
  List.concat (map frameText evs).

(** [JSON.parse] reads the data of the event back, and the data holds no
    line feed (as the output of [JSON.stringify] never does). *)
Definition readable (e : Server.StreamEvent) : Prop :=
  JSON_parse (Server.eventData e) = inr (eventValue e) /\
  ~ In 10%N (Server.eventData e).

End Frames.

(** The page when the script has loaded, and the page after a sequence of
    submissions, each with the text of the input field and what [fetch]
    gives for it. *)
Definition initialPage : Client.Page :=
  {| Client.messages := []; Client.isStreaming := false;
     Client.messagesEl := []; Client.sendBtn_disabled := false |}.

Section Session.
Context {engine : Engine}.

Definition session (turns : list (jsstring * Client.Fetched)) : Client.Page :=
  fold_left (fun page turn => Client.onSubmit page (fst turn) (snd turn))
            turns initialPage.

End Session.

End Views.

(* ================================================================== *)
(** ** The specification's notions

    The constraints of the request validator and the meaning of "escaped",
    as the specification words them. *)
(* ================================================================== *)

Module Spec.
Import JS.
Import Server.

(** "the value is an object": a JSON object, which an array, a string, a
    number, a boolean and [null] are not. *)
Definition isObject (v : value) : Prop :=
  match v with
  | VObject _ => True
  | _ => False
  end.

(** The reading of "object" that the language's [typeof] gives: an object or
    an array, [null] left out. *)
Definition typeofObject (v : value) : Prop :=
  match v with
  | VObject _ | VArray _ => True
  | _ => False
  end.

(** "[model] is present and is one of the enumerated supported model
    identifiers" *)
Definition modelSupported (body : value) : Prop :=
  exists m, get body (lit "model") = VString m /\ In m MODELS.

(** "[system], if present, is a string" *)
Definition systemOk (body : value) : Prop :=
  get body (lit "system") = VUndefined \/
  exists s, get body (lit "system") = VString s.

(** "[messages] is a sequence" *)
Definition messagesIsSequence (body : value) : Prop :=
  exists msgs, get body (lit "messages") = VArray msgs.

(** [role] equal to "user" or "assistant" *)
Definition roleOk (msg : value) : Prop :=
  get msg (lit "role") = VString (lit "user") \/
  get msg (lit "role") = VString (lit "assistant").

(** "[content] a string" *)
Definition contentOk (msg : value) : Prop :=
  exists s, get msg (lit "content") = VString s.

Definition messageOk (msg : value) : Prop :=
  isObject msg /\ roleOk msg /\ contentOk msg.

(** The request the validator returns for a body that passes: its fields,
    with the empty string for an absent [system]. *)
Definition normalized (body : value) (data : ChatRequest) : Prop :=
  model data = get body (lit "model") /\
  system data = match get body (lit "system") with
                | VUndefined => VString []
                | s => s
                end /\
  get body (lit "messages") = VArray (messages data).

(** [firstViolationBy shape body error]: [error] is the message for the
    first constraint that [body] violates, in the order body shape, model,
    system type, messages-is-sequence, then message by message its shape,
    role and content, where [shape] says what counts as an object for the
    two shape constraints. *)
Inductive firstViolationBy (shape : value -> Prop) (body : value) : jsstring -> Prop :=
| violatesBodyShape :
    ~ shape body ->
    firstViolationBy shape body (lit "Invalid request body")
| violatesModel :
    shape body -> ~ modelSupported body ->
    firstViolationBy shape body
      (lit "Invalid model. Must be one of: claude-opus-4-5-20250514, claude-sonnet-4-20250514, claude-haiku-3-5-20241022")
| violatesSystem :
    shape body -> modelSupported body -> ~ systemOk body ->
    firstViolationBy shape body (lit "System prompt must be a string")
| violatesSequence :
    shape body -> modelSupported body -> systemOk body ->
    ~ messagesIsSequence body ->
    firstViolationBy shape body (lit "Messages must be an array")
| violatesMessageShape pre msg post :
    shape body -> modelSupported body -> systemOk body ->
    get body (lit "messages") = VArray (pre ++ msg :: post) ->
    Forall messageOk pre ->
    ~ shape msg ->
    firstViolationBy shape body (lit "Each message must be an object")
| violatesMessageRole pre msg post :
    shape body -> modelSupported body -> systemOk body ->
    get body (lit "messages") = VArray (pre ++ msg :: post) ->
    Forall messageOk pre ->
    shape msg -> ~ roleOk msg ->
    firstViolationBy shape body (lit "Message role must be 'user' or 'assistant'")
| violatesMessageContent pre msg post :
    shape body -> modelSupported body -> systemOk body ->
    get body (lit "messages") = VArray (pre ++ msg :: post) ->
    Forall messageOk pre ->
    shape msg -> roleOk msg -> ~ contentOk msg ->
    firstViolationBy shape body (lit "Message content must be a string").

(** The first violated constraint as the specification words it, with
    "object" set against the other kinds of JSON value. *)
Definition firstViolation : value -> jsstring -> Prop := firstViolationBy isObject.

(** *** Rendered text

    What "escaped" means for the output of the renderer: the markup the
    renderer itself writes, the character references that escaping writes,
    and between them only characters that start no markup. *)

Definition rendererTags : list jsstring :=
  [ lit "<pre><code>"; lit "</code></pre>"; lit "<code>"; lit "</code>";
    lit "<p>"; lit "</p>" ].

Definition escapeEntities : list jsstring :=
  [ lit "&amp;"; lit "&lt;"; lit "&gt;"; lit "&nbsp;" ].

(** A character that is neither [<] nor [>] nor [&]. *)
Definition plainChar (c : N) : Prop := c <> 60%N /\ c <> 62%N /\ c <> 38%N.

(** The characters at which the renderer cuts a text: the backtick and the
    line feed. *)
Definition boundary (c : N) : Prop := c = 96%N \/ c = 10%N.

Inductive Escaped : jsstring -> Prop :=
| escaped_nil : Escaped []
| escaped_char c s : plainChar c -> Escaped s -> Escaped (c :: s)
| escaped_token t s :
    In t (rendererTags ++ escapeEntities) -> Escaped s -> Escaped (t ++ s).

End Spec.

(* ================================================================== *)
(** ** Concrete inputs *)
(* ================================================================== *)

Module Examples.
Import JS.

(** The request of the repository's streaming test. *)
Definition testBody : value :=
  VObject [(lit "model", VString (lit "claude-haiku-3-5-20241022"));
           (lit "system",
            VString (lit "You are a helpful assistant. Respond with exactly: OK"));
           (lit "messages",
            VArray [VObject [(lit "role", VString (lit "user"));
                             (lit "content", VString (lit "Test"))]])].

(** A body without [system], and bodies that break one constraint each. *)
Definition bodyWithoutSystem : value :=
  VObject [(lit "model", VString (lit "claude-sonnet-4-20250514"));
           (lit "messages", VArray [])].

Definition bodyWithBadRole : value :=
  VObject [(lit "model", VString (lit "claude-sonnet-4-20250514"));
           (lit "messages",
            VArray [VObject [(lit "role", VString (lit "user"));
                             (lit "content", VString (lit "Hi"))];
                    VObject [(lit "role", VString (lit "system"));
                             (lit "content", VString (lit "Hi"))]])].

(** An array as the body, and an array among the messages. *)
Definition arrayBody : value := VArray [].

Definition bodyWithArrayMessage : value :=
  VObject [(lit "model", VString (lit "claude-sonnet-4-20250514"));
           (lit "messages", VArray [VArray []])].

Definition chatRequest (text : jsstring) : Server.Request :=
  {| Server.method := lit "POST";
     Server.pathname := lit "/api/chat";
     Server.bodyText := text |}.

(** An upstream stream that yields "Hel", "lo" and completes. *)
Definition usage : value :=
  VObject [(lit "input_tokens",
            VNumber {| num_string := lit "12"; num_truthy := true |});
           (lit "output_tokens",
            VNumber {| num_string := lit "2"; num_truthy := true |})].

Definition completeStream : Server.MessageStream :=
  {| Server.events :=
       [Server.message_start;
        Server.content_block_start;
        Server.content_block_delta (Server.text_delta (lit "Hel"));
        Server.content_block_delta (Server.text_delta (lit "lo"));
        Server.content_block_stop;
        Server.message_delta;
        Server.message_stop];
     Server.ending := Server.EndOfStream;
     Server.finalMessage :=
       inr (VObject [(lit "role", VString (lit "assistant"));
                     (lit "usage", usage)]) |}.

(** An upstream stream that fails after two text deltas. *)
Definition failingStream : Server.MessageStream :=
  {| Server.events :=
       [Server.message_start;
        Server.content_block_start;
        Server.content_block_delta (Server.text_delta (lit "Hel"));
        Server.content_block_delta (Server.text_delta (lit "lo"))];
     Server.ending := Server.Raises (ThrownError (lit "Connection error."));
     Server.finalMessage := inl (ThrownError (lit "Connection error.")) |}.

(** An upstream stream whose connection ends, without an error, before
    [message_stop] has arrived. *)
Definition truncatedStream : Server.MessageStream :=
  {| Server.events :=
       [Server.message_start;
        Server.content_block_start;
        Server.content_block_delta (Server.text_delta (lit "Hi"))];
     Server.ending := Server.EndOfStream;
     Server.finalMessage :=
       inl (ThrownError
              (lit "stream ended without producing a Message with role=assistant")) |}.

(** The frames of these streams as they go over the wire: the text of each
    chunk, written out. *)
Definition deltaFrame (text : jsstring) : jsstring :=
  lit "data: {" ++ quoted (lit "type") ++ lit ":" ++ quoted (lit "delta") ++
  lit "," ++ quoted (lit "text") ++ lit ":" ++ quoted text ++ lit "}" ++ nl ++ nl.

Definition errorFrame (message : jsstring) : jsstring :=
  lit "data: {" ++ quoted (lit "type") ++ lit ":" ++ quoted (lit "error") ++
  lit "," ++ quoted (lit "error") ++ lit ":" ++ quoted message ++ lit "}" ++ nl ++ nl.

Definition doneFrame : jsstring :=
  lit "data: {" ++ quoted (lit "type") ++ lit ":" ++ quoted (lit "done") ++
  lit "," ++ quoted (lit "usage") ++ lit ":{" ++ quoted (lit "input_tokens") ++
  lit ":12," ++ quoted (lit "output_tokens") ++ lit ":2}}" ++ nl ++ nl.

Definition completeChunks : list jsstring :=
  [deltaFrame (lit "Hel"); deltaFrame (lit "lo"); doneFrame].

Definition failingChunks : list jsstring :=
  [deltaFrame (lit "Hel"); deltaFrame (lit "lo");
   errorFrame (lit "Connection error.")].

Definition nullFinalChunks : list jsstring :=
  [deltaFrame (lit "Hi");
   errorFrame (lit "null is not an object (evaluating 'finalMessage.usage')")].

(** An upstream stream whose [finalMessage()] gives [null]. *)
Definition nullFinalStream : Server.MessageStream :=
  {| Server.events :=
       [Server.content_block_delta (Server.text_delta (lit "Hi"));
        Server.message_stop];
     Server.ending := Server.EndOfStream;
     Server.finalMessage := inr VNull |}.

Definition client : Server.Anthropic :=
  {| Server.messages_stream := fun _ => completeStream |}.

(** The frame of the event [{ type: "delta", text: "hello" }], cut in two
    inside its text. *)
Definition helloData : jsstring :=
  lit "{" ++ quoted (lit "type") ++ lit ":" ++ quoted (lit "delta") ++ lit "," ++
  quoted (lit "text") ++ lit ":" ++ quoted (lit "hello") ++ lit "}".

Definition helloEvent : value :=
  VObject [(lit "type", VString (lit "delta")); (lit "text", VString (lit "hello"))].

Definition helloFirstRead : jsstring :=
  lit "data: {" ++ quoted (lit "type") ++ lit ":" ++ quoted (lit "delta") ++ lit "," ++
  quoted (lit "text") ++ lit ":" ++ dq ++ lit "hel".

Definition helloSecondRead : jsstring :=
  lit "lo" ++ dq ++ lit "}" ++ nl ++ nl.

(** The page after the user has sent "Hi". *)
Definition emptyPage : Client.Page :=
  {| Client.messages := []; Client.isStreaming := false;
     Client.messagesEl := []; Client.sendBtn_disabled := false |}.

Definition askedPage : Client.Page :=
  Client.addMessage emptyPage (lit "user") (lit "Hi").

(** The chunks the relay sends for an upstream stream, as the reads of the
    client (the frames are ASCII, which UTF-8 leaves as it is). *)
Definition relayedResponse (stream : Server.MessageStream) : Client.FetchResponse :=
  {| Client.ok := true;
     Client.status := 200;
     Client.responseText := inr [];
     Client.responseBody :=
       Some {| Client.reads :=
                 Server.chunks
                   (snd (Server.start (engine := Reference.engine) stream
                           Server.newController));
               Client.ending := Client.ReadDone |} |}.

(** An upstream stream that fails, after one text delta, with an error whose
    message holds "JSON": the [SyntaxError] of a [JSON.parse] on a damaged
    event. *)
Definition jsonFailingStream : Server.MessageStream :=
  {| Server.events :=
       [Server.message_start;
        Server.content_block_start;
        Server.content_block_delta (Server.text_delta (lit "Partial answer"))];
     Server.ending :=
       Server.Raises (ThrownError (lit "JSON Parse error: Unexpected EOF"));
     Server.finalMessage :=
       inl (ThrownError (lit "JSON Parse error: Unexpected EOF")) |}.

(** The line of the [error] event the relay sends for it. *)
Definition jsonErrorEvent : value :=
  VObject [(lit "type", VString (lit "error"));
           (lit "error", VString (lit "JSON Parse error: Unexpected EOF"))].

Definition jsonErrorLine : jsstring :=
  lit "data: " ++ Reference.stringify jsonErrorEvent.

(** A transcript of three messages. *)
Definition threeMessages : list value :=
  [VObject [(lit "role", VString (lit "user")); (lit "content", VString (lit "Hi"))];
   VObject [(lit "role", VString (lit "assistant"));
            (lit "content", VString (lit "Hello"))];
   VObject [(lit "role", VString (lit "user")); (lit "content", VString (lit "Bye"))]].

(** A body with a field the validator does not read. *)
Definition bodyWithExtraField : value :=
  VObject [(lit "temperature", VNumber {| num_string := lit "1"; num_truthy := true |});
           (lit "messages", VArray threeMessages);
           (lit "model", VString (lit "claude-opus-4-5-20250514"))].

(** The frames the relay sends for [completeStream], arriving in two reads
    cut inside the first frame, and in reads of one code unit each. *)
Definition completeFrames : jsstring :=
  Views.framesText (engine := Reference.engine)
    (Server.relayedEvents (engine := Reference.engine) completeStream).

Definition cutReads : list jsstring :=
  [firstn 20 completeFrames; skipn 20 completeFrames].

Definition unitReads : list jsstring := map (fun c => [c]) completeFrames.

(** The response of the server to a body that is not JSON, as the client
    gets it. *)
Definition refusedResponse : Client.FetchResponse :=
  {| Client.ok := false;
     Client.status := 400;
     Client.responseText :=
       inr (Reference.stringify (VObject [(lit "error", VString (lit "Invalid JSON"))]));
     Client.responseBody := None |}.

(** A response without text and without body. *)
Definition emptyResponse (ok : bool) (status : N) : Client.FetchResponse :=
  {| Client.ok := ok;
     Client.status := status;
     Client.responseText := inr [];
     Client.responseBody := None |}.

End Examples.

(* ================================================================== *)
(** * Properties *)
(* ================================================================== *)

(** ** Strings *)

Module JSFacts.
Import JS.

(** Case analysis on every condition of the goal. *)
Ltac case_conditions :=
  repeat match goal with
         | |- context [if ?c then _ else _] => destruct c
         end.

Lemma streq_refl (a : jsstring) : streq a a = true.
Proof.
  induction a as [|x a IH]; simpl; [reflexivity|].
  now rewrite N.eqb_refl, IH.
Qed.

Lemma streq_eq (a b : jsstring) : streq a b = true <-> a = b.
Proof.
  split.
  - revert b. induction a as [|x a IH]; intros [|y b]; simpl; try discriminate; auto.
    intros H. apply andb_true_iff in H. destruct H as [Hx Hab].
    apply N.eqb_eq in Hx. apply IH in Hab. now subst.
  - intros ->. apply streq_refl.
Qed.

Lemma streq_neq (a b : jsstring) : streq a b = false <-> a <> b.
Proof.
  split.
  - intros H E. apply streq_eq in E. congruence.
  - intros H. destruct (streq a b) eqn:E; [|reflexivity].
    apply streq_eq in E. contradiction.
Qed.

Lemma strictEqString_eq (v : value) (s : jsstring) :
  strictEqString v s = true <-> v = VString s.
Proof.
  destruct v; simpl; try (split; [discriminate | intros H; discriminate H]).
  rewrite streq_eq. split; [now intros -> | now intros [= ->]].
Qed.

Lemma typeof_object (v : value) :
  streq (typeof v) (lit "object") = true <->
  (v = VNull \/ (exists l, v = VArray l) \/ (exists p, v = VObject p)).
Proof.
  destruct v; cbn; split; intros H; try discriminate; eauto;
    destruct H as [H|[[? H]|[? H]]]; discriminate.
Qed.

Lemma typeof_string (v : value) :
  streq (typeof v) (lit "string") = true <-> exists s, v = VString s.
Proof.
  destruct v; cbn; split; intros H; try discriminate; eauto;
    destruct H as [? H]; discriminate.
Qed.

End JSFacts.

(** ** The request validator *)

Module ValidatorFacts.
Import JS JSFacts Server Spec.

Lemma shape_check (v : value) :
  negb (truthy v) || negb (streq (typeof v) (lit "object")) = false
  <-> typeofObject v.
Proof.
  destruct v as [| |b|n|s|l|p]; cbn; try (split; [discriminate|tauto]);
    try (split; [tauto|reflexivity]).
  - destruct b; cbn; split; try discriminate; tauto.
  - destruct (num_truthy n); cbn; split; try discriminate; tauto.
  - destruct s; cbn; split; try discriminate; tauto.
Qed.

Lemma isObject_typeofObject (v : value) : isObject v -> typeofObject v.
Proof. now destruct v. Qed.

(** An array has no [role], so that what passes the role check is an
    object. *)
Lemma roleOk_isObject (msg : value) : typeofObject msg -> roleOk msg -> isObject msg.
Proof.
  destruct msg; cbn; try tauto. intros _ [H|H]; discriminate H.
Qed.

Lemma MODELS_includes_iff (v : value) :
  MODELS_includes v = true <-> exists m, v = VString m /\ In m MODELS.
Proof.
  unfold MODELS_includes. rewrite existsb_exists. split.
  - intros [m [Hin Heq]]. apply strictEqString_eq in Heq. eauto.
  - intros [m [-> Hin]]. exists m. split; [assumption|].
    now apply strictEqString_eq.
Qed.

Lemma MODELS_nonempty (m : jsstring) : In m MODELS -> m <> [].
Proof.
  intros [<-|[<-|[<-|[]]]]; discriminate.
Qed.

Lemma model_check (body : value) :
  negb (truthy (get body (lit "model")))
  || negb (MODELS_includes (get body (lit "model"))) = false
  <-> modelSupported body.
Proof.
  unfold modelSupported. rewrite orb_false_iff, !negb_false_iff, MODELS_includes_iff.
  split.
  - intros [_ H]. exact H.
  - intros [m [E Hin]]. split; [|eauto].
    rewrite E. cbn. pose proof (MODELS_nonempty m Hin). now destruct m.
Qed.

Lemma system_check (body : value) :
  negb (match get body (lit "system") with VUndefined => true | _ => false end)
  && negb (streq (typeof (get body (lit "system"))) (lit "string")) = false
  <-> systemOk body.
Proof.
  unfold systemOk. destruct (get body (lit "system")); cbn;
    split; intros H; try discriminate; eauto;
    destruct H as [H|[? H]]; discriminate.
Qed.

Lemma role_check (msg : value) :
  negb (strictEqString (get msg (lit "role")) (lit "user"))
  && negb (strictEqString (get msg (lit "role")) (lit "assistant")) = false
  <-> roleOk msg.
Proof.
  unfold roleOk. rewrite andb_false_iff, !negb_false_iff, !strictEqString_eq.
  tauto.
Qed.

Lemma content_check (msg : value) :
  negb (streq (typeof (get msg (lit "content"))) (lit "string")) = false
  <-> contentOk msg.
Proof.
  unfold contentOk. now rewrite negb_false_iff, typeof_string.
Qed.

(** The loop passes exactly the sequences whose messages are all in order. *)
Lemma validateMessages_None (msgs : list value) :
  validateMessages msgs = None <-> Forall messageOk msgs.
Proof.
  induction msgs as [|msg rest IH]; simpl.
  - split; auto.
  - destruct (negb (truthy msg) || negb (streq (typeof msg) (lit "object"))) eqn:Hs.
    + split; [discriminate|]. intros H. inversion H as [|? ? [Ho _] _]; subst.
      apply isObject_typeofObject, shape_check in Ho. congruence.
    + apply shape_check in Hs.
      destruct (negb (strictEqString (get msg (lit "role")) (lit "user"))
                && negb (strictEqString (get msg (lit "role")) (lit "assistant")))
        eqn:Hr.
      * split; [discriminate|]. intros H. inversion H as [|? ? [_ [Hro _]] _]; subst.
        apply role_check in Hro. congruence.
      * apply role_check in Hr.
        destruct (negb (streq (typeof (get msg (lit "content"))) (lit "string")))
          eqn:Hc.
        -- split; [discriminate|]. intros H.
           inversion H as [|? ? [_ [_ Hco]] _]; subst.
           apply content_check in Hco. congruence.
        -- apply content_check in Hc. rewrite IH. split.
           ++ intros H. constructor; [|assumption].
              repeat split; try assumption. now apply roleOk_isObject.
           ++ intros H. now inversion H.
Qed.

(** The error of the loop is that of the first message out of order, and of
    the first check that this message fails. *)
Lemma validateMessages_Some (msgs : list value) (error : jsstring) :
  validateMessages msgs = Some error ->
  exists pre msg post,
    msgs = pre ++ msg :: post /\ Forall messageOk pre /\
    ((~ typeofObject msg /\ error = lit "Each message must be an object") \/
     (typeofObject msg /\ ~ roleOk msg /\
      error = lit "Message role must be 'user' or 'assistant'") \/
     (typeofObject msg /\ roleOk msg /\ ~ contentOk msg /\
      error = lit "Message content must be a string")).
Proof.
  induction msgs as [|msg rest IH]; simpl; [discriminate|].
  destruct (negb (truthy msg) || negb (streq (typeof msg) (lit "object"))) eqn:Hs.
  { intros [= <-]. exists [], msg, rest. split; [reflexivity|]. split; [constructor|].
    left. split; [|reflexivity]. intros Ho. apply shape_check in Ho. congruence. }
  apply shape_check in Hs.
  destruct (negb (strictEqString (get msg (lit "role")) (lit "user"))
            && negb (strictEqString (get msg (lit "role")) (lit "assistant")))
    eqn:Hr.
  { intros [= <-]. exists [], msg, rest. split; [reflexivity|]. split; [constructor|].
    right; left. repeat split; try assumption.
    intros Hro. apply role_check in Hro. congruence. }
  apply role_check in Hr.
  destruct (negb (streq (typeof (get msg (lit "content"))) (lit "string"))) eqn:Hc.
  { intros [= <-]. exists [], msg, rest. split; [reflexivity|]. split; [constructor|].
    right; right. repeat split; try assumption.
    intros Hco. apply content_check in Hco. congruence. }
  apply content_check in Hc.
  intros H. destruct (IH H) as (pre & m & post & -> & Hpre & Hcase).
  exists (msg :: pre), m, post. split; [reflexivity|]. split; [|exact Hcase].
  constructor; [|assumption].
  repeat split; try assumption. now apply roleOk_isObject.
Qed.

Lemma invalidModel_text :
  lit "Invalid model. Must be one of: " ++ join MODELS (lit ", ")
  = lit "Invalid model. Must be one of: claude-opus-4-5-20250514, claude-sonnet-4-20250514, claude-haiku-3-5-20241022".
Proof. reflexivity. Qed.

Lemma valid_is_plain_object (body : value) :
  typeofObject body -> modelSupported body -> exists props, body = VObject props.
Proof.
  destruct body; cbn; try tauto; eauto.
  intros _ [m [E _]]. discriminate E.
Qed.

Lemma modelSupported_isObject (body : value) :
  typeofObject body -> modelSupported body -> isObject body.
Proof.
  intros Ht Hm. destruct (valid_is_plain_object body Ht Hm) as [props ->].
  exact I.
Qed.

(** The error of [validateRequest] is that of the first constraint violated
    when the two shape constraints are read as [typeof] reads them. *)
Lemma validateRequest_Invalid (body : value) (error : jsstring) :
  validateRequest body = Invalid error -> firstViolationBy typeofObject body error.
Proof.
  unfold validateRequest.
  destruct (negb (truthy body) || negb (streq (typeof body) (lit "object"))) eqn:Hb.
  { intros [= <-]. constructor. intros Ho. apply shape_check in Ho. congruence. }
  apply shape_check in Hb.
  destruct (negb (truthy (get body (lit "model")))
            || negb (MODELS_includes (get body (lit "model")))) eqn:Hm.
  { intros E. rewrite invalidModel_text in E. injection E as <-.
    constructor; [assumption|]. intros Ho. apply model_check in Ho. congruence. }
  apply model_check in Hm.
  destruct (negb (match get body (lit "system") with VUndefined => true | _ => false end)
            && negb (streq (typeof (get body (lit "system"))) (lit "string"))) eqn:Hs.
  { intros [= <-]. constructor; try assumption.
    intros Ho. apply system_check in Ho. congruence. }
  apply system_check in Hs.
  destruct (get body (lit "messages")) as [| |b|n|s|msgs|p] eqn:Hmsgs;
    cbn [isArray negb elements];
    try (intros [= <-]; constructor; try assumption;
         intros [? E]; rewrite Hmsgs in E; discriminate E).
  destruct (validateMessages msgs) as [e|] eqn:Hv; [|discriminate].
  intros [= <-].
  destruct (validateMessages_Some msgs e Hv) as (pre & m & post & -> & Hpre & Hcase).
  destruct Hcase as [[Ho ->]|[(Ho & Hr & ->)|(Ho & Hr & Hc & ->)]].
  - eapply violatesMessageShape; eauto.
  - eapply violatesMessageRole; eauto.
  - eapply violatesMessageContent; eauto.
Qed.

(** The first violated constraint, for a body that is not an object as the
    specification words it, is the body shape. *)
Lemma firstViolation_body_shape (body : value) (error : jsstring) :
  firstViolation body error -> ~ isObject body ->
  error = lit "Invalid request body".
Proof. intros H Hn. destruct H; try contradiction. reflexivity. Qed.

End ValidatorFacts.

Module ValidatorSpec.
Import JS JSFacts Server Spec ValidatorFacts.

(** C3, as the code has it.  For every JSON value given to
    [validateRequest]: it succeeds if and only if the value is an object,
    [model] is one of the supported model identifiers, [system] is absent or
    a string, [messages] is an array and every element of it is an object
    with [role] "user" or "assistant" and a string [content]; on success the
    returned request carries the fields of the body, with [system] set to
    the empty string when absent.  On failure the error is the one for the
    first violated constraint, in the order body shape, model, system type,
    messages-is-sequence, then each message's shape, role and content, with
    the two shape constraints read as the language's [typeof] reads them:
    an array passes them.  So the error is the one the specification's
    order asks for, except for an array as the body, which gets the error
    of the model, and for an array as the first message out of order,
    which gets the error of the role. *)
Theorem validateRequest_decides (body : value) :
  ((exists data, validateRequest body = Valid data) <->
   (isObject body /\ modelSupported body /\ systemOk body /\
    exists msgs, get body (lit "messages") = VArray msgs /\ Forall messageOk msgs))
  /\ (forall data, validateRequest body = Valid data ->
        normalized body data /\ exists props, body = VObject props)
  /\ (forall error, validateRequest body = Invalid error ->
        firstViolationBy typeofObject body error /\
        (firstViolation body error \/
         ((exists elems, body = VArray elems) /\
          error = lit "Invalid model. Must be one of: claude-opus-4-5-20250514, claude-sonnet-4-20250514, claude-haiku-3-5-20241022") \/
         (exists pre elems post,
            get body (lit "messages") = VArray (pre ++ VArray elems :: post) /\
            Forall messageOk pre /\
            error = lit "Message role must be 'user' or 'assistant'"))).
Proof.
  split; [|split].
  - split.
    + intros [data Hv]. unfold validateRequest in Hv.
      destruct (negb (truthy body) || negb (streq (typeof body) (lit "object")))
        eqn:Hb; [discriminate|]. apply shape_check in Hb.
      destruct (negb (truthy (get body (lit "model")))
                || negb (MODELS_includes (get body (lit "model")))) eqn:Hm;
        [discriminate|]. apply model_check in Hm.
      destruct (negb (match get body (lit "system") with
                      | VUndefined => true | _ => false end)
                && negb (streq (typeof (get body (lit "system"))) (lit "string")))
        eqn:Hs; [discriminate|]. apply system_check in Hs.
      destruct (get body (lit "messages")) as [| |b|n|s|msgs|p] eqn:Hmsgs;
        cbn [isArray negb elements] in Hv; try discriminate.
      destruct (validateMessages msgs) as [e|] eqn:Hms; [discriminate|].
      apply validateMessages_None in Hms.
      split; [now apply modelSupported_isObject|]. repeat split; try assumption.
      now exists msgs.
    + intros (Ho & Hm & Hs & msgs & Hmsgs & Hall).
      unfold validateRequest.
      apply isObject_typeofObject, shape_check in Ho. rewrite Ho.
      apply model_check in Hm. rewrite Hm.
      apply system_check in Hs. rewrite Hs. rewrite Hmsgs.
      cbn [isArray negb elements].
      apply validateMessages_None in Hall. rewrite Hall. eauto.
  - intros data Hv. unfold validateRequest in Hv.
    destruct (negb (truthy body) || negb (streq (typeof body) (lit "object")))
      eqn:Hb; [discriminate|]. apply shape_check in Hb.
    destruct (negb (truthy (get body (lit "model")))
              || negb (MODELS_includes (get body (lit "model")))) eqn:Hm;
      [discriminate|]. apply model_check in Hm.
    destruct (negb (match get body (lit "system") with
                    | VUndefined => true | _ => false end)
              && negb (streq (typeof (get body (lit "system"))) (lit "string")))
      eqn:Hs; [discriminate|]. apply system_check in Hs.
    destruct (get body (lit "messages")) as [| |b|n|s|msgs|p] eqn:Hmsgs;
      cbn [isArray negb elements] in Hv; try discriminate.
    destruct (validateMessages msgs) as [e|] eqn:Hms; [discriminate|].
    injection Hv as <-. split; [|now apply valid_is_plain_object].
    unfold normalized. split; [reflexivity|]. split; [|assumption].
    change (system _) with
      (if truthy (get body (lit "system")) then get body (lit "system")
       else VString []).
    destruct Hs as [->|[s ->]]; [reflexivity|]. now destruct s.
  - intros error Hv. apply validateRequest_Invalid in Hv. split; [exact Hv|].
    destruct Hv as [Hb|Hb Hm|Hb Hm Hs|Hb Hm Hs Hq
                    |pre msg post Hb Hm Hs Hmsgs Hpre Hmsg
                    |pre msg post Hb Hm Hs Hmsgs Hpre Hmsg Hr
                    |pre msg post Hb Hm Hs Hmsgs Hpre Hmsg Hr Hc].
    + left. apply violatesBodyShape. intros Ho.
      apply Hb. now apply isObject_typeofObject.
    + destruct body; try contradiction.
      * right. left. split; [eauto|reflexivity].
      * left. now apply violatesModel.
    + left. apply violatesSystem; try assumption.
      now apply modelSupported_isObject.
    + left. apply violatesSequence; try assumption.
      now apply modelSupported_isObject.
    + left. apply (violatesMessageShape isObject body pre msg post); try assumption.
      * now apply modelSupported_isObject.
      * intros Ho. apply Hmsg. now apply isObject_typeofObject.
    + destruct msg as [| |b|n|s|elems|props]; try contradiction.
      * right. right. exists pre, elems, post. repeat split; assumption.
      * left.
        apply (violatesMessageRole isObject body pre (VObject props) post);
          try assumption.
        now apply modelSupported_isObject.
    + left. apply (violatesMessageContent isObject body pre msg post);
        try assumption.
      * now apply modelSupported_isObject.
      * now apply roleOk_isObject.
Qed.

(** The validator on a body without [system] and on a body whose second
    message has the role "system". *)
Lemma validateRequest_decides_witness :
  (exists data, validateRequest Examples.bodyWithoutSystem = Valid data /\
                system data = VString []) /\
  firstViolation Examples.bodyWithBadRole
    (lit "Message role must be 'user' or 'assistant'").
Proof.
  split.
  - destruct (validateRequest_decides Examples.bodyWithoutSystem) as (_ & Hn & _).
    destruct (validateRequest Examples.bodyWithoutSystem) as [data|error] eqn:E;
      [|vm_compute in E; discriminate E].
    exists data. split; [reflexivity|].
    destruct (Hn data eq_refl) as [(_ & Hs & _) _]. exact Hs.
  - destruct (validateRequest_decides Examples.bodyWithBadRole) as (_ & _ & Hf).
    destruct (Hf (lit "Message role must be 'user' or 'assistant'") eq_refl)
      as [_ [H|[[[elems E] _]|(pre & elems & post & E & _)]]].
    + exact H.
    + discriminate E.
    + exfalso. vm_compute in E. injection E as E.
      destruct pre as [|a [|b [|c pre]]]; discriminate E.
Defined.

(** C3, as stated, fails on arrays.  An array is not an object, so that the
    first constraint an array body violates is the body shape, and the
    first constraint violated by a body whose only message is an array is
    the shape of that message; [validateRequest] answers the first with the
    error of the model and the second with the error of the role, which
    are not the errors of these constraints. *)
Lemma array_is_not_a_shape_violation :
  (~ isObject Examples.arrayBody /\
   firstViolation Examples.arrayBody (lit "Invalid request body") /\
   validateRequest Examples.arrayBody
   = Invalid (lit "Invalid model. Must be one of: claude-opus-4-5-20250514, claude-sonnet-4-20250514, claude-haiku-3-5-20241022") /\
   ~ firstViolation Examples.arrayBody
       (lit "Invalid model. Must be one of: claude-opus-4-5-20250514, claude-sonnet-4-20250514, claude-haiku-3-5-20241022")) /\
  (firstViolation Examples.bodyWithArrayMessage
     (lit "Each message must be an object") /\
   validateRequest Examples.bodyWithArrayMessage
   = Invalid (lit "Message role must be 'user' or 'assistant'") /\
   ~ firstViolation Examples.bodyWithArrayMessage
       (lit "Message role must be 'user' or 'assistant'")).
Proof.
  assert (Hmodel : modelSupported Examples.bodyWithArrayMessage).
  { exists (lit "claude-sonnet-4-20250514"). split; [reflexivity|].
    right. left. reflexivity. }
  assert (Hsystem : systemOk Examples.bodyWithArrayMessage) by (now left).
  split; [split; [|split; [|split]]|split; [|split]].
  - exact (fun H => H).
  - apply violatesBodyShape. exact (fun H => H).
  - reflexivity.
  - intros H. apply firstViolation_body_shape in H; [discriminate H|].
    exact (fun H0 => H0).
  - apply (violatesMessageShape isObject Examples.bodyWithArrayMessage
             [] (VArray []) []); try assumption.
    + exact I.
    + reflexivity.
    + constructor.
    + exact (fun H => H).
  - reflexivity.
  - intros H. unfold firstViolation in H.
    remember (lit "Message role must be 'user' or 'assistant'") as error eqn:He.
    destruct H as [Hb|Hb Hm|Hb Hm Hs|Hb Hm Hs Hq
                   |pre msg post Hb Hm Hs Hmsgs Hpre Hmsg
                   |pre msg post Hb Hm Hs Hmsgs Hpre Hmsg Hr
                   |pre msg post Hb Hm Hs Hmsgs Hpre Hmsg Hr Hc];
      try discriminate He.
    vm_compute in Hmsgs. injection Hmsgs as Hmsgs.
    destruct pre as [|a [|b pre]]; try discriminate Hmsgs.
    injection Hmsgs as <- _. exact Hmsg.
Qed.

End ValidatorSpec.

(** ** The stream relay *)

Module RelayFacts.
Import JS JSFacts Server.

Section WithEngine.
Context {engine : Engine}.

Lemma enqueue_open (chunk : list N) (c : Controller) :
  closeRequested c = false ->
  enqueue chunk c =
    (inr tt, {| chunks := chunks c ++ [chunk]; closeRequested := false;
                closeCalls := closeCalls c |}).
Proof. unfold enqueue. now intros ->. Qed.

(** The chunk of an event is the encoded text of [data: ], the JSON text of
    the event's object and a blank line. *)
Lemma wire_eventValue (e : StreamEvent) :
  wire e
  = TextEncoder_encode
      (lit "data: " ++ JSON_stringify (Views.eventValue e) ++ nl ++ nl).
Proof. destruct e; reflexivity. Qed.

Lemma map_wire_eventValue (evs : list StreamEvent) :
  map wire evs
  = map (fun e => TextEncoder_encode
                    (lit "data: " ++ JSON_stringify (Views.eventValue e)
                     ++ nl ++ nl)) evs.
Proof. apply map_ext. apply wire_eventValue. Qed.

(** Only the last relayed event can be an [Error]. *)
Lemma relayedFrom_error_last (stream : MessageStream) (evs : list MessageStreamEvent) :
  existsb isError (removelast (relayedFrom stream evs)) = false.
Proof.
  induction evs as [|ev rest IH]; simpl.
  - now destruct (ending stream).
  - assert (Hcons : forall x, isError x = false ->
              existsb isError (removelast (x :: relayedFrom stream rest)) = false).
    { intros x Hx. simpl. destruct (relayedFrom stream rest) eqn:E; [reflexivity|].
      simpl. rewrite Hx. exact IH. }
    destruct ev as [| | | |d|]; try exact IH.
    + destruct (finalMessage stream) as [e|m]; [reflexivity|].
      destruct (usageOf m); [reflexivity|]. now apply Hcons.
    + destruct d; try exact IH. now apply Hcons.
Qed.

(** What one run of the loop does to an open controller: it leaves it open,
    and the chunks it adds are those of the relayed events, the final
    [Error] excepted when the loop raises, which the handler adds. *)
Lemma forAwait_spec (stream : MessageStream) (evs : list MessageStreamEvent) :
  forall c, closeRequested c = false ->
  match forAwait stream evs c with
  | (inr _, c1) =>
      closeRequested c1 = false /\ closeCalls c1 = closeCalls c /\
      chunks c1 = chunks c ++ map wire (relayedFrom stream evs) /\
      existsb isError (relayedFrom stream evs) = false
  | (inl e, c1) =>
      closeRequested c1 = false /\ closeCalls c1 = closeCalls c /\
      exists pre, relayedFrom stream evs = pre ++ [Error (errorMessage e)] /\
                  existsb isError pre = false /\
                  chunks c1 = chunks c ++ map wire pre
  end.
Proof.
  induction evs as [|ev rest IH]; intros c Hc; simpl.
  - destruct (ending stream) as [|e]; simpl.
    + now rewrite app_nil_r.
    + repeat split; try assumption. exists []. simpl. now rewrite app_nil_r.
  - assert (Hskip :
      match forAwait stream rest c with
      | (inr _, c1) =>
          closeRequested c1 = false /\ closeCalls c1 = closeCalls c /\
          chunks c1 = chunks c ++ map wire (relayedFrom stream rest) /\
          existsb isError (relayedFrom stream rest) = false
      | (inl e, c1) =>
          closeRequested c1 = false /\ closeCalls c1 = closeCalls c /\
          exists pre, relayedFrom stream rest = pre ++ [Error (errorMessage e)] /\
                      existsb isError pre = false /\
                      chunks c1 = chunks c ++ map wire pre
      end) by (apply IH; assumption).
    assert (Hsend : forall x, isError x = false ->
      match (enqueue (wire x) ;; forAwait stream rest) c with
      | (inr _, c1) =>
          closeRequested c1 = false /\ closeCalls c1 = closeCalls c /\
          chunks c1 = chunks c ++ map wire (x :: relayedFrom stream rest) /\
          existsb isError (x :: relayedFrom stream rest) = false
      | (inl e, c1) =>
          closeRequested c1 = false /\ closeCalls c1 = closeCalls c /\
          exists pre, x :: relayedFrom stream rest = pre ++ [Error (errorMessage e)] /\
                      existsb isError pre = false /\
                      chunks c1 = chunks c ++ map wire pre
      end).
    { intros x Hx. unfold bind. rewrite enqueue_open by assumption.
      specialize (IH {| chunks := chunks c ++ [wire x]; closeRequested := false;
                        closeCalls := closeCalls c |} eq_refl).
      destruct (forAwait stream rest _) as [[e|[]] c1]; simpl in IH.
      - destruct IH as (H1 & H2 & pre & Hpre & Hno & Hch).
        repeat split; try assumption.
        exists (x :: pre). simpl. rewrite Hpre, Hx, Hch, <- app_assoc.
        repeat split; assumption.
      - destruct IH as (H1 & H2 & Hch & Hno).
        simpl. rewrite Hx, Hch, <- app_assoc. repeat split; assumption. }
    assert (Hthrow : forall e,
      match (@throw unit e ;; forAwait stream rest) c with
      | (inr _, c1) => False
      | (inl e', c1) =>
          closeRequested c1 = false /\ closeCalls c1 = closeCalls c /\
          exists pre, [Error (errorMessage e)] = pre ++ [Error (errorMessage e')] /\
                      existsb isError pre = false /\
                      chunks c1 = chunks c ++ map wire pre
      end).
    { intros e. unfold bind, throw. repeat split; try assumption.
      exists []. simpl. now rewrite app_nil_r. }
    destruct ev as [| | | |d|]; simpl; try exact Hskip.
    + destruct (finalMessage stream) as [e|m]; simpl; [exact (Hthrow e)|].
      destruct (usageOf m) as [e|usage]; [exact (Hthrow e)|].
      apply (Hsend (Done usage)). reflexivity.
    + destruct d as [t|?| |?|]; simpl; try exact Hskip.
      apply (Hsend (Delta t)). reflexivity.
Qed.

(** The run of [start] on a fresh controller: it returns normally, the
    chunks are those of the relayed events, and [close] is called once. *)
Lemma start_run (stream : MessageStream) :
  start stream newController =
    (inr tt, {| chunks := map wire (relayedEvents stream);
                closeRequested := true; closeCalls := 1 |}).
Proof.
  unfold start, try_catch_finally, relayedEvents.
  pose proof (forAwait_spec stream (events stream) newController eq_refl) as H.
  destruct (forAwait stream (events stream) newController) as [[e|[]] c1].
  - destruct H as (Hc & Hn & pre & Hpre & _ & Hch).
    rewrite enqueue_open by assumption. unfold close. simpl.
    rewrite Hpre, Hch, Hn, map_app. reflexivity.
  - destruct H as (Hc & Hn & Hch & _).
    unfold close. rewrite Hc, Hch, Hn. reflexivity.
Qed.

(** The same, with the chunks written out. *)
Lemma start_frames (stream : MessageStream) :
  start stream newController =
    (inr tt,
     {| chunks :=
          map (fun e => TextEncoder_encode
                          (lit "data: " ++ JSON_stringify (Views.eventValue e)
                           ++ nl ++ nl))
              (relayedEvents stream);
        closeRequested := true; closeCalls := 1 |}).
Proof. now rewrite start_run, map_wire_eventValue. Qed.

(** Events other than [message_stop] relay their text deltas and nothing
    else. *)
Lemma relayedFrom_before_stop (stream : MessageStream)
    (pre rest : list MessageStreamEvent) :
  existsb isStop pre = false ->
  relayedFrom stream (pre ++ rest) =
    map Delta (textFragments pre) ++ relayedFrom stream rest.
Proof.
  induction pre as [|ev pre IH]; simpl; [reflexivity|].
  intros H. apply orb_false_iff in H. destruct H as [Hev Hpre].
  destruct ev as [| | | |d|]; try discriminate; try (now apply IH).
  destruct d; simpl; try (now apply IH). now rewrite IH.
Qed.

Lemma textFragments_before_stop (pre : list MessageStreamEvent) :
  textFragments (pre ++ [message_stop]) = textFragments pre.
Proof.
  induction pre as [|ev pre IH]; [reflexivity|].
  destruct ev as [| | | |d|]; simpl; try exact IH.
  destruct d; simpl; try exact IH. now rewrite IH.
Qed.

(** Either the relay ends with an [Error], or it has relayed every text
    delta of the upstream. *)
Lemma relayedFrom_texts (stream : MessageStream) (evs : list MessageStreamEvent) :
  (exists pre m, relayedFrom stream evs = pre ++ [Error m]) \/
  deltaTexts (relayedFrom stream evs) = textFragments evs.
Proof.
  induction evs as [|ev rest IH]; simpl.
  - destruct (ending stream) as [|e]; [now right|].
    left. now exists [], (errorMessage e).
  - assert (Hcons : forall x,
              (exists pre m, x :: relayedFrom stream rest = pre ++ [Error m]) \/
              deltaTexts (relayedFrom stream rest) = textFragments rest).
    { intros x. destruct IH as [(pre & m & E)|E]; [left|now right].
      exists (x :: pre), m. now rewrite E. }
    destruct ev as [| | | |d|]; try exact IH.
    + destruct (finalMessage stream) as [e|m].
      * left. now exists [], (errorMessage e).
      * destruct (usageOf m) as [e|usage].
        -- left. now exists [], (errorMessage e).
        -- destruct (Hcons (Done usage)) as [H|H]; [now left|now right].
    + destruct d as [t|?| |?|]; try exact IH.
      destruct (Hcons (Delta t)) as [H|H]; [now left|].
      right. simpl. now rewrite H.
Qed.

Lemma deltaTexts_map_Delta (texts : list jsstring) :
  deltaTexts (map Delta texts) = texts.
Proof. induction texts; simpl; congruence. Qed.

Lemma deltaTexts_app (a b : list StreamEvent) :
  deltaTexts (a ++ b) = deltaTexts a ++ deltaTexts b.
Proof.
  induction a as [|e a IH]; [reflexivity|]. destruct e; simpl; congruence.
Qed.

(** Events without a terminal one among them are deltas. *)
Lemma deltas_only (evs : list StreamEvent) :
  existsb isTerminal evs = false -> evs = map Delta (deltaTexts evs).
Proof.
  induction evs as [|e evs IH]; [reflexivity|]. simpl. intros H.
  apply orb_false_iff in H. destruct H as [He Hevs].
  destruct e; try discriminate. simpl. now rewrite <- IH.
Qed.

End WithEngine.

End RelayFacts.

Module RelaySpec.
Import JS JSFacts Server RelayFacts.

(** C1, as the code has it.  For every completed stream whose upstream
    follows the streaming protocol (it yields [message_stop] once, as its
    last event, and ends; or it raises before any [message_stop]), the relay
    emits exactly one terminal event, [done] or [error]: the chunks it
    enqueues are the frames of one [delta] event for each text fragment of
    the upstream, in order, followed by the frame of the terminal event, each
    frame being the encoded text of [data: ], the JSON text of the event's
    object and a blank line; nothing follows, and the stream is closed. *)
Theorem relay_one_terminal_under_protocol {engine : Engine} (stream : MessageStream) :
  followsProtocol stream ->
  exists terminal,
    isTerminal terminal = true /\
    relayedEvents stream = map Delta (textFragments (events stream)) ++ [terminal] /\
    start stream newController =
      (inr tt,
       {| chunks :=
            map (fun text =>
                   TextEncoder_encode
                     (lit "data: " ++
                      JSON_stringify (VObject [(lit "type", VString (lit "delta"));
                                               (lit "text", VString text)])
                      ++ nl ++ nl))
                (textFragments (events stream))
            ++ [TextEncoder_encode
                  (lit "data: " ++ JSON_stringify (Views.eventValue terminal)
                   ++ nl ++ nl)];
          closeRequested := true; closeCalls := 1 |}).
Proof.
  intros Hp.
  assert (Hev : exists terminal,
            isTerminal terminal = true /\
            relayedEvents stream
            = map Delta (textFragments (events stream)) ++ [terminal]).
  { unfold relayedEvents.
    destruct Hp as [(pre & Hev & Hno & Hend)|(Hno & e & Hend)].
    - rewrite Hev, (relayedFrom_before_stop stream pre [message_stop] Hno),
        textFragments_before_stop.
      simpl. rewrite Hend.
      destruct (finalMessage stream) as [e|m]; [now eexists|].
      destruct (usageOf m) as [e|usage]; now eexists.
    - pose proof (relayedFrom_before_stop stream (events stream) [] Hno) as E.
      rewrite app_nil_r in E. rewrite E.
      simpl. rewrite Hend. now eexists. }
  destruct Hev as (terminal & Ht & Hev).
  exists terminal. split; [exact Ht|]. split; [exact Hev|].
  rewrite start_frames, Hev, map_app, map_map. reflexivity.
Qed.

(** C2.  For every stream that ends in a [done] event, the chunks the relay
    enqueues are the frames of the relayed events, each frame the encoded
    text of [data: ], the JSON text of the event's object and a blank line;
    the [text] fields of the [delta] events, in emission order, are the text
    fragments of the upstream, one per fragment and in the same order, so
    that their concatenation is the assistant's reply.  When the [done]
    event is the only terminal one, the chunks are one [delta] frame per
    fragment, carrying that fragment's text, and the [done] frame. *)
Theorem relay_deltas_rebuild_reply {engine : Engine} (stream : MessageStream)
    (pre : list StreamEvent) (usage : value) :
  relayedEvents stream = pre ++ [Done usage] ->
  chunks (snd (start stream newController))
  = map (fun e => TextEncoder_encode
                    (lit "data: " ++ JSON_stringify (Views.eventValue e)
                     ++ nl ++ nl))
        (pre ++ [Done usage]) /\
  deltaTexts pre = textFragments (events stream) /\
  List.concat (deltaTexts pre) = replyText stream /\
  (existsb isTerminal pre = false ->
   chunks (snd (start stream newController))
   = map (fun text =>
            TextEncoder_encode
              (lit "data: " ++
               JSON_stringify (VObject [(lit "type", VString (lit "delta"));
                                        (lit "text", VString text)])
               ++ nl ++ nl))
         (textFragments (events stream))
     ++ [TextEncoder_encode
           (lit "data: " ++
            JSON_stringify (VObject [(lit "type", VString (lit "done"));
                                     (lit "usage", usage)])
            ++ nl ++ nl)]).
Proof.
  intros Hdone.
  assert (H : deltaTexts pre = textFragments (events stream)).
  { destruct (relayedFrom_texts stream (events stream)) as [(p & m & E)|E].
    - unfold relayedEvents in Hdone. rewrite E in Hdone.
      apply app_inj_tail in Hdone. destruct Hdone as [_ Hd]. discriminate Hd.
    - fold (relayedEvents stream) in E. rewrite Hdone, deltaTexts_app in E.
      simpl in E. now rewrite app_nil_r in E. }
  assert (Hc : chunks (snd (start stream newController))
               = map (fun e => TextEncoder_encode
                                 (lit "data: " ++ JSON_stringify (Views.eventValue e)
                                  ++ nl ++ nl))
                     (pre ++ [Done usage])).
  { now rewrite start_frames, Hdone. }
  split; [exact Hc|]. split; [exact H|]. split.
  - unfold replyText. now rewrite H.
  - intros Hno. rewrite Hc, (deltas_only pre Hno), H, map_app, map_map.
    reflexivity.
Qed.

(** C5.  On every exit path of the loop of [start] (it runs to the end of
    the upstream, the upstream raises at some point, or [finalMessage] or
    the reading of its [usage] raises inside the loop) the outbound stream
    is closed and [close] is called exactly once.  When the loop raises,
    one frame is enqueued behind what had been sent: the encoded text of
    [data: ], the JSON text of the object with [type] "error" and, as
    [error], the message of what was raised, and a blank line; it is the
    only [error] and the last frame.  The closing does not depend on what
    the loop does: whatever runs in the [try] block and however it leaves
    it, as long as it does not close the controller itself, the stream ends
    closed, by one call of [close], with that one [error] frame behind the
    chunks of the block when the block raises and nothing else when it
    does not. *)
Theorem start_closes_once {engine : Engine} (stream : MessageStream) :
  start stream newController =
    (inr tt,
     {| chunks :=
          map (fun e => TextEncoder_encode
                          (lit "data: " ++ JSON_stringify (Views.eventValue e)
                           ++ nl ++ nl))
              (relayedEvents stream);
        closeRequested := true; closeCalls := 1 |}) /\
  (forall e c1,
     forAwait stream (events stream) newController = (inl e, c1) ->
     exists sent,
       relayedEvents stream = sent ++ [Error (errorMessage e)] /\
       existsb isError sent = false /\
       chunks c1
       = map (fun e => TextEncoder_encode
                         (lit "data: " ++ JSON_stringify (Views.eventValue e)
                          ++ nl ++ nl))
             sent) /\
  (forall body : M unit,
     (forall c0, closeRequested c0 = false ->
                 closeRequested (snd (body c0)) = false /\
                 closeCalls (snd (body c0)) = closeCalls c0) ->
     try_catch_finally body
       (fun error => enqueue (frame (errorData (errorMessage error)))) close
       newController
     = (inr tt,
        {| chunks :=
             match fst (body newController) with
             | inl e =>
                 chunks (snd (body newController)) ++
                 [TextEncoder_encode
                    (lit "data: " ++
                     JSON_stringify
                       (VObject [(lit "type", VString (lit "error"));
                                 (lit "error", VString (errorMessage e))])
                     ++ nl ++ nl)]
             | inr _ => chunks (snd (body newController))
             end;
           closeRequested := true; closeCalls := 1 |})).
Proof.
  split; [apply start_frames|]. split.
  - intros e c1 Hrun.
    pose proof (forAwait_spec stream (events stream) newController eq_refl) as H.
    rewrite Hrun in H. destruct H as (_ & _ & sent & Hsent & Hno & Hch).
    exists sent. repeat split; try assumption.
    now rewrite Hch, map_wire_eventValue.
  - intros body Hbody. unfold try_catch_finally.
    destruct (Hbody newController eq_refl) as [Hopen Hcalls].
    destruct (body newController) as [[e|[]] c1]; simpl in Hopen, Hcalls.
    + rewrite (enqueue_open _ c1 Hopen). unfold close. simpl.
      rewrite Hcalls. reflexivity.
    + unfold close. rewrite Hopen, Hcalls. reflexivity.
Qed.

(** C4.  For every POST /api/chat request whose body is not valid JSON or
    fails validation, the response has status 400 and a body with an error
    string, and no call is made to the upstream API. *)
Theorem invalid_request_is_refused {engine : Engine} (client : Anthropic)
    (exists_ : jsstring -> bool) (req : Request) :
  pathname req = lit "/api/chat" ->
  method req = lit "POST" ->
  ((exists message, JSON_parse (bodyText req) = inl message) \/
   (exists body error, JSON_parse (bodyText req) = inr body /\
                       validateRequest body = Invalid error)) ->
  exists error,
    fetch client exists_ req =
      ({| status := 400;
          headers := [(lit "Content-Type", lit "application/json")];
          body := BodyText (JSON_stringify (VObject [(lit "error", VString error)])) |},
       []).
Proof.
  intros Hpath Hmethod Hbad. unfold fetch. rewrite Hpath, Hmethod. simpl.
  unfold handleChat.
  destruct Hbad as [[message ->]|(body & error & -> & ->)].
  - now exists (lit "Invalid JSON").
  - now exists error.
Qed.

(** C10.  For every chat request that passes validation, one call is made to
    the upstream API, and it is made with [max_tokens] 8192, whatever the
    request holds. *)
Theorem upstream_call_max_tokens {engine : Engine} (client : Anthropic)
    (req : Request) (body : value) (data : ChatRequest) :
  JSON_parse (bodyText req) = inr body ->
  validateRequest body = Valid data ->
  exists params,
    snd (handleChat client req) = [params] /\
    max_tokens params = 8192%N /\
    p_model params = model data /\
    status (fst (handleChat client req)) = 200%N.
Proof.
  intros Hparse Hvalid. unfold handleChat. rewrite Hparse, Hvalid.
  destruct (start _ newController) as [outcome controller].
  eexists. simpl. repeat split.
Qed.

(** The relay on an upstream stream that yields "Hel", "lo" and completes:
    the chunks, as text. *)
Lemma relay_one_terminal_under_protocol_witness :
  followsProtocol Examples.completeStream /\
  start (engine := Reference.engine) Examples.completeStream newController =
    (inr tt, {| chunks := Examples.completeChunks;
                closeRequested := true; closeCalls := 1 |}).
Proof.
  assert (H : followsProtocol Examples.completeStream).
  { left. exists (removelast (events Examples.completeStream)).
    split; [reflexivity|]. split; reflexivity. }
  split; [exact H|].
  destruct (relay_one_terminal_under_protocol (engine := Reference.engine) _ H)
    as (terminal & _ & Hev & Hstart).
  rewrite Hstart.
  assert (Ht : terminal = Done Examples.usage).
  { vm_compute in Hev. injection Hev as Hev. symmetry. exact Hev. }
  rewrite Ht. vm_compute. reflexivity.
Defined.

(** C1, as stated, fails: when the upstream ends without [message_stop] and
    without raising, the relay sends the deltas, closes the stream, and no
    terminal event has been sent. *)
Lemma truncated_upstream_no_terminal :
  start (engine := Reference.engine) Examples.truncatedStream newController =
    (inr tt, {| chunks := [Examples.deltaFrame (lit "Hi")];
                closeRequested := true; closeCalls := 1 |}) /\
  ~ (exists texts terminal,
       relayedEvents (engine := Reference.engine) Examples.truncatedStream
       = map Delta texts ++ [terminal] /\
       isTerminal terminal = true).
Proof.
  split; [vm_compute; reflexivity|].
  intros (texts & terminal & E & Ht).
  change (relayedEvents (engine := Reference.engine) Examples.truncatedStream)
    with [Delta (lit "Hi")] in E.
  destruct texts as [|a [|b texts]]; simpl in E.
  - injection E as <-. discriminate Ht.
  - discriminate E.
  - discriminate E.
Qed.

(** The chunks relayed for that stream, as text: one [delta] frame for
    "Hel", one for "lo", and the [done] frame. *)
Lemma relay_deltas_rebuild_reply_witness :
  chunks (snd (start (engine := Reference.engine) Examples.completeStream
                 newController))
  = [Examples.deltaFrame (lit "Hel"); Examples.deltaFrame (lit "lo");
     Examples.doneFrame] /\
  List.concat [lit "Hel"; lit "lo"] = replyText Examples.completeStream.
Proof.
  assert (H : relayedEvents (engine := Reference.engine) Examples.completeStream =
              [Delta (lit "Hel"); Delta (lit "lo")] ++ [Done Examples.usage])
    by reflexivity.
  destruct (relay_deltas_rebuild_reply (engine := Reference.engine) _ _ _ H)
    as (_ & _ & Hreply & Hchunks).
  split; [|exact Hreply].
  rewrite (Hchunks eq_refl). vm_compute. reflexivity.
Defined.

(** The relay on an upstream stream that fails after two text deltas: the
    two [delta] frames and one [error] frame, as text, and one call of
    [close]; and on a stream whose final message is [null], where reading
    its [usage] raises inside the loop. *)
Lemma start_closes_once_witness :
  start (engine := Reference.engine) Examples.failingStream newController
  = (inr tt, {| chunks := Examples.failingChunks;
                closeRequested := true; closeCalls := 1 |}) /\
  start (engine := Reference.engine) Examples.nullFinalStream newController
  = (inr tt, {| chunks := Examples.nullFinalChunks;
                closeRequested := true; closeCalls := 1 |}) /\
  exists sent c1,
    forAwait (engine := Reference.engine) Examples.failingStream
      (events Examples.failingStream) newController
    = (inl (ThrownError (lit "Connection error.")), c1) /\
    relayedEvents (engine := Reference.engine) Examples.failingStream
    = sent ++ [Error (lit "Connection error.")] /\
    existsb isError sent = false /\
    chunks c1 = [Examples.deltaFrame (lit "Hel"); Examples.deltaFrame (lit "lo")].
Proof.
  destruct (start_closes_once (engine := Reference.engine) Examples.failingStream)
    as (Hstart & Hraise & _).
  split; [rewrite Hstart; vm_compute; reflexivity|].
  split.
  { rewrite (proj1 (start_closes_once (engine := Reference.engine)
                      Examples.nullFinalStream)).
    vm_compute. reflexivity. }
  destruct (forAwait (engine := Reference.engine) Examples.failingStream
              (events Examples.failingStream) newController) as [r c1] eqn:E.
  assert (Hr : r = inl (ThrownError (lit "Connection error."))).
  { vm_compute in E. injection E as Hr _. rewrite <- Hr. reflexivity. }
  subst r. destruct (Hraise _ _ eq_refl) as (sent & H1 & H2 & H3).
  exists sent, c1. repeat split; try assumption.
  rewrite H3.
  assert (Hs : sent = [Delta (lit "Hel"); Delta (lit "lo")]).
  { vm_compute in H1.
    destruct sent as [|a [|b [|c sent]]]; try discriminate H1.
    - injection H1 as <- <-. reflexivity.
    - injection H1 as _ _ _ H1. destruct sent; discriminate H1. }
  rewrite Hs. vm_compute. reflexivity.
Defined.

(** A request whose body is not JSON. *)
Lemma invalid_request_is_refused_witness :
  exists error,
    fetch (engine := Reference.engine) Examples.client (fun _ => false)
      (Examples.chatRequest (lit "{not json"))
    = ({| status := 400;
          headers := [(lit "Content-Type", lit "application/json")];
          body := BodyText (Reference.stringify
                            (VObject [(lit "error", VString error)])) |},
       []).
Proof.
  apply (invalid_request_is_refused (engine := Reference.engine));
    [reflexivity | reflexivity |].
  left. eexists. vm_compute. reflexivity.
Defined.

(** The request of the repository's streaming test. *)
Lemma upstream_call_max_tokens_witness :
  exists params,
    snd (handleChat (engine := Reference.engine) Examples.client
           (Examples.chatRequest (Reference.stringify Examples.testBody)))
    = [params] /\
    max_tokens params = 8192%N /\
    p_model params = VString (lit "claude-haiku-3-5-20241022") /\
    status (fst (handleChat (engine := Reference.engine) Examples.client
                   (Examples.chatRequest (Reference.stringify Examples.testBody))))
    = 200%N.
Proof.
  apply (upstream_call_max_tokens (engine := Reference.engine) Examples.client
           (Examples.chatRequest (Reference.stringify Examples.testBody))
           Examples.testBody
           {| model := get Examples.testBody (lit "model");
              system := get Examples.testBody (lit "system");
              messages := [VObject [(lit "role", VString (lit "user"));
                                    (lit "content", VString (lit "Test"))]] |}).
  - vm_compute. reflexivity.
  - vm_compute. reflexivity.
Defined.

End RelaySpec.

(** ** Lines of a text *)

Module LineFacts.
Import JS JSFacts Client.

Lemma split_nl_cons (c : N) (s : jsstring) :
  split (c :: s) nl =
    if N.eqb 10 c then [] :: split s nl
    else match split s nl with
         | p :: ps => (c :: p) :: ps
         | [] => [[c]]
         end.
Proof.
  unfold split, nl. cbn [split_from startsWith List.length Nat.sub].
  rewrite andb_true_r. now destruct (N.eqb 10 c).
Qed.

Lemma split_nl_nonempty (s : jsstring) : split s nl <> [].
Proof.
  destruct s as [|c s]; [discriminate|].
  rewrite split_nl_cons. destruct (N.eqb 10 c); [discriminate|].
  destruct (split s nl); discriminate.
Qed.

Lemma removelast_cons {A} (x : A) (l : list A) :
  l <> [] -> removelast (x :: l) = x :: removelast l.
Proof. destruct l; [contradiction|reflexivity]. Qed.

Lemma last_cons {A} (x d : A) (l : list A) :
  l <> [] -> last (x :: l) d = last l d.
Proof. destruct l; [contradiction|reflexivity]. Qed.

Lemma last_app_nonempty {A} (l l' : list A) (d : A) :
  l' <> [] -> last (l ++ l') d = last l' d.
Proof.
  intros H. induction l as [|x l IH]; [reflexivity|].
  rewrite <- app_comm_cons, last_cons; [exact IH|].
  destruct l; [assumption|discriminate].
Qed.

(** Splitting a text that comes in two parts: the complete lines of the
    first part, then the lines of what was left of it followed by the
    second part. *)
Lemma split_nl_app (a b : jsstring) :
  split (a ++ b) nl =
    removelast (split a nl) ++ split (last (split a nl) [] ++ b) nl.
Proof.
  induction a as [|c a IH]; [reflexivity|].
  rewrite <- app_comm_cons, !split_nl_cons.
  destruct (N.eqb 10 c) eqn:Hc.
  - rewrite removelast_cons, last_cons by apply split_nl_nonempty.
    simpl. now rewrite IH.
  - rewrite IH. pose proof (split_nl_nonempty a) as Hne.
    destruct (split a nl) as [|p [|q qs]]; [contradiction| |].
    + simpl. rewrite split_nl_cons, Hc. reflexivity.
    + reflexivity.
Qed.

Lemma completeLines_app (a b : jsstring) :
  completeLines (a ++ b) = completeLines a ++ completeLines (partialLine a ++ b).
Proof.
  unfold completeLines, partialLine. rewrite split_nl_app.
  apply removelast_app, split_nl_nonempty.
Qed.

Lemma partialLine_app (a b : jsstring) :
  partialLine (a ++ b) = partialLine (partialLine a ++ b).
Proof.
  unfold partialLine. rewrite split_nl_app.
  apply last_app_nonempty, split_nl_nonempty.
Qed.

(** A text is its complete lines, each with its line feed, followed by its
    partial line. *)
Lemma lines_rebuild (text : jsstring) :
  List.concat (map (fun line => line ++ nl) (completeLines text)) ++ partialLine text
  = text.
Proof.
  unfold completeLines, partialLine.
  induction text as [|c text IH]; [reflexivity|].
  rewrite split_nl_cons. pose proof (split_nl_nonempty text) as Hne.
  destruct (N.eqb 10 c) eqn:Hc.
  - apply N.eqb_eq in Hc. subst c.
    rewrite removelast_cons, last_cons by assumption.
    simpl. now rewrite IH.
  - destruct (split text nl) as [|p [|q qs]]; [contradiction| |].
    + simpl in *. now rewrite IH.
    + change (removelast ((c :: p) :: q :: qs)) with ((c :: p) :: removelast (q :: qs)).
      change (removelast (p :: q :: qs)) with (p :: removelast (q :: qs)) in IH.
      change (last ((c :: p) :: q :: qs) []) with (last (q :: qs) (@nil N)).
      change (last (p :: q :: qs) []) with (last (q :: qs) (@nil N)) in IH.
      simpl in *. now rewrite IH.
Qed.

(** No line of a text holds a line feed. *)
Lemma lines_without_nl (text : jsstring) :
  Forall (fun line => ~ In 10%N line) (split text nl).
Proof.
  induction text as [|c text IH]; [repeat constructor; auto|].
  rewrite split_nl_cons. destruct (N.eqb 10 c) eqn:Hc.
  - constructor; [auto | assumption].
  - apply N.eqb_neq in Hc.
    destruct (split text nl) as [|p ps]; [repeat constructor; simpl; intuition|].
    inversion IH as [|? ? Hp Hps]; subst. constructor; [|assumption].
    simpl. intuition.
Qed.

Lemma split_without_nl (s : jsstring) :
  ~ In 10%N s -> split s nl = [s].
Proof.
  induction s as [|c s IH]; [reflexivity|].
  intros Hn. rewrite split_nl_cons.
  destruct (N.eqb 10 c) eqn:Hc.
  - apply N.eqb_eq in Hc. subst. exfalso. apply Hn. now left.
  - rewrite IH; [reflexivity|]. intros Hin. apply Hn. now right.
Qed.

Lemma partialLine_without_nl (text : jsstring) : ~ In 10%N (partialLine text).
Proof.
  unfold partialLine. pose proof (lines_without_nl text) as H.
  pose proof (split_nl_nonempty text) as Hne.
  induction (split text nl) as [|p ps IH]; [contradiction|].
  inversion H; subst. destruct ps; [assumption|].
  apply IH; [assumption|discriminate].
Qed.

Lemma completeLines_partial (s : jsstring) :
  ~ In 10%N s -> completeLines s = [] /\ partialLine s = s.
Proof.
  intros H. unfold completeLines, partialLine. now rewrite (split_without_nl s H).
Qed.

End LineFacts.

(** ** The client's read loop *)

Module ConsumerFacts.
Import JS JSFacts Client LineFacts.

Lemma withBuffer_withBuffer (a b : jsstring) (st : Stream) :
  withBuffer a (withBuffer b st) = withBuffer a st.
Proof. reflexivity. Qed.

Lemma withBuffer_same (st : Stream) : withBuffer (buffer st) st = st.
Proof. now destruct st. Qed.

Section WithEngine.
Context {engine : Engine}.

(** The per-line handler neither reads nor writes the buffer. *)
Lemma dispatch_withBuffer (b : jsstring) (st : Stream) (data : value) :
  dispatch (withBuffer b st) data = mapBuffer b (dispatch st data).
Proof.
  unfold dispatch.
  destruct data; try reflexivity;
    case_conditions; reflexivity.
Qed.

Lemma handleLine_withBuffer (b : jsstring) (st : Stream) (line : jsstring) :
  handleLine (withBuffer b st) line = mapBuffer b (handleLine st line).
Proof.
  unfold handleLine.
  destruct (negb (startsWith line (lit "data: "))); [reflexivity|].
  destruct (JSON_parse (slice line 6)) as [message|data].
  - cbv beta iota. destruct (isOurError (ThrownError message)); reflexivity.
  - rewrite dispatch_withBuffer.
    destruct (dispatch st data) as [st'|e st']; cbn [mapBuffer]; [reflexivity|].
    destruct (isOurError e); reflexivity.
Qed.

Lemma forLines_withBuffer (b : jsstring) (lines : list jsstring) :
  forall st, forLines (withBuffer b st) lines = mapBuffer b (forLines st lines).
Proof.
  induction lines as [|line rest IH]; intros st; simpl; [reflexivity|].
  rewrite handleLine_withBuffer.
  destruct (handleLine st line) as [st'|e st']; simpl; [apply IH|reflexivity].
Qed.

Lemma forLines_app (l1 l2 : list jsstring) :
  forall st, forLines st (l1 ++ l2) =
             match forLines st l1 with
             | Normal st' => forLines st' l2
             | Throw e st' => Throw e st'
             end.
Proof.
  induction l1 as [|line rest IH]; intros st; simpl; [reflexivity|].
  destruct (handleLine st line) as [st'|e st']; [apply IH|reflexivity].
Qed.

Lemma handleLine_data (st : Stream) (line : jsstring) (data : value) :
  startsWith line (lit "data: ") = true ->
  JSON_parse (slice line 6) = inr data ->
  handleLine st line =
    match dispatch st data with
    | Normal st' => Normal st'
    | Throw e st' => if isOurError e then Throw e st' else Normal st'
    end.
Proof.
  intros Hstart Hparse. unfold handleLine. now rewrite Hstart, Hparse.
Qed.

Lemma handleLine_other (st : Stream) (line : jsstring) :
  startsWith line (lit "data: ") = false -> handleLine st line = Normal st.
Proof.
  intros Hstart. unfold handleLine. now rewrite Hstart.
Qed.

(** One read hands the complete lines of the buffered text to the handler
    and keeps the partial line. *)
Lemma onRead_lines (st : Stream) (chunk : jsstring) :
  onRead st chunk =
    mapBuffer (partialLine (buffer st ++ chunk))
      (forLines st (completeLines (buffer st ++ chunk))).
Proof.
  unfold onRead. now rewrite forLines_withBuffer.
Qed.

(** The read loop hands to the handler the complete lines of the whole
    text, whatever the cut of the reads, and keeps the partial line. *)
Lemma readLoop_lines (reads : list jsstring) (ending : ReadEnding) :
  forall st, ~ In 10%N (buffer st) ->
  match forLines st (completeLines (buffer st ++ List.concat reads)) with
  | Normal st' =>
      readLoop st reads ending =
        finish ending (withBuffer (partialLine (buffer st ++ List.concat reads)) st')
  | Throw e st' => exists b, readLoop st reads ending = Throw e (withBuffer b st')
  end.
Proof.
  induction reads as [|chunk rest IH]; intros st Hb.
  - simpl. rewrite app_nil_r.
    destruct (completeLines_partial (buffer st) Hb) as [-> ->].
    simpl. now rewrite withBuffer_same.
  - cbn [List.concat readLoop]. rewrite app_assoc, onRead_lines.
    set (a := buffer st ++ chunk).
    rewrite (completeLines_app a (List.concat rest)),
            (partialLine_app a (List.concat rest)), forLines_app.
    destruct (forLines st (completeLines a)) as [s1|e s1]; simpl.
    + specialize (IH (withBuffer (partialLine a) s1) (partialLine_without_nl a)).
      cbn [buffer withBuffer] in IH. rewrite forLines_withBuffer in IH.
      destruct (forLines s1 (completeLines (partialLine a ++ List.concat rest)))
        as [s2|e s2]; simpl in IH.
      * exact IH.
      * destruct IH as [b IH]. exists b. exact IH.
    + now exists (partialLine a).
Qed.

End WithEngine.

End ConsumerFacts.

Module ConsumerSpec.
Import JS JSFacts Client LineFacts ConsumerFacts.

(** C6.  For every sequence of reads, whatever their cut: the lines handed
    to the per-line handler are the complete lines of the text read so far
    (those a line feed ends), in order, and the partial line behind the last
    line feed is what the buffer keeps for the next read.  In particular the
    frame of a delta "hello" that arrives cut in two reads is kept in the
    buffer by the first read and parsed once, whole, by the second. *)
Theorem reads_are_reassembled {engine : Engine} :
  (forall (reads : list jsstring) (ending : ReadEnding) (st : Stream),
     ~ In 10%N (buffer st) ->
     (List.concat (map (fun line => line ++ nl)
                     (completeLines (buffer st ++ List.concat reads)))
        ++ partialLine (buffer st ++ List.concat reads)
      = buffer st ++ List.concat reads /\
      ~ In 10%N (partialLine (buffer st ++ List.concat reads))) /\
     match forLines st (completeLines (buffer st ++ List.concat reads)) with
     | Normal st' =>
         readLoop st reads ending =
           finish ending
             (withBuffer (partialLine (buffer st ++ List.concat reads)) st')
     | Throw e st' => exists b, readLoop st reads ending = Throw e (withBuffer b st')
     end)
  /\
  (JSON_parse Examples.helloData = inr Examples.helloEvent ->
   onRead initialStream Examples.helloFirstRead
     = Normal (withBuffer Examples.helloFirstRead initialStream) /\
   completeLines (Examples.helloFirstRead ++ Examples.helloSecondRead)
     = [lit "data: " ++ Examples.helloData; []] /\
   readLoop initialStream [Examples.helloFirstRead; Examples.helloSecondRead] ReadDone
     = Normal {| fullContent := lit "hello";
                 buffer := [];
                 assistantDiv := setInnerHTML (assistantDiv initialStream)
                                   (lit "<p>hello</p>") |}).
Proof.
  split.
  - intros reads ending st Hb. split; [split|].
    + apply lines_rebuild.
    + apply partialLine_without_nl.
    + now apply readLoop_lines.
  - intros Hparse.
    assert (Hlines :
      completeLines (Examples.helloFirstRead ++ Examples.helloSecondRead)
      = [lit "data: " ++ Examples.helloData; []]) by (vm_compute; reflexivity).
    split; [|split; [exact Hlines|]].
    + rewrite onRead_lines.
      replace (completeLines (buffer initialStream ++ Examples.helloFirstRead))
        with (@nil jsstring) by (vm_compute; reflexivity).
      replace (partialLine (buffer initialStream ++ Examples.helloFirstRead))
        with Examples.helloFirstRead by (vm_compute; reflexivity).
      reflexivity.
    + pose proof (readLoop_lines
                    [Examples.helloFirstRead; Examples.helloSecondRead]
                    ReadDone initialStream (fun H => H)) as L.
      replace (buffer initialStream ++
               List.concat [Examples.helloFirstRead; Examples.helloSecondRead])
        with (Examples.helloFirstRead ++ Examples.helloSecondRead) in L
        by (vm_compute; reflexivity).
      rewrite Hlines in L.
      replace (partialLine (Examples.helloFirstRead ++ Examples.helloSecondRead))
        with (@nil N) in L by (vm_compute; reflexivity).
      cbn [forLines] in L.
      rewrite (handleLine_data initialStream (lit "data: " ++ Examples.helloData)
                 Examples.helloEvent eq_refl Hparse) in L.
      change (dispatch initialStream Examples.helloEvent)
        with (Normal {| fullContent := lit "hello";
                        buffer := [];
                        assistantDiv := setInnerHTML (assistantDiv initialStream)
                                          (lit "<p>hello</p>") |}) in L.
      cbv beta iota in L.
      rewrite handleLine_other in L by reflexivity.
      exact L.
Qed.

(** The split frame on the reference engine. *)
Lemma reads_are_reassembled_witness :
  readLoop (engine := Reference.engine) initialStream
    [Examples.helloFirstRead; Examples.helloSecondRead] ReadDone
  = Normal {| fullContent := lit "hello";
              buffer := [];
              assistantDiv := setInnerHTML (assistantDiv initialStream)
                                (lit "<p>hello</p>") |}.
Proof.
  destruct (reads_are_reassembled (engine := Reference.engine)) as [_ H].
  destruct H as (_ & _ & H); [vm_compute; reflexivity|].
  exact H.
Defined.

End ConsumerSpec.

(** ** Rendering *)

Module RenderFacts.
Import JS JSFacts Client Spec.

(** The tags and character references hold neither a backtick nor a line
    feed, and start with [<] or [&]. *)
Lemma token_facts (t : jsstring) :
  In t (rendererTags ++ escapeEntities) ->
  Forall (fun c => c <> 96%N /\ c <> 10%N) t /\
  exists c r, t = c :: r /\ isWordChar c = false /\ c <> 96%N /\ c <> 10%N.
Proof.
  intros H. simpl in H.
  repeat (destruct H as [<-|H];
          [split; [repeat constructor; discriminate
                  | eexists; eexists; repeat split; discriminate]|]).
  contradiction.
Qed.

Lemma Escaped_app (a b : jsstring) : Escaped a -> Escaped b -> Escaped (a ++ b).
Proof.
  intros Ha Hb. induction Ha as [|c s Hc Hs IH|t s Ht Hs IH]; simpl.
  - exact Hb.
  - now constructor.
  - rewrite <- app_assoc. now constructor.
Qed.

Lemma Escaped_token (t : jsstring) :
  In t (rendererTags ++ escapeEntities) -> Escaped t.
Proof.
  intros H. rewrite <- (app_nil_r t). constructor; [assumption|constructor].
Qed.

(** A backtick or a line feed is never inside a tag or a character
    reference: the text before it and the text after it are escaped texts
    of their own. *)
Lemma Escaped_cut (s : jsstring) :
  Escaped s ->
  forall a c b, s = a ++ c :: b -> boundary c -> Escaped a /\ Escaped b.
Proof.
  induction 1 as [|c0 s Hc Hs IH|t s Ht Hs IH]; intros a c b E Hb.
  - destruct a; discriminate E.
  - destruct a as [|a0 a]; simpl in E; injection E as -> ->.
    + split; [constructor|assumption].
    + destruct (IH a c b eq_refl Hb) as [Ha Hbb].
      split; [now constructor|assumption].
  - apply app_eq_app in E. destruct E as [l [[Et Es]|[Ea Es]]].
    + destruct l as [|x l].
      * rewrite app_nil_r in Et. subst a. simpl in Es.
        destruct (IH [] c b (eq_sym Es) Hb) as [_ Hbb].
        split; [now apply Escaped_token|assumption].
      * simpl in Es. injection Es as -> _.
        destruct (token_facts t Ht) as [Hall _]. subst t.
        apply Forall_app in Hall. destruct Hall as [_ Hall].
        inversion Hall as [|? ? [H96 H10] _]; subst.
        destruct Hb; contradiction.
    + subst a. destruct (IH l c b Es Hb) as [Hl Hbb].
      split; [now constructor|assumption].
Qed.

Lemma Escaped_tail (c : N) (s : jsstring) :
  boundary c -> Escaped (c :: s) -> Escaped s.
Proof.
  intros Hb H. now destruct (Escaped_cut (c :: s) H [] c s eq_refl Hb).
Qed.

(** Escaping leaves no markup character of the raw text. *)
Lemma Escaped_escapeHtml (text : jsstring) : Escaped (escapeHtml text).
Proof.
  induction text as [|c text IH]; [constructor|].
  unfold escapeHtml in *. cbn [flat_map]. unfold escapeChar at 1.
  destruct (N.eqb c 38) eqn:H38; [constructor; [simpl; tauto|assumption]|].
  destruct (N.eqb c 60) eqn:H60; [constructor; [simpl; tauto|assumption]|].
  destruct (N.eqb c 62) eqn:H62; [constructor; [simpl; tauto|assumption]|].
  destruct (N.eqb c 160) eqn:H160; [constructor; [simpl; tauto|assumption]|].
  apply N.eqb_neq in H38, H60, H62.
  simpl. constructor; [repeat split|]; assumption.
Qed.

(** Closes a goal whose hypothesis [H] finds [<] or [>] in an entity or in
    the text behind it, which holds neither. *)
Ltac not_in_entity H :=
  apply in_app_or in H; destruct H as [H|H]; auto;
  simpl in H; repeat (destruct H as [H|H]; [discriminate H|]); exact H.

Lemma escapeHtml_no_angle (text : jsstring) :
  ~ In 60%N (escapeHtml text) /\ ~ In 62%N (escapeHtml text).
Proof.
  induction text as [|c text [IH1 IH2]]; [simpl; tauto|].
  unfold escapeHtml in *. cbn [flat_map]. unfold escapeChar at 1 3.
  destruct (N.eqb c 38) eqn:H38; [split; intros H; not_in_entity H|].
  destruct (N.eqb c 60) eqn:H60; [split; intros H; not_in_entity H|].
  destruct (N.eqb c 62) eqn:H62; [split; intros H; not_in_entity H|].
  apply N.eqb_neq in H60, H62.
  destruct (N.eqb c 160) eqn:H160; [split; intros H; not_in_entity H|].
  split; intros H; apply in_app_or in H; destruct H as [H|H]; auto;
    simpl in H; destruct H as [H|[]]; congruence.
Qed.

Section Replace.
Variable matchAt : jsstring -> option (jsstring * nat).

Lemma replace_from_skip (a b : jsstring) :
  replace_from matchAt (List.length a) (a ++ b) = replace_from matchAt 0 b.
Proof. induction a as [|c a IH]; [reflexivity|exact IH]. Qed.

(** The expression matches only at a backtick. *)
Hypothesis matchAt_backtick :
  forall c s x, matchAt (c :: s) = Some x -> c = 96%N.

Lemma replace_from_token (t s : jsstring) :
  Forall (fun c => c <> 96%N /\ c <> 10%N) t ->
  replace_from matchAt 0 (t ++ s) = t ++ replace_from matchAt 0 s.
Proof.
  induction 1 as [|c t [Hc _] Ht IH]; [reflexivity|].
  simpl. destruct (matchAt (c :: t ++ s)) as [x|] eqn:E.
  - apply matchAt_backtick in E. contradiction.
  - now rewrite IH.
Qed.

(** What the expression matches in an escaped text lies between backticks
    and line feeds, so that the replacement and the text behind the match
    are escaped texts. *)
Hypothesis matchAt_sound :
  forall s r n, Escaped s -> matchAt s = Some (r, n) ->
  exists pre rest, s = pre ++ rest /\ List.length pre = n /\ 1 <= n /\
                   Escaped r /\ Escaped rest.

Lemma replaceAll_Escaped (s : jsstring) :
  Escaped s -> Escaped (replaceAll matchAt s).
Proof.
  unfold replaceAll.
  remember (List.length s) as n eqn:Hn.
  revert s Hn. induction n as [n IHn] using lt_wf_ind. intros s Hn Hs.
  destruct Hs as [|c s Hc Hs|t s Ht Hs].
  - constructor.
  - simpl. destruct (matchAt (c :: s)) as [[r k]|] eqn:E.
    + destruct (matchAt_sound (c :: s) r k (escaped_char c s Hc Hs) E)
        as (pre & rest & Es & Hlen & Hk & Hr & Hrest).
      destruct pre as [|c' pre]; [simpl in Hlen; lia|].
      simpl in Es. injection Es as <- ->.
      simpl in Hlen. subst k. simpl. rewrite Nat.sub_0_r, replace_from_skip.
      apply Escaped_app; [assumption|].
      apply (IHn (List.length rest)); [|reflexivity|assumption].
      subst n. simpl. rewrite length_app. lia.
    + constructor; [assumption|].
      apply (IHn (List.length s)); [subst n; simpl; lia|reflexivity|assumption].
  - destruct (token_facts t Ht) as [Hall (c & r & Et & _)].
    rewrite (replace_from_token t s Hall). constructor; [assumption|].
    apply (IHn (List.length s)); [|reflexivity|assumption].
    subst n t. rewrite length_app. simpl. lia.
Qed.

End Replace.

Lemma startsWith_split (p s : jsstring) :
  startsWith s p = true -> s = p ++ skipn (List.length p) s.
Proof.
  revert s. induction p as [|x p IH]; intros s H; [reflexivity|].
  destruct s as [|y s]; [discriminate|]. simpl in H.
  apply andb_true_iff in H. destruct H as [Hxy Hp].
  apply N.eqb_eq in Hxy. subst y. simpl. f_equal. now apply IH.
Qed.

Lemma takeWhile_skipn (f : N -> bool) (s : jsstring) :
  s = takeWhile f s ++ skipn (List.length (takeWhile f s)) s.
Proof.
  induction s as [|c s IH]; [reflexivity|].
  simpl. destruct (f c); [simpl; now f_equal|reflexivity].
Qed.

Lemma indexOf_Some (p s : jsstring) (k : nat) :
  indexOf s p = Some k ->
  s = firstn k s ++ p ++ skipn (k + List.length p) s /\ List.length (firstn k s) = k.
Proof.
  revert k. induction s as [|c s IH]; intros k H.
  - simpl in H. destruct (startsWith [] p) eqn:Hp; [|discriminate].
    injection H as <-. split; [|reflexivity].
    cbn [firstn app Nat.add]. now apply startsWith_split.
  - cbn [indexOf] in H. destruct (startsWith (c :: s) p) eqn:Hp.
    + injection H as <-. split; [|reflexivity].
      cbn [firstn app Nat.add]. now apply startsWith_split.
    + destruct (indexOf s p) as [j|] eqn:Hj; [|discriminate].
      injection H as <-. destruct (IH j eq_refl) as [Hs Hl].
      split; [|simpl; now rewrite Hl].
      simpl. now f_equal.
Qed.

(** The language tag of a fence never runs into a tag or a character
    reference. *)
Lemma Escaped_dropWord (s : jsstring) :
  Escaped s -> Escaped (skipn (List.length (takeWhile isWordChar s)) s).
Proof.
  induction 1 as [|c s Hc Hs IH|t s Ht Hs IH].
  - constructor.
  - simpl. destruct (isWordChar c); [exact IH|now constructor].
  - destruct (token_facts t Ht) as [_ (c & r & -> & Hw & _)].
    simpl. rewrite Hw. simpl.
    change (c :: r ++ s) with ((c :: r) ++ s). now constructor.
Qed.

Lemma codeBlockAt_backtick (c : N) (s : jsstring) (x : jsstring * nat) :
  codeBlockAt (c :: s) = Some x -> c = 96%N.
Proof.
  unfold codeBlockAt, fence. intros H.
  destruct (startsWith (c :: s) (lit "```")) eqn:Hf; [|discriminate].
  change (lit "```") with [96%N; 96%N; 96%N] in Hf. cbn [startsWith] in Hf.
  apply andb_true_iff in Hf. destruct Hf as [Hc _].
  apply N.eqb_eq in Hc. now subst.
Qed.

Lemma inlineCodeAt_backtick (c : N) (s : jsstring) (x : jsstring * nat) :
  inlineCodeAt (c :: s) = Some x -> c = 96%N.
Proof.
  cbn [inlineCodeAt]. destruct (N.eqb c 96) eqn:Hc; [|discriminate].
  intros _. now apply N.eqb_eq.
Qed.

Lemma codeBlockAt_sound (s r : jsstring) (n : nat) :
  Escaped s -> codeBlockAt s = Some (r, n) ->
  exists pre rest, s = pre ++ rest /\ List.length pre = n /\ 1 <= n /\
                   Escaped r /\ Escaped rest.
Proof.
  intros Hs H. unfold codeBlockAt in H.
  destruct (startsWith s fence) eqn:Hf; [|discriminate].
  apply startsWith_split in Hf. change (List.length fence) with 3 in Hf.
  set (afterFence := skipn 3 s) in *.
  set (lang := takeWhile isWordChar afterFence) in *.
  set (afterLang := skipn (List.length lang) afterFence) in *.
  assert (Hlang : afterFence = lang ++ afterLang) by apply takeWhile_skipn.
  assert (HafterFence : Escaped afterFence).
  { rewrite Hf in Hs. unfold fence in Hs. simpl in Hs.
    repeat (apply Escaped_tail in Hs; [|now left]). exact Hs. }
  assert (HafterLang : Escaped afterLang) by now apply Escaped_dropWord.
  assert (Hlf : exists lfs lf rest,
            (match afterLang with
             | c :: r0 => if N.eqb c 10 then (1, r0) else (0, afterLang)
             | [] => (0, afterLang)
             end) = (lf, rest) /\
            afterLang = lfs ++ rest /\ List.length lfs = lf /\ Escaped rest).
  { destruct afterLang as [|c r0] eqn:E.
    - exists [], 0, []. repeat split. constructor.
    - destruct (N.eqb c 10) eqn:Hc.
      + apply N.eqb_eq in Hc. subst c. exists [10%N], 1, r0. repeat split.
        apply (Escaped_tail 10%N r0); [now right|assumption].
      + exists [], 0, (c :: r0). repeat split. assumption. }
  destruct Hlf as (lfs & lf & rest & Hmatch & HafterLangEq & Hlfs & Hrest).
  rewrite Hmatch in H.
  destruct (indexOf rest fence) as [k|] eqn:Hk; [|discriminate].
  injection H as <- <-.
  destruct (indexOf_Some fence rest k Hk) as [Hsplit Hlen].
  set (code := firstn k rest) in *.
  set (tail := skipn (k + List.length fence) rest) in *.
  assert (Hcode : Escaped code /\ Escaped tail).
  { rewrite Hsplit in Hrest. unfold fence in Hrest.
    change (lit "```" ++ tail) with (96%N :: 96%N :: 96%N :: tail) in Hrest.
    destruct (Escaped_cut _ Hrest code 96%N (96%N :: 96%N :: tail) eq_refl)
      as [Hc Ht]; [now left|].
    split; [assumption|].
    repeat (apply Escaped_tail in Ht; [|now left]). exact Ht. }
  destruct Hcode as [Hcode Htail].
  exists (fence ++ lang ++ lfs ++ code ++ fence), tail.
  split; [|split; [|split; [|split]]].
  - rewrite Hf at 1. rewrite Hlang, HafterLangEq, Hsplit.
    now rewrite <- !app_assoc.
  - rewrite !length_app, Hlfs, Hlen. change (List.length fence) with 3. lia.
  - lia.
  - apply (Escaped_app (lit "<pre><code>") (code ++ lit "</code></pre>"));
      [apply Escaped_token; simpl; tauto|].
    apply Escaped_app; [assumption|apply Escaped_token; simpl; tauto].
  - assumption.
Qed.

Lemma inlineCodeAt_sound (s r : jsstring) (n : nat) :
  Escaped s -> inlineCodeAt s = Some (r, n) ->
  exists pre rest, s = pre ++ rest /\ List.length pre = n /\ 1 <= n /\
                   Escaped r /\ Escaped rest.
Proof.
  intros Hs H. destruct s as [|c s]; [discriminate|]. cbn [inlineCodeAt] in H.
  destruct (N.eqb c 96) eqn:Hc; [|discriminate].
  apply N.eqb_eq in Hc. subst c.
  pose proof (takeWhile_skipn (fun c => negb (N.eqb c 96)) s) as Hsplit.
  set (code := takeWhile (fun c => negb (N.eqb c 96)) s) in *.
  destruct code as [|c0 code0] eqn:Ecode; [discriminate|].
  destruct (skipn (List.length (c0 :: code0)) s) as [|d tail] eqn:Etail;
    [discriminate|].
  destruct (N.eqb d 96) eqn:Hd; [|discriminate].
  apply N.eqb_eq in Hd. subst d. injection H as <- <-.
  apply Escaped_tail in Hs; [|now left].
  rewrite Hsplit in Hs.
  destruct (Escaped_cut _ Hs (c0 :: code0) 96%N tail eq_refl) as [Hcode Htail];
    [now left|].
  exists (96%N :: (c0 :: code0) ++ [96%N]), tail.
  split; [|split; [|split; [|split]]].
  - rewrite Hsplit at 1. simpl. now rewrite <- app_assoc.
  - simpl. rewrite length_app. simpl. lia.
  - lia.
  - apply (Escaped_app (lit "<code>") ((c0 :: code0) ++ lit "</code>"));
      [apply Escaped_token; simpl; tauto|].
    apply Escaped_app; [assumption|apply Escaped_token; simpl; tauto].
  - assumption.
Qed.

Lemma split_from_nonempty (sep : jsstring) (s : jsstring) :
  forall k, split_from sep k s <> [].
Proof.
  induction s as [|c s IH]; intros k; simpl; [discriminate|].
  destruct k; [|apply IH].
  destruct (startsWith (c :: s) sep); [discriminate|].
  destruct (split_from sep 0 s); discriminate.
Qed.

(** A paragraph break is never found inside a tag or a character
    reference. *)
Lemma split_token (t s : jsstring) :
  Forall (fun c => c <> 96%N /\ c <> 10%N) t ->
  exists p ps, split_from (nl ++ nl) 0 s = p :: ps /\
               split_from (nl ++ nl) 0 (t ++ s) = (t ++ p) :: ps.
Proof.
  induction 1 as [|c t [_ Hc] Ht IH].
  - destruct (split_from (nl ++ nl) 0 s) as [|p ps] eqn:E.
    + now apply split_from_nonempty in E.
    + now exists p, ps.
  - destruct IH as (p & ps & E1 & E2). exists p, ps. split; [assumption|].
    change ((c :: t) ++ s) with (c :: t ++ s). cbn [split_from].
    change (nl ++ nl) with [10%N; 10%N]. cbn [startsWith].
    destruct (N.eqb 10 c) eqn:E; [apply N.eqb_eq in E; congruence|].
    cbn [andb]. change [10%N; 10%N] with (nl ++ nl). now rewrite E2.
Qed.

Lemma split_Escaped (s : jsstring) :
  Escaped s -> Forall Escaped (split s (nl ++ nl)).
Proof.
  unfold split.
  remember (List.length s) as n eqn:Hn.
  revert s Hn. induction n as [n IHn] using lt_wf_ind. intros s Hn Hs.
  destruct Hs as [|c s Hc Hs|t s Ht Hs].
  - repeat constructor.
  - cbn [split_from].
    destruct (startsWith (c :: s) (nl ++ nl)) eqn:Hsw.
    + change (nl ++ nl) with [10%N; 10%N] in *. cbn [startsWith] in Hsw.
      destruct s as [|d s2]; [now rewrite andb_false_r in Hsw|].
      apply andb_true_iff in Hsw. destruct Hsw as [_ Hd].
      apply andb_true_iff in Hd. destruct Hd as [Hd _].
      apply N.eqb_eq in Hd. subst d.
      constructor; [constructor|]. cbn [List.length Nat.sub split_from].
      apply (IHn (List.length s2)); [subst n; simpl; lia|reflexivity|].
      apply (Escaped_tail 10%N s2); [now right|assumption].
    + assert (IH : Forall Escaped (split_from (nl ++ nl) 0 s))
        by (apply (IHn (List.length s)); [subst n; simpl; lia|reflexivity|assumption]).
      destruct (split_from (nl ++ nl) 0 s) as [|p ps].
      * constructor; [|constructor].
        apply escaped_char; [assumption|constructor].
      * inversion IH; subst. constructor; [|assumption].
        now apply escaped_char.
  - destruct (token_facts t Ht) as [Hall (c & r & Et & _)].
    destruct (split_token t s Hall) as (p & ps & E1 & E2). rewrite E2.
    assert (IH : Forall Escaped (split_from (nl ++ nl) 0 s)).
    { apply (IHn (List.length s)); [|reflexivity|assumption].
      subst n t. rewrite length_app. simpl. lia. }
    rewrite E1 in IH. inversion IH; subst.
    constructor; [|assumption]. now apply escaped_token.
Qed.

Lemma paragraph_Escaped (p : jsstring) : Escaped p -> Escaped (paragraph p).
Proof.
  intros Hp. unfold paragraph. destruct (trim p); [constructor|].
  apply (Escaped_app (lit "<p>") (p ++ lit "</p>"));
    [apply Escaped_token; simpl; tauto|].
  apply Escaped_app; [assumption|apply Escaped_token; simpl; tauto].
Qed.

Lemma join_Escaped (l : list jsstring) :
  Forall Escaped l -> Escaped (join l []).
Proof.
  induction 1 as [|x l Hx Hl IH]; [constructor|].
  cbn [join]. destruct l as [|y l]; [assumption|].
  apply Escaped_app; [assumption|exact IH].
Qed.

End RenderFacts.

Module RenderSpec.
Import JS JSFacts Client Spec RenderFacts.

(** C9.  For every input text, [formatContent] escapes the whole text
    before it applies the transformations for fenced code, inline code and
    paragraphs, in that order; the escaped text holds no [<] and no [>], and
    the rendered output consists of the renderer's own tags, the character
    references written by escaping, and characters that start no markup.  A
    [<script>] tag in the text comes out escaped, in running text and inside
    a fenced code block alike. *)
Theorem formatContent_escapes_first (text : jsstring) :
  formatContent text =
    match text with
    | [] => []
    | _ => join (map paragraph
                   (split (replaceAll inlineCodeAt
                             (replaceAll codeBlockAt (escapeHtml text)))
                          (nl ++ nl))) []
    end /\
  ~ In 60%N (escapeHtml text) /\
  ~ In 62%N (escapeHtml text) /\
  Escaped (formatContent text) /\
  formatContent (lit "<script>alert(1)</script>")
    = lit "<p>&lt;script&gt;alert(1)&lt;/script&gt;</p>" /\
  formatContent (lit "```js" ++ nl ++ lit "<script>x</script>" ++ nl ++ lit "```")
    = lit "<p><pre><code>&lt;script&gt;x&lt;/script&gt;" ++ nl ++
      lit "</code></pre></p>".
Proof.
  split; [reflexivity|].
  split; [apply escapeHtml_no_angle|].
  split; [apply escapeHtml_no_angle|].
  split; [|split; vm_compute; reflexivity].
  unfold formatContent. destruct text as [|c text]; [constructor|].
  apply join_Escaped, Forall_map.
  assert (H : Forall Escaped
                (split (replaceAll inlineCodeAt
                          (replaceAll codeBlockAt (escapeHtml (c :: text))))
                       (nl ++ nl))).
  { apply split_Escaped.
    apply (replaceAll_Escaped inlineCodeAt inlineCodeAt_backtick inlineCodeAt_sound).
    apply (replaceAll_Escaped codeBlockAt codeBlockAt_backtick codeBlockAt_sound).
    apply Escaped_escapeHtml. }
  revert H. apply Forall_impl. apply paragraph_Escaped.
Qed.

End RenderSpec.

(** ** Error events and the transcript *)

Module TurnFacts.
Import JS JSFacts Client LineFacts ConsumerFacts ConsumerSpec.

Section WithEngine.
Context {engine : Engine}.

Lemma dispatch_className (st : Stream) (data : value) :
  match dispatch st data with
  | Normal st' | Throw _ st' =>
      className (assistantDiv st') = className (assistantDiv st)
  end.
Proof.
  unfold dispatch.
  destruct data; try reflexivity;
    case_conditions; reflexivity.
Qed.

Lemma handleLine_className (st : Stream) (line : jsstring) :
  match handleLine st line with
  | Normal st' | Throw _ st' =>
      className (assistantDiv st') = className (assistantDiv st)
  end.
Proof.
  unfold handleLine.
  destruct (negb (startsWith line (lit "data: "))); [reflexivity|].
  destruct (JSON_parse (slice line 6)) as [message|data].
  - cbv beta iota. destruct (isOurError (ThrownError message)); reflexivity.
  - pose proof (dispatch_className st data) as H.
    destruct (dispatch st data) as [st'|e st']; [exact H|].
    destruct (isOurError e); exact H.
Qed.

Lemma forLines_className (lines : list jsstring) :
  forall st,
  match forLines st lines with
  | Normal st' | Throw _ st' =>
      className (assistantDiv st') = className (assistantDiv st)
  end.
Proof.
  induction lines as [|line rest IH]; intros st; simpl; [reflexivity|].
  pose proof (handleLine_className st line) as H.
  destruct (handleLine st line) as [st'|e st']; [|exact H].
  specialize (IH st').
  destruct (forLines st' rest); congruence.
Qed.

(** A line that is not valid JSON is skipped when the message of the
    engine's [SyntaxError] holds "JSON". *)
Lemma malformed_line_is_skipped (st : Stream) (line message : jsstring) :
  JSON_parse (slice line 6) = inl message ->
  includes message (lit "JSON") = true ->
  handleLine st line = Normal st.
Proof.
  intros Hparse Hmsg. unfold handleLine.
  destruct (negb (startsWith line (lit "data: "))); [reflexivity|].
  rewrite Hparse. cbv beta iota. unfold isOurError. rewrite Hmsg.
  now destruct message.
Qed.

(** What the handler makes of an [error] event: it throws when the message
    is not empty and does not hold "JSON", and goes on otherwise. *)
Lemma error_event_outcome (st : Stream) (line : jsstring) (data : value)
    (m : jsstring) :
  startsWith line (lit "data: ") = true ->
  JSON_parse (slice line 6) = inr data ->
  get data (lit "type") = VString (lit "error") ->
  get data (lit "error") = VString m ->
  handleLine st line =
    if match m with [] => false | _ => negb (includes m (lit "JSON")) end
    then Throw (ThrownError m) st
    else Normal st.
Proof.
  intros Hstart Hparse Htype Herror.
  rewrite (handleLine_data st line data Hstart Hparse).
  unfold dispatch. rewrite Htype, Herror.
  destruct data; try discriminate Htype.
  reflexivity.
Qed.

End WithEngine.

(** The relay and the client together, on the reference engine: the client
    reads the frames the relay sends for a complete upstream stream and ends
    with the reply in its transcript. *)
Example relay_then_client :
  streamResponse (engine := Reference.engine) Examples.askedPage
    (inr (Examples.relayedResponse Examples.completeStream))
  = {| messages := [{| role := lit "user"; content := lit "Hi" |};
                    {| role := lit "assistant"; content := lit "Hello" |}];
       isStreaming := false;
       messagesEl := [{| className := lit "message user"; loading := false;
                         innerHTML := lit "<p>Hi</p>" |};
                      {| className := lit "message assistant"; loading := false;
                         innerHTML := lit "<p>Hello</p>" |}];
       sendBtn_disabled := false |}.
Proof. vm_compute. reflexivity. Qed.

End TurnFacts.

Module TurnSpec.
Import JS JSFacts Client LineFacts ConsumerFacts ConsumerSpec TurnFacts.

(** C7, as the code has it.  When the consumer dispatches an [error] event
    whose message is not empty and does not hold "JSON", the text "Error: "
    followed by the message, passed through the renderer, becomes the
    content of the assistant's element in place of any partial text, no
    later line or read of the stream is processed, and the transcript gets
    no assistant entry for the turn; on success, the assembled text is
    appended to the transcript. *)
Theorem error_event_ends_turn {engine : Engine} (page : Page) :
  (forall (response : FetchResponse) (body : ResponseBody)
          (pre post : list jsstring) (errLine : jsstring) (data : value)
          (m : jsstring) (st1 : Stream),
     ok response = true ->
     responseBody response = Some body ->
     completeLines (List.concat (reads body)) = pre ++ errLine :: post ->
     forLines initialStream pre = Normal st1 ->
     startsWith errLine (lit "data: ") = true ->
     JSON_parse (slice errLine 6) = inr data ->
     get data (lit "type") = VString (lit "error") ->
     get data (lit "error") = VString m ->
     m <> [] ->
     includes m (lit "JSON") = false ->
     streamResponse page (inr response) =
       {| messages := messages page;
          isStreaming := false;
          messagesEl := messagesEl page ++
                        [{| className := lit "message assistant";
                            loading := false;
                            innerHTML := formatContent (lit "Error: " ++ m) |}];
          sendBtn_disabled := false |})
  /\
  (forall (fetched : Fetched) (st' : Stream),
     consume initialStream fetched = Normal st' ->
     messages (streamResponse page fetched) =
       messages page ++ [{| role := lit "assistant"; content := fullContent st' |}]).
Proof.
  split.
  - intros response body pre post errLine data m st1
           Hok Hbody Hlines Hpre Hstart Hparse Htype Herror Hm Hjson.
    assert (Hline : handleLine st1 errLine = Throw (ThrownError m) st1).
    { rewrite (error_event_outcome st1 errLine data m Hstart Hparse Htype Herror).
      rewrite Hjson. now destruct m. }
    pose proof (readLoop_lines (reads body) (ending body) initialStream
                  (fun H => H)) as L.
    cbn [buffer initialStream app] in L. rewrite Hlines, forLines_app, Hpre in L.
    cbn [forLines] in L. rewrite Hline in L. destruct L as [b L].
    pose proof (forLines_className pre initialStream) as Hclass.
    rewrite Hpre in Hclass.
    unfold streamResponse, consume. rewrite Hok, Hbody. cbn [negb].
    rewrite L. cbn [errorMessage withBuffer assistantDiv]. now rewrite Hclass.
  - intros fetched st' Hc. unfold streamResponse. now rewrite Hc.
Qed.

(** The client on the frames the relay sends for an upstream stream that
    fails with "Connection error." after two text deltas. *)
Lemma error_event_ends_turn_witness :
  streamResponse (engine := Reference.engine) Examples.askedPage
    (inr (Examples.relayedResponse Examples.failingStream))
  = {| messages := messages Examples.askedPage;
       isStreaming := false;
       messagesEl := messagesEl Examples.askedPage ++
                     [{| className := lit "message assistant";
                         loading := false;
                         innerHTML := formatContent
                                        (lit "Error: " ++ lit "Connection error.") |}];
       sendBtn_disabled := false |}.
Proof.
  destruct (error_event_ends_turn (engine := Reference.engine) Examples.askedPage)
    as [H _].
  apply (H (Examples.relayedResponse Examples.failingStream)
           {| reads := Server.chunks
                         (snd (Server.start (engine := Reference.engine)
                                 Examples.failingStream Server.newController));
              ending := ReadDone |}
           [Server.wire_line (engine := Reference.engine) (Server.Delta (lit "Hel")); [];
            Server.wire_line (engine := Reference.engine) (Server.Delta (lit "lo")); []]
           [[]]
           (Server.wire_line (engine := Reference.engine) (Server.Error (lit "Connection error.")))
           (VObject [(lit "type", VString (lit "error"));
                     (lit "error", VString (lit "Connection error."))])
           (lit "Connection error.")
           {| fullContent := lit "Hello"; buffer := [];
              assistantDiv := setInnerHTML (assistantDiv initialStream)
                                (lit "<p>Hello</p>") |});
    try (vm_compute; reflexivity).
  discriminate.
Defined.

(** C7, as stated, fails.  For the error event of an upstream failure
    "Connection error." the rendered content is not the event's message but
    the paragraph "Error: Connection error."; and for an error event whose
    message holds "JSON" the message is not rendered at all: the partial
    text stays and the transcript gets an assistant entry. *)
Lemma error_event_rendering :
  (let page := streamResponse (engine := Reference.engine) Examples.askedPage
                 (inr (Examples.relayedResponse Examples.failingStream)) in
   map innerHTML (messagesEl page)
     = [lit "<p>Hi</p>"; lit "<p>Error: Connection error.</p>"] /\
   lit "<p>Error: Connection error.</p>" <> lit "Connection error." /\
   lit "<p>Error: Connection error.</p>" <> formatContent (lit "Connection error."))
  /\
  (let page := streamResponse (engine := Reference.engine) Examples.askedPage
                 (inr (Examples.relayedResponse Examples.jsonFailingStream)) in
   map innerHTML (messagesEl page)
     = [lit "<p>Hi</p>"; lit "<p>Partial answer</p>"] /\
   messages page
     = [{| role := lit "user"; content := lit "Hi" |};
        {| role := lit "assistant"; content := lit "Partial answer" |}]).
Proof.
  split; cbv zeta.
  - split; [vm_compute; reflexivity|]. split; vm_compute; discriminate.
  - split; vm_compute; reflexivity.
Qed.

(** C8 at a failing input.  The relay reports an upstream failure whose
    message holds "JSON" as an [error] event; the handler of the client
    raises the error for it and then drops it as if it were a parse error:
    the handler returns normally and the read loop runs to its end. *)
Theorem error_event_with_JSON_is_dropped :
  (forall st : Stream,
     dispatch (engine := Reference.engine) st Examples.jsonErrorEvent
       = Throw (ThrownError (lit "JSON Parse error: Unexpected EOF")) st /\
     handleLine (engine := Reference.engine) st Examples.jsonErrorLine = Normal st)
  /\
  consume (engine := Reference.engine) initialStream
    (inr (Examples.relayedResponse Examples.jsonFailingStream))
  = Normal {| fullContent := lit "Partial answer";
              buffer := [];
              assistantDiv := setInnerHTML (assistantDiv initialStream)
                                (lit "<p>Partial answer</p>") |}.
Proof.
  split; [|vm_compute; reflexivity].
  intros st. split; [reflexivity|].
  rewrite (error_event_outcome (engine := Reference.engine) st
             Examples.jsonErrorLine Examples.jsonErrorEvent
             (lit "JSON Parse error: Unexpected EOF"));
    try (vm_compute; reflexivity).
Qed.

End TurnSpec.

(* ================================================================== *)
(** * Further properties of the server *)
(* ================================================================== *)

Module ServerMore.
Import JS JSFacts Server Spec ValidatorFacts RelayFacts Views.

Lemma nth_error_combine_seq {A} (l : list A) :
  forall k i,
  nth_error (combine (seq k (List.length l)) l) i
  = option_map (fun m => (k + i, m)) (nth_error l i).
Proof.
  induction l as [|x l IH]; intros k i; simpl.
  - now destruct i.
  - destruct i as [|i]; simpl.
    + now rewrite Nat.add_0_r.
    + rewrite IH. destruct (nth_error l i); simpl; [|reflexivity].
      now rewrite Nat.add_succ_r.
Qed.

(** X1.  [formattedMessages] forwards every message, in order, as one text
    block with the message's role and content; the block of the message
    before the last one carries the cache directive and no other block
    does, so that a transcript of fewer than two messages has none. *)
Theorem formattedMessages_cache_breakpoint (messages : list value) :
  List.length (formattedMessages messages) = List.length messages /\
  (forall i m,
     nth_error messages i = Some m ->
     exists block,
       nth_error (formattedMessages messages) i
         = Some {| role := get m (lit "role"); content := [block] |} /\
       text block = get m (lit "content") /\
       (cache_control block = Some ephemeral_1h <-> i + 2 = List.length messages)) /\
  (List.length messages < 2 ->
   Forall (fun p => Forall (fun b => cache_control b = None) (content p))
          (formattedMessages messages)).
Proof.
  assert (Hnth : forall i m,
     nth_error messages i = Some m ->
     exists block,
       nth_error (formattedMessages messages) i
         = Some {| role := get m (lit "role"); content := [block] |} /\
       text block = get m (lit "content") /\
       (cache_control block = Some ephemeral_1h <-> i + 2 = List.length messages)).
  { intros i m Hm. unfold formattedMessages.
    rewrite nth_error_map, nth_error_combine_seq, Hm.
    cbn [option_map Nat.add].
    eexists. split; [reflexivity|]. split; [reflexivity|].
    cbn [cache_control].
    destruct (Nat.eqb (S (S i)) (List.length messages)) eqn:E.
    - apply Nat.eqb_eq in E. split; [lia|reflexivity].
    - apply Nat.eqb_neq in E. split; [discriminate|lia]. }
  assert (Hlen : List.length (formattedMessages messages) = List.length messages).
  { unfold formattedMessages.
    now rewrite length_map, length_combine, length_seq, Nat.min_id. }
  split; [exact Hlen|]. split; [exact Hnth|].
  intros Hshort. apply Forall_forall. intros p Hp.
  apply In_nth_error in Hp. destruct Hp as [i Hi].
  assert (Hlt : i < List.length messages).
  { rewrite <- Hlen. apply nth_error_Some. congruence. }
  destruct (nth_error messages i) as [m|] eqn:Hm;
    [|apply nth_error_None in Hm; lia].
  destruct (Hnth i m Hm) as (block & Hb & _ & Hcache).
  rewrite Hb in Hi. injection Hi as <-. simpl.
  constructor; [|constructor].
  destruct (cache_control block) as [[]|] eqn:E; [|reflexivity].
  assert (i + 2 = List.length messages) by now apply Hcache. lia.
Qed.

Lemma formattedMessages_cache_breakpoint_witness :
  exists block,
    nth_error (formattedMessages Examples.threeMessages) 1
      = Some {| role := VString (lit "assistant"); content := [block] |} /\
    text block = VString (lit "Hello") /\
    cache_control block = Some ephemeral_1h.
Proof.
  destruct (formattedMessages_cache_breakpoint Examples.threeMessages)
    as (_ & Hnth & _).
  destruct (Hnth 1 _ eq_refl) as (block & Hb & Ht & Hc).
  exists block. split; [exact Hb|]. split; [exact Ht|]. now apply Hc.
Defined.

Lemma get_requestOf (data : ChatRequest) :
  get (requestOf data) (lit "model") = model data /\
  get (requestOf data) (lit "system") = system data /\
  get (requestOf data) (lit "messages") = VArray (messages data).
Proof. repeat split. Qed.

(** X2.  The validator reads nothing of a body but its [model], [system]
    and [messages]: two objects that agree on these get the same result.
    And what it returns is a fixed point: the request of a valid body,
    validated again, is returned unchanged. *)
Theorem validateRequest_fixed_point :
  (forall p1 p2,
     get (VObject p1) (lit "model") = get (VObject p2) (lit "model") ->
     get (VObject p1) (lit "system") = get (VObject p2) (lit "system") ->
     get (VObject p1) (lit "messages") = get (VObject p2) (lit "messages") ->
     validateRequest (VObject p1) = validateRequest (VObject p2)) /\
  (forall body data,
     validateRequest body = Valid data ->
     validateRequest (requestOf data) = Valid data).
Proof.
  split.
  - intros p1 p2 Hm Hs Hmsgs. unfold validateRequest.
    rewrite Hm, Hs, Hmsgs. reflexivity.
  - intros body data H. unfold validateRequest in H.
    destruct (negb (truthy body) || negb (streq (typeof body) (lit "object")));
      [discriminate|].
    destruct (negb (truthy (get body (lit "model")))
              || negb (MODELS_includes (get body (lit "model")))) eqn:Hm;
      [discriminate|].
    destruct (negb (match get body (lit "system") with
                    | VUndefined => true | _ => false end)
              && negb (streq (typeof (get body (lit "system"))) (lit "string")))
      eqn:Hs; [discriminate|].
    destruct (negb (isArray (get body (lit "messages")))) eqn:Ha; [discriminate|].
    destruct (validateMessages (elements (get body (lit "messages")))) eqn:Hv;
      [discriminate|].
    injection H as <-.
    apply system_check in Hs.
    set (data := {| model := get body (lit "model");
                    system := if truthy (get body (lit "system"))
                              then get body (lit "system") else VString [];
                    messages := elements (get body (lit "messages")) |}).
    destruct (get_requestOf data) as (Gm & Gs & Gmsgs).
    unfold validateRequest. rewrite Gm, Gs, Gmsgs.
    change (negb (truthy (requestOf data))
            || negb (streq (typeof (requestOf data)) (lit "object"))) with false.
    cbv beta iota. change (model data) with (get body (lit "model")). rewrite Hm.
    change (messages data) with (elements (get body (lit "messages"))).
    cbn [isArray negb elements]. rewrite Hv.
    assert (Hsys : exists s, system data = VString s).
    { subst data. cbn [system].
      destruct Hs as [->|[s ->]]; [now exists []|].
      destruct s; [now exists []|eexists; reflexivity]. }
    destruct Hsys as [s Hsys]. rewrite Hsys.
    change (negb false && negb (streq (typeof (VString s)) (lit "string")))
      with false.
    cbv beta iota. f_equal.
    assert (Hfix : (if truthy (VString s) then VString s else VString [])
                   = VString s) by now destruct s.
    rewrite Hfix, <- Hsys. reflexivity.
Qed.

Lemma validateRequest_fixed_point_witness :
  validateRequest Examples.bodyWithExtraField
  = validateRequest
      (VObject [(lit "model", VString (lit "claude-opus-4-5-20250514"));
                (lit "messages", VArray Examples.threeMessages)]) /\
  exists data,
    validateRequest Examples.bodyWithExtraField = Valid data /\
    validateRequest (requestOf data) = Valid data.
Proof.
  destruct validateRequest_fixed_point as [Hfields Hfix].
  split; [now apply Hfields|].
  destruct (validateRequest Examples.bodyWithExtraField) as [data|e] eqn:E;
    [|vm_compute in E; discriminate E].
  exists data. split; [reflexivity|]. now apply (Hfix Examples.bodyWithExtraField).
Defined.


Lemma startsWith_app (a x : jsstring) : startsWith (a ++ x) a = true.
Proof.
  induction a as [|c a IH]; [reflexivity|].
  simpl. now rewrite N.eqb_refl, IH.
Qed.

Lemma endsWith_app (p s : jsstring) : endsWith (p ++ s) s = true.
Proof. unfold endsWith. rewrite rev_app_distr. apply startsWith_app. Qed.

(** X4.  [getContentType] goes by the end of the path alone: whatever
    comes before it, [.html] gives text/html, [.css] text/css and [.js]
    application/javascript; a path that ends in another character than
    [l] or [s], and the empty path, get application/octet-stream. *)
Theorem getContentType_by_extension (p : jsstring) :
  getContentType (p ++ lit ".html") = lit "text/html" /\
  getContentType (p ++ lit ".css") = lit "text/css" /\
  getContentType (p ++ lit ".js") = lit "application/javascript" /\
  getContentType [] = lit "application/octet-stream" /\
  (forall c, c <> 108%N -> c <> 115%N ->
             getContentType (p ++ [c]) = lit "application/octet-stream").
Proof.
  unfold getContentType. repeat split.
  - now rewrite endsWith_app.
  - assert (H : endsWith (p ++ lit ".css") (lit ".html") = false)
      by (unfold endsWith; rewrite rev_app_distr; reflexivity).
    now rewrite H, endsWith_app.
  - assert (H1 : endsWith (p ++ lit ".js") (lit ".html") = false)
      by (unfold endsWith; rewrite rev_app_distr; reflexivity).
    assert (H2 : endsWith (p ++ lit ".js") (lit ".css") = false)
      by (unfold endsWith; rewrite rev_app_distr; reflexivity).
    now rewrite H1, H2, endsWith_app.
  - intros c Hl Hs.
    assert (H : forall s, (s = lit ".html" \/ s = lit ".css" \/ s = lit ".js") ->
                          endsWith (p ++ [c]) s = false).
    { intros s Hcase. unfold endsWith. rewrite rev_app_distr.
      apply N.eqb_neq in Hl, Hs.
      destruct Hcase as [-> | [-> | ->]];
        change (rev [c] ++ rev p) with (c :: rev p);
        [change (rev (lit ".html")) with (108%N :: rev (lit ".htm"))
        |change (rev (lit ".css")) with (115%N :: rev (lit ".cs"))
        |change (rev (lit ".js")) with (115%N :: rev (lit ".j"))];
        cbn [startsWith]; rewrite N.eqb_sym; [rewrite Hl|rewrite Hs|rewrite Hs];
        reflexivity. }
    rewrite !H by tauto. reflexivity.
Qed.

Lemma getContentType_by_extension_witness :
  getContentType (lit "./public/icons/logo.svg") = lit "application/octet-stream".
Proof.
  destruct (getContentType_by_extension (lit "./public/icons/logo.sv"))
    as (_ & _ & _ & _ & H).
  apply (H 103%N); discriminate.
Defined.

(** X5.  [serveStatic] answers by the file whose name is [./public]
    followed by the path, with [/index.html] for the path [/]: when this
    file exists it is served, with status 200 and the content type of its
    name, and otherwise the answer is 404 "Not Found".  The path is taken as
    it is: a path through [..] names a file outside the directory, and
    [serveStatic] serves it if it exists. *)
Theorem serveStatic_serves_public_files (exists_ : jsstring -> bool)
    (path : jsstring) :
  serveStatic exists_ (lit "/") = serveStatic exists_ (lit "/index.html") /\
  (path <> lit "/" ->
   exists_ (lit "./public" ++ path) = true ->
   serveStatic exists_ path
     = {| status := 200;
          headers := [(lit "Content-Type", getContentType (lit "./public" ++ path))];
          body := BodyFile (lit "./public" ++ path) |}) /\
  (path <> lit "/" ->
   exists_ (lit "./public" ++ path) = false ->
   serveStatic exists_ path
     = {| status := 404; headers := []; body := BodyText (lit "Not Found") |}) /\
  (forall f,
     body (serveStatic exists_ path) = BodyFile f ->
     exists_ f = true /\
     f = lit "./public" ++ (if streq path (lit "/") then lit "/index.html" else path) /\
     status (serveStatic exists_ path) = 200%N) /\
  ((forall f, body (serveStatic exists_ path) <> BodyFile f) ->
   serveStatic exists_ path
     = {| status := 404; headers := []; body := BodyText (lit "Not Found") |}) /\
  (forall rest,
     exists_ (lit "./public/../" ++ rest) = true ->
     serveStatic exists_ (lit "/../" ++ rest)
     = {| status := 200;
          headers := [(lit "Content-Type",
                       getContentType (lit "./public/../" ++ rest))];
          body := BodyFile (lit "./public/../" ++ rest) |}).
Proof.
  split; [reflexivity|]. split; [|split; [|split; [|split]]].
  - intros Hpath Hex. unfold serveStatic.
    apply streq_neq in Hpath. rewrite Hpath, Hex. reflexivity.
  - intros Hpath Hex. unfold serveStatic.
    apply streq_neq in Hpath. rewrite Hpath, Hex. reflexivity.
  - intros f. unfold serveStatic.
    destruct (exists_ _) eqn:Hex; cbn [body]; [|discriminate].
    intros E. injection E as <-. split; [exact Hex|].
    split; reflexivity.
  - unfold serveStatic. destruct (exists_ _); cbn [body]; [|reflexivity].
    intros H. exfalso. eapply H. reflexivity.
  - intros rest Hex. unfold serveStatic. cbv zeta.
    change (streq (lit "/../" ++ rest) (lit "/")) with false. cbv iota.
    change (lit "./public" ++ lit "/../" ++ rest) with (lit "./public/../" ++ rest).
    now rewrite Hex.
Qed.

(** A style sheet of the directory, a file that is not there, and the
    server's own source, outside the directory, reached through [..]. *)
Lemma serveStatic_serves_public_files_witness :
  serveStatic (fun f => streq f (lit "./public/styles.css")) (lit "/styles.css")
  = {| status := 200;
       headers := [(lit "Content-Type", lit "text/css")];
       body := BodyFile (lit "./public/styles.css") |} /\
  serveStatic (fun f => streq f (lit "./public/styles.css")) (lit "/app.js")
  = {| status := 404; headers := []; body := BodyText (lit "Not Found") |} /\
  serveStatic (fun f => streq f (lit "./public/../server.ts")) (lit "/../server.ts")
  = {| status := 200;
       headers := [(lit "Content-Type", lit "application/octet-stream")];
       body := BodyFile (lit "./public/../server.ts") |}.
Proof.
  split; [|split].
  - destruct (serveStatic_serves_public_files
                (fun f => streq f (lit "./public/styles.css")) (lit "/styles.css"))
      as (_ & H & _).
    apply H; [discriminate|reflexivity].
  - destruct (serveStatic_serves_public_files
                (fun f => streq f (lit "./public/styles.css")) (lit "/app.js"))
      as (_ & _ & H & _).
    apply H; [discriminate|reflexivity].
  - destruct (serveStatic_serves_public_files
                (fun f => streq f (lit "./public/../server.ts")) [])
      as (_ & _ & _ & _ & _ & H).
    apply (H (lit "server.ts")). reflexivity.
Defined.

(** X6.  Routing.  GET /api/models is answered with the list of [MODELS],
    in order, whatever else the request, the files and the upstream are;
    every request that is neither this nor POST /api/chat is answered as a
    static path, a GET /api/chat too. *)
Theorem fetch_routes {engine : Engine} (client : Anthropic)
    (exists_ : jsstring -> bool) (req : Request) :
  (pathname req = lit "/api/models" -> method req = lit "GET" ->
   fetch client exists_ req
     = ({| status := 200; headers := [];
           body := BodyText
                     (JSON_stringify
                        (VObject
                           [(lit "models",
                             VArray [VString (lit "claude-opus-4-5-20250514");
                                     VString (lit "claude-sonnet-4-20250514");
                                     VString (lit "claude-haiku-3-5-20241022")])])) |},
        [])) /\
  (~ (pathname req = lit "/api/chat" /\ method req = lit "POST") ->
   ~ (pathname req = lit "/api/models" /\ method req = lit "GET") ->
   fetch client exists_ req = (serveStatic exists_ (pathname req), [])).
Proof.
  split.
  - intros Hp Hm. unfold fetch. rewrite Hp, Hm. reflexivity.
  - intros Hchat Hmodels. unfold fetch.
    destruct (streq (pathname req) (lit "/api/chat")
              && streq (method req) (lit "POST")) eqn:E1.
    { apply andb_true_iff in E1. destruct E1 as [E1 E2].
      apply streq_eq in E1, E2. tauto. }
    destruct (streq (pathname req) (lit "/api/models")
              && streq (method req) (lit "GET")) eqn:E2; [|reflexivity].
    apply andb_true_iff in E2. destruct E2 as [E2 E3].
    apply streq_eq in E2, E3. tauto.
Qed.

Lemma fetch_routes_witness :
  fetch (engine := Reference.engine) Examples.client (fun _ => false)
    {| method := lit "GET"; pathname := lit "/api/chat"; bodyText := [] |}
  = ({| status := 404; headers := []; body := BodyText (lit "Not Found") |}, []).
Proof.
  destruct (fetch_routes (engine := Reference.engine) Examples.client
              (fun _ => false)
              {| method := lit "GET"; pathname := lit "/api/chat"; bodyText := [] |})
    as [_ H].
  rewrite H; [reflexivity| |]; intros [H1 H2]; discriminate.
Defined.

Lemma relayedFrom_same_end {engine : Engine} (s1 s2 : MessageStream)
    (evs : list MessageStreamEvent) :
  ending s1 = ending s2 -> finalMessage s1 = finalMessage s2 ->
  relayedFrom s1 evs = relayedFrom s2 evs.
Proof.
  intros He Hf. induction evs as [|ev rest IH]; simpl.
  - now rewrite He.
  - destruct ev as [| | | |d|]; try exact IH.
    + rewrite Hf. destruct (finalMessage s2) as [e|m]; [reflexivity|].
      destruct (usageOf m); [reflexivity|now rewrite IH].
    + destruct d; try exact IH. now rewrite IH.
Qed.

Lemma relayedFrom_filter {engine : Engine} (stream : MessageStream)
    (evs : list MessageStreamEvent) :
  relayedFrom stream (filter isRelayed evs) = relayedFrom stream evs.
Proof.
  induction evs as [|ev rest IH]; [reflexivity|].
  destruct ev as [| | | |d|]; simpl; try exact IH.
  - destruct (finalMessage stream) as [e|m]; [reflexivity|].
    destruct (usageOf m); [reflexivity|now rewrite IH].
  - destruct d; simpl; try exact IH. now rewrite IH.
Qed.

(** X7.  Whatever the upstream does, the relay never invents, repeats or
    reorders text.  The chunks it enqueues are the frames of the events it
    relays, each the encoded text of [data: ], the JSON text of the event's
    object and a blank line; the texts of the [delta] events among them are
    a prefix of the text fragments of the upstream, and the whole of them
    unless the last event is an [error]. *)
Theorem relayed_deltas_are_a_prefix {engine : Engine} (stream : MessageStream) :
  chunks (snd (start stream newController))
  = map (fun e => TextEncoder_encode
                    (lit "data: " ++ JSON_stringify (eventValue e) ++ nl ++ nl))
        (relayedEvents stream) /\
  isPrefix (deltaTexts (relayedEvents stream)) (textFragments (events stream)) /\
  (deltaTexts (relayedEvents stream) = textFragments (events stream) \/
   exists sent m, relayedEvents stream = sent ++ [Error m]).
Proof.
  split; [now rewrite start_frames|]. split.
  - unfold relayedEvents, isPrefix.
    induction (events stream) as [|ev rest [tail IH]]; simpl.
    + exists []. now destruct (ending stream).
    + destruct ev as [| | | |d|]; try (now exists tail).
      * destruct (finalMessage stream) as [e|m];
          [now exists (textFragments rest)|].
        destruct (usageOf m); [now exists (textFragments rest)|].
        now exists tail.
      * destruct d as [t|?| |?|]; try (now exists tail).
        exists tail. simpl. now rewrite IH at 1.
  - destruct (relayedFrom_texts stream (events stream)) as [H|H]; [right|left];
      assumption.
Qed.

(** An upstream that fails after "Hel" and "lo": the chunks as text, with
    the two fragments in their frames and the error frame last. *)
Example relayed_deltas_of_failing_stream :
  chunks (snd (start (engine := Reference.engine) Examples.failingStream
                 newController))
  = Examples.failingChunks /\
  textFragments (events Examples.failingStream) = [lit "Hel"; lit "lo"].
Proof. split; vm_compute; reflexivity. Qed.

(** X8.  The relay reacts to text deltas and to [message_stop] only: taking
    every other event out of the upstream stream (message and block starts
    and stops, deltas of tool input, thinking, citations and signatures)
    changes nothing of what it does. *)
Theorem relay_ignores_other_events {engine : Engine} (stream : MessageStream) :
  start (withEvents stream (filter isRelayed (events stream))) newController
  = start stream newController.
Proof.
  rewrite !start_run. unfold relayedEvents. cbn [events withEvents].
  rewrite (relayedFrom_same_end
             (withEvents stream (filter isRelayed (events stream))) stream
             (filter isRelayed (events stream)) eq_refl eq_refl).
  now rewrite relayedFrom_filter.
Qed.

End ServerMore.

Module Revision0Facts.
Import JS JSFacts Server Spec ValidatorFacts Revision0.





End Revision0Facts.

(** ** The client's turn, src/unnamed/part_001 *)

Module ClientMore.
Import JS JSFacts Client LineFacts ConsumerFacts Views.

Section WithEngine.
Context {engine : Engine}.

Lemma appendDelta_synced (st : Stream) (data : value) :
  synced st -> synced (appendDelta st data).
Proof.
  unfold synced, appendDelta. cbn [assistantDiv fullContent]. intros ->.
  reflexivity.
Qed.

Lemma dispatch_synced (st : Stream) (data : value) :
  synced st ->
  match dispatch st data with Normal st' | Throw _ st' => synced st' end.
Proof.
  intros H. unfold dispatch.
  destruct data; try assumption;
    repeat match goal with
           | |- context [if ?b then _ else _] => destruct b
           end; try assumption; now apply appendDelta_synced.
Qed.

Lemma handleLine_synced (st : Stream) (line : jsstring) :
  synced st ->
  match handleLine st line with Normal st' | Throw _ st' => synced st' end.
Proof.
  intros H. unfold handleLine.
  destruct (negb (startsWith line (lit "data: "))); [assumption|].
  destruct (JSON_parse (slice line 6)) as [m|data].
  - now destruct (isOurError (ThrownError m)).
  - pose proof (dispatch_synced st data H) as Hd.
    destruct (dispatch st data) as [st'|e st']; [assumption|].
    now destruct (isOurError e).
Qed.

Lemma forLines_synced (lines : list jsstring) :
  forall st, synced st ->
  match forLines st lines with Normal st' | Throw _ st' => synced st' end.
Proof.
  induction lines as [|line rest IH]; intros st H; simpl; [assumption|].
  pose proof (handleLine_synced st line H) as Hl.
  destruct (handleLine st line) as [st'|e st']; [now apply IH|assumption].
Qed.

Lemma withBuffer_synced (b : jsstring) (st : Stream) :
  synced st -> synced (withBuffer b st).
Proof. now unfold synced. Qed.

Lemma onRead_synced (st : Stream) (chunk : jsstring) :
  synced st ->
  match onRead st chunk with Normal st' | Throw _ st' => synced st' end.
Proof.
  intros H. unfold onRead.
  apply forLines_synced. now apply withBuffer_synced.
Qed.

Lemma readLoop_synced (reads : list jsstring) (ending : ReadEnding) :
  forall st, synced st ->
  match readLoop st reads ending with Normal st' | Throw _ st' => synced st' end.
Proof.
  induction reads as [|chunk rest IH]; intros st H; simpl.
  - now destruct ending.
  - pose proof (onRead_synced st chunk H) as Ho.
    destruct (onRead st chunk) as [st'|e st']; [now apply IH|assumption].
Qed.

Lemma flushBuffer_synced (st : Stream) : synced st -> synced (flushBuffer st).
Proof.
  intros H. unfold flushBuffer.
  destruct (startsWith (buffer st) (lit "data: ")); [|assumption].
  destruct (JSON_parse (slice (buffer st) 6)) as [m|data]; [assumption|].
  destruct data; try assumption;
    match goal with
    | |- context [if ?b then _ else _] => destruct b
    end; try assumption; now apply appendDelta_synced.
Qed.

Lemma consume_synced (fetched : Fetched) :
  match consume initialStream fetched with
  | Normal st' | Throw _ st' => synced st'
  end.
Proof.
  assert (H0 : synced initialStream) by reflexivity.
  unfold consume. destruct fetched as [e|response]; [assumption|].
  destruct (negb (ok response)).
  - destruct (responseText response) as [e|t]; assumption.
  - destruct (responseBody response) as [body|]; [|assumption].
    pose proof (readLoop_synced (reads body) (ending body) initialStream H0) as Hr.
    destruct (readLoop initialStream (reads body) (ending body)) as [st'|e st'];
      [now apply flushBuffer_synced|assumption].
Qed.

(** X10.  However the request, the response and its reads go,
    [streamResponse] leaves the page ready for the next turn, with one more
    element, which is not loading: either the reply is in the transcript and
    the element shows its rendering, or the transcript is as it was and the
    element shows "Error: " and the message of what was thrown. *)
Theorem streamResponse_settles (page : Page) (fetched : Fetched) :
  match consume initialStream fetched with
  | Normal st' => streamResponse page fetched = replied page (fullContent st')
  | Throw e _ => streamResponse page fetched = failed page (errorMessage e)
  end.
Proof.
  pose proof (consume_synced fetched) as H. unfold streamResponse.
  destruct (consume initialStream fetched) as [st'|e st'];
    unfold synced in H; rewrite H; reflexivity.
Qed.

(** X11.  Lines that do not start with [data: ] (blank lines, comments and
    the other fields of an event stream) have no effect: the loop over the
    lines does what it does on the data lines alone. *)
Theorem other_lines_are_ignored (lines : list jsstring) (st : Stream) :
  forLines st lines = forLines st (filter isData lines).
Proof.
  revert st. induction lines as [|line rest IH]; intros st; [reflexivity|].
  cbn [filter]. unfold isData at 1.
  destruct (startsWith line (lit "data: ")) eqn:E.
  - cbn [forLines]. destruct (handleLine st line); [apply IH|reflexivity].
  - cbn [forLines]. rewrite (handleLine_other st line E). apply IH.
Qed.

Lemma split_line (line rest : jsstring) :
  ~ In 10%N line -> split (line ++ nl ++ rest) nl = line :: split rest nl.
Proof.
  induction line as [|c line IH]; intros H.
  - change ([] ++ nl ++ rest) with (10%N :: rest). now rewrite split_nl_cons.
  - change ((c :: line) ++ nl ++ rest) with (c :: (line ++ nl ++ rest)).
    rewrite split_nl_cons, IH.
    + destruct (N.eqb 10 c) eqn:E; [|reflexivity].
      apply N.eqb_eq in E. exfalso. apply H. now left.
    + intros Hin. apply H. now right.
Qed.

Lemma completeLines_line (line rest : jsstring) :
  ~ In 10%N line ->
  completeLines (line ++ nl ++ rest) = line :: completeLines rest /\
  partialLine (line ++ nl ++ rest) = partialLine rest.
Proof.
  intros H. unfold completeLines, partialLine. rewrite (split_line line rest H).
  split.
  - apply removelast_cons. apply split_nl_nonempty.
  - apply last_cons. apply split_nl_nonempty.
Qed.

Lemma completeLines_frame (e : Server.StreamEvent) (rest : jsstring) :
  ~ In 10%N (Server.eventData e) ->
  completeLines (frameText e ++ rest)
    = Server.wire_line e :: [] :: completeLines rest /\
  partialLine (frameText e ++ rest) = partialLine rest.
Proof.
  intros H. unfold frameText, Server.wire_line.
  assert (Hl : ~ In 10%N (lit "data: " ++ Server.eventData e)).
  { intros Hin. apply in_app_or in Hin. destruct Hin as [Hin|Hin]; [|now apply H].
    vm_compute in Hin. intuition discriminate. }
  replace ((lit "data: " ++ Server.eventData e ++ nl ++ nl) ++ rest)
    with ((lit "data: " ++ Server.eventData e) ++ nl ++ ([] ++ nl ++ rest))
    by (now rewrite <- !app_assoc).
  destruct (completeLines_line (lit "data: " ++ Server.eventData e)
              ([] ++ nl ++ rest) Hl) as [-> ->].
  destruct (completeLines_line [] rest (fun H0 => H0)) as [-> ->].
  now split.
Qed.

Lemma advance_nil (st : Stream) : synced st -> advance st [] = st.
Proof.
  unfold synced, advance. intros H. cbn [Server.deltaTexts List.concat].
  rewrite app_nil_r, <- H. now destruct st.
Qed.

Lemma advance_delta (st : Stream) (t : jsstring) (evs : list Server.StreamEvent) :
  advance (appendDelta st (eventValue (Server.Delta t))) evs
  = advance st (Server.Delta t :: evs).
Proof.
  unfold advance, appendDelta.
  cbn [fullContent buffer Server.deltaTexts List.concat eventValue].
  change (toString (get (VObject [(lit "type", VString (lit "delta"));
                                   (lit "text", VString t)]) (lit "text")))
    with t.
  now rewrite <- !app_assoc.
Qed.

Lemma handleLine_frame (st : Stream) (e : Server.StreamEvent) :
  readable e -> Server.isError e = false ->
  handleLine st (Server.wire_line e) =
    Normal (match e with
            | Server.Delta _ => appendDelta st (eventValue e)
            | _ => st
            end).
Proof.
  intros [Hp _] He.
  rewrite (handleLine_data st (Server.wire_line e) (eventValue e)
             (ServerMore.startsWith_app (lit "data: ") (Server.eventData e))
             Hp).
  destruct e; [reflexivity|reflexivity|discriminate].
Qed.

Lemma flushBuffer_frame (st : Stream) (e : Server.StreamEvent) :
  JSON_parse (Server.eventData e) = inr (eventValue e) ->
  flushBuffer (withBuffer (Server.wire_line e) st)
  = withBuffer (Server.wire_line e)
      (match e with
       | Server.Delta _ => appendDelta st (eventValue e)
       | _ => st
       end).
Proof.
  intros Hp. unfold flushBuffer.
  replace (buffer (withBuffer (Server.wire_line e) st))
    with (lit "data: " ++ Server.eventData e) by reflexivity.
  rewrite (ServerMore.startsWith_app (lit "data: ") (Server.eventData e)).
  replace (slice (lit "data: " ++ Server.eventData e) 6)
    with (Server.eventData e) by reflexivity.
  rewrite Hp. now destruct e.
Qed.

(** The complete lines of a run of frames, and what the loop over them
    leaves. *)
Lemma forLines_frames (evs : list Server.StreamEvent) (tail : jsstring) :
  Forall readable evs -> existsb Server.isError evs = false ->
  forall st, synced st ->
  forLines st (completeLines (framesText evs ++ tail))
    = forLines (advance st evs) (completeLines tail) /\
  partialLine (framesText evs ++ tail) = partialLine tail.
Proof.
  induction 1 as [|e evs He _ IH]; intros Hn st Hs.
  - cbn [framesText map List.concat app]. now rewrite (advance_nil st Hs).
  - cbn [existsb] in Hn. apply orb_false_iff in Hn. destruct Hn as [Hn1 Hn2].
    unfold framesText. cbn [map List.concat]. fold (framesText evs).
    rewrite <- app_assoc.
    destruct (completeLines_frame e (framesText evs ++ tail) (proj2 He))
      as [-> ->].
    cbn [forLines]. rewrite (handleLine_frame st e He Hn1).
    rewrite (handleLine_other _ [] eq_refl).
    destruct e as [t|u|m]; [|destruct (IH Hn2 st Hs) as [-> ->]; now split|
                            discriminate].
    destruct (IH Hn2 (appendDelta st (eventValue (Server.Delta t)))
                (appendDelta_synced st _ Hs)) as [-> ->].
    now rewrite advance_delta.
Qed.

Lemma readLoop_frames (evs : list Server.StreamEvent) (tail : jsstring)
    (reads : list jsstring) :
  Forall readable evs -> existsb Server.isError evs = false -> ~ In 10%N tail ->
  List.concat reads = framesText evs ++ tail ->
  readLoop initialStream reads ReadDone
    = Normal (withBuffer tail (advance initialStream evs)).
Proof.
  intros Hr Hn Ht Hc.
  pose proof (readLoop_lines reads ReadDone initialStream (fun H => H)) as H.
  change (buffer initialStream ++ List.concat reads) with (List.concat reads) in H.
  rewrite Hc in H.
  destruct (forLines_frames evs tail Hr Hn initialStream eq_refl) as [Hf Hp].
  rewrite Hf, Hp in H.
  destruct (completeLines_partial tail Ht) as [Hc' Hp'].
  rewrite Hc', Hp' in H. exact H.
Qed.

(** X12.  The client reads back what the frames carry, whatever the cut of
    the reads: when the reads together are the frames of [delta] and [done]
    events that [JSON.parse] can read, the reply saved in the transcript and
    shown is the concatenation of the deltas' texts. *)
Theorem frames_are_read_back (page : Page) (evs : list Server.StreamEvent)
    (reads : list jsstring) :
  Forall readable evs -> existsb Server.isError evs = false ->
  List.concat reads = framesText evs ->
  streamResponse page (streamed reads ReadDone)
  = replied page (List.concat (Server.deltaTexts evs)).
Proof.
  intros Hr Hn Hc.
  assert (Hl : readLoop initialStream reads ReadDone
               = Normal (withBuffer [] (advance initialStream evs))).
  { apply (readLoop_frames evs [] reads Hr Hn (fun H => H)).
    now rewrite app_nil_r. }
  unfold streamResponse, consume, streamed.
  cbn [ok negb responseBody Client.reads ending]. rewrite Hl. reflexivity.
Qed.

(** X13.  A last frame that no line feed ends is parsed when the body ends,
    but only a [delta] in it has an effect: an [error] event there is
    dropped and the turn is saved as a success. *)
Theorem unterminated_last_frame (page : Page) (evs : list Server.StreamEvent)
    (e : Server.StreamEvent) (reads : list jsstring) :
  Forall readable evs -> existsb Server.isError evs = false -> readable e ->
  List.concat reads = framesText evs ++ Server.wire_line e ->
  streamResponse page (streamed reads ReadDone)
  = replied page (List.concat (Server.deltaTexts evs) ++
                  match e with Server.Delta t => t | _ => [] end).
Proof.
  intros Hr Hn [Hp Hnl] Hc.
  assert (Ht : ~ In 10%N (Server.wire_line e)).
  { unfold Server.wire_line. intros Hin. apply in_app_or in Hin.
    destruct Hin as [Hin|Hin]; [|now apply Hnl].
    vm_compute in Hin. intuition discriminate. }
  pose proof (readLoop_frames evs (Server.wire_line e) reads Hr Hn Ht Hc) as Hl.
  unfold streamResponse, consume, streamed.
  cbn [ok negb responseBody Client.reads ending]. rewrite Hl.
  rewrite (flushBuffer_frame (advance initialStream evs) e Hp).
  destruct e as [t|u|m];
    [|unfold replied; cbn; now rewrite app_nil_r
     |unfold replied; cbn; now rewrite app_nil_r].
  unfold replied, advance, appendDelta, eventValue.
  cbn [fullContent assistantDiv withBuffer className innerHTML renderMessage
       setInnerHTML initialStream app buffer].
  change (toString (get (VObject [(lit "type", VString (lit "delta"));
                                   (lit "text", VString t)]) (lit "text")))
    with t.
  reflexivity.
Qed.

Lemma relayedFrom_complete (stream : Server.MessageStream) (fm : value)
    (evs : list Server.MessageStreamEvent) :
  Server.ending stream = Server.EndOfStream ->
  Server.finalMessage stream = inr fm ->
  fm <> VNull -> fm <> VUndefined ->
  existsb Server.isError (Server.relayedFrom stream evs) = false /\
  Server.deltaTexts (Server.relayedFrom stream evs) = Server.textFragments evs.
Proof.
  intros He Hf Hnull Hundef.
  assert (Hu : Server.usageOf fm = inr (get fm (lit "usage")))
    by (destruct fm; try contradiction; reflexivity).
  induction evs as [|ev rest [IH1 IH2]]; simpl.
  - now rewrite He.
  - destruct ev as [| | | |d|]; try (now split).
    + rewrite Hf, Hu. now split.
    + destruct d; try (now split). simpl. split; [assumption|now rewrite IH2].
Qed.

(** X14.  The relay and the client together: when the upstream stream ends
    without raising and its final message is there (a value whose [usage]
    can be read, so neither [null] nor [undefined]), the chunks the relay
    enqueues are the encoded frames of the events it relays, and a client
    that receives the text of these frames, in reads cut anywhere, saves and
    shows as the reply the concatenation of the upstream text fragments. *)
Theorem reply_is_upstream_text (page : Page) (stream : Server.MessageStream)
    (fm : value) (reads : list jsstring) :
  Server.ending stream = Server.EndOfStream ->
  Server.finalMessage stream = inr fm ->
  fm <> VNull -> fm <> VUndefined ->
  Forall readable (Server.relayedEvents stream) ->
  List.concat reads = framesText (Server.relayedEvents stream) ->
  Server.chunks (snd (Server.start stream Server.newController))
    = map (fun e => TextEncoder_encode (frameText e)) (Server.relayedEvents stream) /\
  streamResponse page (streamed reads ReadDone)
    = replied page (Server.replyText stream).
Proof.
  intros He Hf Hnull Hundef Hr Hc. split.
  - now rewrite RelayFacts.start_run.
  - destruct (relayedFrom_complete stream fm (Server.events stream) He Hf
                Hnull Hundef) as [Hn Ht].
    assert (Hl : readLoop initialStream reads ReadDone
                 = Normal (withBuffer []
                             (advance initialStream (Server.relayedEvents stream)))).
    { apply (readLoop_frames (Server.relayedEvents stream) [] reads Hr Hn
               (fun H => H)).
      now rewrite app_nil_r. }
    unfold streamResponse, consume, streamed.
    cbn [ok negb responseBody Client.reads ending]. rewrite Hl.
    unfold Server.replyText. rewrite <- Ht. reflexivity.
Qed.

Lemma readLoop_rejected (e : thrown) (reads : list jsstring) :
  forall st, exists e' st', readLoop st reads (ReadRejects e) = Throw e' st'.
Proof.
  induction reads as [|chunk rest IH]; intros st; simpl.
  - now exists e, st.
  - destruct (onRead st chunk) as [st'|e' st']; [apply IH|now exists e', st'].
Qed.

(** X15.  A turn whose request does not yield a complete body is never
    saved: when [fetch] rejects, when the response is not ok (the text of the
    response is shown, or the status if the text is empty), when there is no
    body, and when a read rejects, whatever text had arrived before, the
    transcript stays as it was and the element shows an error. *)
Theorem incomplete_response_fails_turn (page : Page) :
  (forall e, streamResponse page (inl e) = failed page (errorMessage e)) /\
  (forall response,
     ok response = false ->
     streamResponse page (inr response)
     = failed page match responseText response with
                   | inl e => errorMessage e
                   | inr [] => lit "HTTP " ++ decimal (status response)
                   | inr errorText => errorText
                   end) /\
  (forall response,
     ok response = true -> responseBody response = None ->
     streamResponse page (inr response) = failed page (lit "No response body")) /\
  (forall reads e,
     exists message,
       streamResponse page (streamed reads (ReadRejects e)) = failed page message).
Proof.
  repeat split.
  - intros response H. unfold streamResponse, consume. rewrite H. cbn [negb].
    destruct (responseText response) as [e|[|c t]]; reflexivity.
  - intros response H Hb. unfold streamResponse, consume. rewrite H, Hb.
    reflexivity.
  - intros reads e.
    pose proof (consume_synced (streamed reads (ReadRejects e))) as Hs.
    unfold streamResponse. unfold consume, streamed in *.
    cbn [ok negb responseBody Client.reads ending] in *.
    destruct (readLoop_rejected e reads initialStream) as (e' & st' & H).
    rewrite H in *. exists (errorMessage e'). unfold synced in Hs.
    rewrite Hs. reflexivity.
Qed.

Lemma messageValue_ok (m : Message) :
  role m = lit "user" \/ role m = lit "assistant" ->
  Spec.messageOk (messageValue m).
Proof.
  intros H. unfold Spec.messageOk, Spec.roleOk, Spec.contentOk, messageValue.
  split; [exact I|]. split.
  - change (get (VObject [(lit "role", VString (role m));
                          (lit "content", VString (content m))]) (lit "role"))
      with (VString (role m)).
    destruct H as [-> | ->]; [now left|now right].
  - now exists (content m).
Qed.

Lemma requestValue_valid (page : Page) (modelValue systemValue : jsstring) :
  rolesOk page -> In modelValue Server.MODELS ->
  Server.validateRequest (requestValue page modelValue systemValue)
    = Server.Valid {| Server.model := VString modelValue;
                      Server.system := VString systemValue;
                      Server.messages := map messageValue (messages page) |}.
Proof.
  intros Hroles Hmodel.
  unfold Server.validateRequest, requestValue.
  cbn [truthy typeof negb orb].
  change (streq (lit "object") (lit "object")) with true. cbn [negb].
  change (get (VObject [(lit "model", VString modelValue);
                        (lit "system", VString systemValue);
                        (lit "messages", VArray (map messageValue (messages page)))])
            (lit "model")) with (VString modelValue).
  change (get (VObject [(lit "model", VString modelValue);
                        (lit "system", VString systemValue);
                        (lit "messages", VArray (map messageValue (messages page)))])
            (lit "system")) with (VString systemValue).
  change (get (VObject [(lit "model", VString modelValue);
                        (lit "system", VString systemValue);
                        (lit "messages", VArray (map messageValue (messages page)))])
            (lit "messages")) with (VArray (map messageValue (messages page))).
  cbv zeta.
  assert (Hi : Server.MODELS_includes (VString modelValue) = true).
  { apply ValidatorFacts.MODELS_includes_iff. now exists modelValue. }
  assert (Ht : truthy (VString modelValue) = true).
  { pose proof (ValidatorFacts.MODELS_nonempty modelValue Hmodel).
    now destruct modelValue. }
  rewrite Hi, Ht. cbn [negb orb andb typeof isArray elements].
  change (streq (lit "string") (lit "string")) with true. cbn [negb andb].
  assert (Hm : Server.validateMessages (map messageValue (messages page)) = None).
  { apply ValidatorFacts.validateMessages_None. apply Forall_map.
    revert Hroles. unfold rolesOk. apply Forall_impl.
    intros m. apply messageValue_ok. }
  rewrite Hm. now destruct systemValue.
Qed.

(** X16.  The server accepts what the client sends: for a transcript whose
    roles are "user" and "assistant" and a model of the server's list, the
    request the client builds passes [validateRequest] as it is, and
    [handleChat] answers it with status 200 after one upstream call, which
    carries the transcript and, unless it is empty, the system prompt. *)
Theorem client_request_is_accepted (client : Server.Anthropic) (page : Page)
    (modelValue systemValue : jsstring) :
  rolesOk page -> In modelValue Server.MODELS ->
  JSON_parse (requestBody page modelValue systemValue)
    = inr (requestValue page modelValue systemValue) ->
  Server.validateRequest (requestValue page modelValue systemValue)
    = Server.Valid {| Server.model := VString modelValue;
                      Server.system := VString systemValue;
                      Server.messages := map messageValue (messages page) |} /\
  snd (Server.handleChat client
         {| Server.method := lit "POST"; Server.pathname := lit "/api/chat";
            Server.bodyText := requestBody page modelValue systemValue |})
    = [{| Server.p_model := VString modelValue;
          Server.max_tokens := 8192;
          Server.p_system :=
            match systemValue with
            | [] => []
            | _ => [{| Server.text := VString systemValue;
                       Server.cache_control := Some Server.ephemeral_1h |}]
            end;
          Server.p_messages :=
            Server.formattedMessages (map messageValue (messages page)) |}] /\
  Server.status
    (fst (Server.handleChat client
            {| Server.method := lit "POST"; Server.pathname := lit "/api/chat";
               Server.bodyText := requestBody page modelValue systemValue |}))
    = 200%N.
Proof.
  intros Hroles Hmodel Hparse.
  pose proof (requestValue_valid page modelValue systemValue Hroles Hmodel) as Hv.
  unfold Server.handleChat. cbn [Server.bodyText]. rewrite Hparse, Hv.
  cbn [Server.model Server.system Server.messages].
  destruct (Server.start _ Server.newController) as [outcome controller].
  repeat split. cbn [snd]. now destruct systemValue.
Qed.

Lemma onSubmit_idle (page : Page) (inputValue : jsstring) (fetched : Fetched) :
  trim inputValue = [] \/ isStreaming page = true ->
  onSubmit page inputValue fetched = page.
Proof.
  intros [Ht|Hs]; unfold onSubmit; [now rewrite Ht|].
  rewrite Hs. now destruct (trim inputValue).
Qed.

Lemma onSubmit_runs (page : Page) (inputValue : jsstring) (fetched : Fetched) :
  trim inputValue <> [] -> isStreaming page = false ->
  onSubmit page inputValue fetched
  = streamResponse (addMessage page (lit "user") (trim inputValue)) fetched.
Proof.
  intros Ht Hs. unfold onSubmit. rewrite Hs.
  destruct (trim inputValue); [contradiction|reflexivity].
Qed.

Lemma streamResponse_messages (page : Page) (fetched : Fetched) :
  isStreaming (streamResponse page fetched) = false /\
  sendBtn_disabled (streamResponse page fetched) = false /\
  exists rest,
    messages (streamResponse page fetched) = messages page ++ rest /\
    (rest = [] \/
     exists reply, rest = [{| role := lit "assistant"; content := reply |}]).
Proof.
  unfold streamResponse.
  destruct (consume initialStream fetched) as [st'|e st']; cbn [messages
    isStreaming sendBtn_disabled]; repeat split.
  - eexists. split; [reflexivity|]. right. now eexists.
  - exists []. split; [now rewrite app_nil_r|now left].
Qed.

Lemma addMessage_rolesOk (page : Page) (text : jsstring) :
  rolesOk page -> rolesOk (addMessage page (lit "user") text).
Proof.
  intros H. unfold rolesOk, addMessage. cbn [messages].
  apply Forall_app. split; [exact H|]. constructor; [now left|constructor].
Qed.

Lemma onSubmit_rolesOk (page : Page) (inputValue : jsstring) (fetched : Fetched) :
  rolesOk page -> rolesOk (onSubmit page inputValue fetched).
Proof.
  intros Hr.
  destruct (trim inputValue) as [|c t] eqn:Ht;
    [now rewrite (onSubmit_idle page inputValue fetched (or_introl Ht))|].
  destruct (isStreaming page) eqn:Hs;
    [now rewrite (onSubmit_idle page inputValue fetched (or_intror Hs))|].
  rewrite (onSubmit_runs page inputValue fetched) by (congruence || assumption).
  destruct (streamResponse_messages
              (addMessage page (lit "user") (trim inputValue)) fetched)
    as (_ & _ & rest & Hm & Hrest).
  unfold rolesOk. rewrite Hm. apply Forall_app. split.
  - now apply addMessage_rolesOk.
  - destruct Hrest as [->|[reply ->]]; [constructor|].
    constructor; [now right|constructor].
Qed.

(** X17.  The submit handler does nothing when the input is blank or a turn
    is under way.  Otherwise it adds the trimmed text to the transcript as
    a user's message and runs the turn: when the turn succeeds, the
    transcript ends with this message and the assistant's reply, which is
    the text assembled from the response; when it fails, the transcript
    ends with the user's message, without a reply, and the page shows the
    error.  Either way the page is ready for the next turn, and the roles
    of the transcript stay "user" and "assistant". *)
Theorem onSubmit_transcript (page : Page) (inputValue : jsstring)
    (fetched : Fetched) :
  (trim inputValue = [] \/ isStreaming page = true ->
   onSubmit page inputValue fetched = page) /\
  (trim inputValue <> [] -> isStreaming page = false ->
   isStreaming (onSubmit page inputValue fetched) = false /\
   sendBtn_disabled (onSubmit page inputValue fetched) = false /\
   match consume initialStream fetched with
   | Normal st' =>
       onSubmit page inputValue fetched
       = replied (addMessage page (lit "user") (trim inputValue)) (fullContent st') /\
       messages (onSubmit page inputValue fetched)
       = messages page ++
         [{| role := lit "user"; content := trim inputValue |};
          {| role := lit "assistant"; content := fullContent st' |}]
   | Throw e _ =>
       onSubmit page inputValue fetched
       = failed (addMessage page (lit "user") (trim inputValue)) (errorMessage e) /\
       messages (onSubmit page inputValue fetched)
       = messages page ++ [{| role := lit "user"; content := trim inputValue |}]
   end) /\
  (rolesOk page -> rolesOk (onSubmit page inputValue fetched)).
Proof.
  split; [apply onSubmit_idle|]. split; [|apply onSubmit_rolesOk].
  intros Ht Hs. rewrite (onSubmit_runs page inputValue fetched Ht Hs).
  destruct (streamResponse_messages
              (addMessage page (lit "user") (trim inputValue)) fetched)
    as (H1 & H2 & _).
  split; [exact H1|]. split; [exact H2|].
  pose proof (consume_synced fetched) as Ho. unfold streamResponse.
  destruct (consume initialStream fetched) as [st'|e st'];
    unfold synced in Ho; rewrite Ho;
    (split; [reflexivity|]); cbn [messages addMessage];
    [now rewrite <- app_assoc|reflexivity].
Qed.

Lemma session_ready (turns : list (jsstring * Fetched)) :
  rolesOk (session turns) /\ isStreaming (session turns) = false /\
  sendBtn_disabled (session turns) = false.
Proof.
  unfold session.
  assert (H : forall page,
            rolesOk page /\ isStreaming page = false /\
            sendBtn_disabled page = false ->
            rolesOk (fold_left (fun page turn => onSubmit page (fst turn) (snd turn))
                       turns page) /\
            isStreaming (fold_left
                           (fun page turn => onSubmit page (fst turn) (snd turn))
                           turns page) = false /\
            sendBtn_disabled (fold_left
                           (fun page turn => onSubmit page (fst turn) (snd turn))
                           turns page) = false).
  { induction turns as [|[inputValue fetched] turns IH]; intros page Hp;
      [exact Hp|].
    cbn [fold_left fst snd]. apply IH. destruct Hp as (Hr & Hs & Hb).
    split; [now apply onSubmit_rolesOk|].
    destruct (trim inputValue) as [|c t] eqn:Ht.
    - rewrite (onSubmit_idle page inputValue fetched (or_introl Ht)). now split.
    - rewrite (onSubmit_runs page inputValue fetched) by (congruence || assumption).
      destruct (streamResponse_messages
                  (addMessage page (lit "user") (trim inputValue)) fetched)
        as (H1 & H2 & _).
      now split. }
  apply H. repeat split. constructor.
Qed.

(** X24.  Whatever was typed and whatever the server and the network did in
    the turns before, the page is ready for the next submission (no turn
    under way, the send button enabled), and the request this submission
    sends, for a model of the server's list, passes [validateRequest]: the
    transcript it carries is the one of the session with the new user's
    message at its end. *)
Theorem session_requests_are_valid (turns : list (jsstring * Fetched))
    (inputValue modelValue systemValue : jsstring) :
  In modelValue Server.MODELS ->
  isStreaming (session turns) = false /\
  sendBtn_disabled (session turns) = false /\
  Server.validateRequest
    (requestValue (addMessage (session turns) (lit "user") (trim inputValue))
       modelValue systemValue)
  = Server.Valid
      {| Server.model := VString modelValue;
         Server.system := VString systemValue;
         Server.messages :=
           map messageValue (messages (session turns)) ++
           [messageValue {| role := lit "user"; content := trim inputValue |}] |}.
Proof.
  intros Hmodel. destruct (session_ready turns) as (Hr & Hs & Hb).
  split; [exact Hs|]. split; [exact Hb|].
  rewrite (requestValue_valid _ modelValue systemValue
             (addMessage_rolesOk (session turns) (trim inputValue) Hr) Hmodel).
  cbn [messages addMessage]. now rewrite map_app.
Qed.

(** X23.  An event the client does not know is ignored: a data line whose
    JSON is not [null] and whose [type] is neither "delta" nor "error" (a
    number, a string, an array, an object without [type], a [done] or a
    ping) changes nothing and does not end the loop. *)
Theorem unknown_events_are_ignored (st : Stream) (line : jsstring) (data : value) :
  JSON_parse (slice line 6) = inr data ->
  data <> VNull -> data <> VUndefined ->
  get data (lit "type") <> VString (lit "delta") ->
  get data (lit "type") <> VString (lit "error") ->
  handleLine st line = Normal st.
Proof.
  intros Hp Hnull Hundef Hd He. unfold handleLine.
  destruct (negb (startsWith line (lit "data: "))); [reflexivity|].
  rewrite Hp. unfold dispatch.
  destruct (strictEqString (get data (lit "type")) (lit "delta")) eqn:E1;
    [apply strictEqString_eq in E1; contradiction|].
  destruct (strictEqString (get data (lit "type")) (lit "error")) eqn:E2;
    [apply strictEqString_eq in E2; contradiction|].
  destruct data; try contradiction;
    now destruct (strictEqString _ (lit "done")).
Qed.

End WithEngine.

Ltac readable_frames :=
  repeat constructor; vm_compute; try reflexivity; intuition discriminate.

(** The frames of "Hel", "lo" and the [done] event, in two reads cut inside
    the first frame. *)
Lemma frames_are_read_back_witness :
  streamResponse (engine := Reference.engine) Examples.askedPage
    (streamed Examples.cutReads ReadDone)
  = replied Examples.askedPage (lit "Hello").
Proof.
  apply (frames_are_read_back (engine := Reference.engine) Examples.askedPage
           (Server.relayedEvents (engine := Reference.engine) Examples.completeStream) Examples.cutReads).
  - readable_frames.
  - reflexivity.
  - vm_compute; reflexivity.
Defined.

(** A body that ends, without a line feed, in the frame of an [error]
    event. *)
Lemma unterminated_last_frame_witness :
  streamResponse (engine := Reference.engine) Examples.askedPage
    (streamed [Examples.completeFrames;
               Server.wire_line (engine := Reference.engine)
                 (Server.Error (lit "Connection error."))] ReadDone)
  = replied Examples.askedPage (lit "Hello").
Proof.
  apply (unterminated_last_frame (engine := Reference.engine) Examples.askedPage
           (Server.relayedEvents (engine := Reference.engine) Examples.completeStream)
           (Server.Error (lit "Connection error."))
           [Examples.completeFrames;
            Server.wire_line (engine := Reference.engine)
              (Server.Error (lit "Connection error."))]).
  - readable_frames.
  - reflexivity.
  - readable_frames.
  - vm_compute; reflexivity.
Defined.

(** The frames of [completeStream], read one code unit at a time. *)
Lemma reply_is_upstream_text_witness :
  Server.chunks (snd (Server.start (engine := Reference.engine)
                        Examples.completeStream Server.newController))
    = map (fun e => TextEncoder_encode (Engine := Reference.engine)
                      (frameText (engine := Reference.engine) e))
          (Server.relayedEvents (engine := Reference.engine) Examples.completeStream) /\
  streamResponse (engine := Reference.engine) Examples.askedPage
    (streamed Examples.unitReads ReadDone)
  = replied Examples.askedPage (lit "Hello").
Proof.
  apply (reply_is_upstream_text (engine := Reference.engine) Examples.askedPage
           Examples.completeStream
           (VObject [(lit "role", VString (lit "assistant"));
                     (lit "usage", Examples.usage)])
           Examples.unitReads).
  - reflexivity.
  - reflexivity.
  - discriminate.
  - discriminate.
  - readable_frames.
  - vm_compute; reflexivity.
Defined.

(** The server's answer to a body that is not JSON is shown as it is, a
    response without text by its status, and a response without body as
    such. *)
Lemma incomplete_response_fails_turn_witness :
  streamResponse (engine := Reference.engine) Examples.askedPage
    (inr Examples.refusedResponse)
  = failed Examples.askedPage
      (lit "{" ++ quoted (lit "error") ++ lit ":" ++ quoted (lit "Invalid JSON")
       ++ lit "}") /\
  streamResponse (engine := Reference.engine) Examples.askedPage
    (inr (Examples.emptyResponse false 502))
  = failed Examples.askedPage (lit "HTTP 502") /\
  streamResponse (engine := Reference.engine) Examples.askedPage
    (inr (Examples.emptyResponse true 200))
  = failed Examples.askedPage (lit "No response body").
Proof.
  pose proof (incomplete_response_fails_turn (engine := Reference.engine)
                Examples.askedPage) as (_ & Hnotok & Hnobody & _).
  split; [|split].
  - apply (Hnotok Examples.refusedResponse). reflexivity.
  - apply (Hnotok (Examples.emptyResponse false 502)). reflexivity.
  - apply (Hnobody (Examples.emptyResponse true 200)); reflexivity.
Defined.

(** The request of the page after the user has sent "Hi", with an empty
    system prompt. *)
Lemma client_request_is_accepted_witness :
  Server.validateRequest
    (requestValue Examples.askedPage (lit "claude-haiku-3-5-20241022") [])
  = Server.Valid
      {| Server.model := VString (lit "claude-haiku-3-5-20241022");
         Server.system := VString [];
         Server.messages := map messageValue (messages Examples.askedPage) |} /\
  snd (Server.handleChat (engine := Reference.engine) Examples.client
         {| Server.method := lit "POST"; Server.pathname := lit "/api/chat";
            Server.bodyText :=
              requestBody (engine := Reference.engine) Examples.askedPage
                (lit "claude-haiku-3-5-20241022") [] |})
  = [{| Server.p_model := VString (lit "claude-haiku-3-5-20241022");
        Server.max_tokens := 8192;
        Server.p_system := [];
        Server.p_messages :=
          Server.formattedMessages (map messageValue (messages Examples.askedPage)) |}] /\
  Server.status
    (fst (Server.handleChat (engine := Reference.engine) Examples.client
            {| Server.method := lit "POST"; Server.pathname := lit "/api/chat";
               Server.bodyText :=
                 requestBody (engine := Reference.engine) Examples.askedPage
                   (lit "claude-haiku-3-5-20241022") [] |}))
  = 200%N.
Proof.
  apply (client_request_is_accepted (engine := Reference.engine) Examples.client
           Examples.askedPage (lit "claude-haiku-3-5-20241022") []).
  - constructor; [now left|constructor].
  - right. right. left. reflexivity.
  - vm_compute; reflexivity.
Defined.

(** A blank input; the text " Hi " sent from the empty page in a turn that
    succeeds with the reply "Hello"; and the same text in a turn that the
    server refuses. *)
Lemma onSubmit_transcript_witness :
  onSubmit (engine := Reference.engine) Examples.emptyPage (lit "  ")
    (streamed Examples.cutReads ReadDone)
  = Examples.emptyPage /\
  messages (onSubmit (engine := Reference.engine) Examples.emptyPage (lit " Hi ")
              (streamed Examples.cutReads ReadDone))
  = [{| role := lit "user"; content := lit "Hi" |};
     {| role := lit "assistant"; content := lit "Hello" |}] /\
  messages (onSubmit (engine := Reference.engine) Examples.emptyPage (lit " Hi ")
              (inr Examples.refusedResponse))
  = [{| role := lit "user"; content := lit "Hi" |}] /\
  rolesOk (onSubmit (engine := Reference.engine) Examples.emptyPage (lit " Hi ")
             (streamed Examples.cutReads ReadDone)).
Proof.
  split; [|split; [|split]].
  - apply (proj1 (onSubmit_transcript (engine := Reference.engine)
                    Examples.emptyPage (lit "  ")
                    (streamed Examples.cutReads ReadDone))).
    left. reflexivity.
  - assert (Ht : trim (lit " Hi ") <> []) by (vm_compute; discriminate).
    destruct (proj1 (proj2 (onSubmit_transcript (engine := Reference.engine)
                              Examples.emptyPage (lit " Hi ")
                              (streamed Examples.cutReads ReadDone)))
                Ht eq_refl) as (_ & _ & H).
    destruct (consume (engine := Reference.engine) initialStream
                (streamed Examples.cutReads ReadDone)) as [st'|e st'] eqn:E.
    + destruct H as [_ H]. rewrite H.
      vm_compute in E. injection E as <-. reflexivity.
    + vm_compute in E. discriminate E.
  - assert (Ht : trim (lit " Hi ") <> []) by (vm_compute; discriminate).
    destruct (proj1 (proj2 (onSubmit_transcript (engine := Reference.engine)
                              Examples.emptyPage (lit " Hi ")
                              (inr Examples.refusedResponse)))
                Ht eq_refl) as (_ & _ & H).
    destruct (consume (engine := Reference.engine) initialStream
                (inr Examples.refusedResponse)) as [st'|e st'] eqn:E.
    + vm_compute in E. discriminate E.
    + destruct H as [_ H]. rewrite H. reflexivity.
  - apply (proj2 (proj2 (onSubmit_transcript (engine := Reference.engine)
                           Examples.emptyPage (lit " Hi ")
                           (streamed Examples.cutReads ReadDone)))).
    constructor.
Defined.

(** A ping event. *)
Lemma unknown_events_are_ignored_witness :
  handleLine (engine := Reference.engine) initialStream
    (lit "data: " ++ Reference.stringify (VObject [(lit "type", VString (lit "ping"))]))
  = Normal initialStream.
Proof.
  apply (unknown_events_are_ignored (engine := Reference.engine) initialStream
           (lit "data: " ++
            Reference.stringify (VObject [(lit "type", VString (lit "ping"))]))
           (VObject [(lit "type", VString (lit "ping"))]));
    try discriminate.
  vm_compute; reflexivity.
Defined.

(** A session of a blank submission, a turn that succeeds and a turn the
    server refuses, and the request of the next submission. *)
Lemma session_requests_are_valid_witness :
  isStreaming (session (engine := Reference.engine)
                 [(lit " ", streamed Examples.cutReads ReadDone);
                  (lit "Hi", streamed Examples.cutReads ReadDone);
                  (lit "More", inr Examples.refusedResponse)]) = false /\
  sendBtn_disabled (session (engine := Reference.engine)
                      [(lit " ", streamed Examples.cutReads ReadDone);
                       (lit "Hi", streamed Examples.cutReads ReadDone);
                       (lit "More", inr Examples.refusedResponse)]) = false /\
  Server.validateRequest
    (requestValue
       (addMessage (session (engine := Reference.engine)
                      [(lit " ", streamed Examples.cutReads ReadDone);
                       (lit "Hi", streamed Examples.cutReads ReadDone);
                       (lit "More", inr Examples.refusedResponse)])
          (lit "user") (trim (lit "Again ")))
       (lit "claude-sonnet-4-20250514") (lit "Be brief."))
  = Server.Valid
      {| Server.model := VString (lit "claude-sonnet-4-20250514");
         Server.system := VString (lit "Be brief.");
         Server.messages :=
           map messageValue
             [{| role := lit "user"; content := lit "Hi" |};
              {| role := lit "assistant"; content := lit "Hello" |};
              {| role := lit "user"; content := lit "More" |}] ++
           [messageValue {| role := lit "user"; content := lit "Again" |}] |}.
Proof.
  apply (session_requests_are_valid (engine := Reference.engine)
           [(lit " ", streamed Examples.cutReads ReadDone);
            (lit "Hi", streamed Examples.cutReads ReadDone);
            (lit "More", inr Examples.refusedResponse)]
           (lit "Again ") (lit "claude-sonnet-4-20250514") (lit "Be brief.")).
  right. left. reflexivity.
Defined.

End ClientMore.

(** ** The renderer on plain text, src/unnamed/part_001 *)

Module RenderMore.
Import JS JSFacts Client RenderFacts.

Lemma escapeChar_cases (c : N) :
  (escapeChar c = [c] /\ c <> 38%N /\ c <> 60%N /\ c <> 62%N /\ c <> 160%N) \/
  In (escapeChar c) Spec.escapeEntities.
Proof.
  unfold escapeChar, Spec.escapeEntities.
  destruct (N.eqb_spec c 38); [right; now left|].
  destruct (N.eqb_spec c 60); [right; right; now left|].
  destruct (N.eqb_spec c 62); [right; right; right; now left|].
  destruct (N.eqb_spec c 160); [right; right; right; right; now left|].
  left. repeat split; assumption.
Qed.

Lemma entity_facts (t : jsstring) :
  In t Spec.escapeEntities ->
  Forall (fun x => x <> 10%N /\ x <> 96%N) t /\
  forallb isWhiteSpace t = false /\
  exists r, t = 38%N :: r.
Proof.
  intros H. unfold Spec.escapeEntities in H. simpl in H.
  repeat (destruct H as [H|H];
          [subst t; split; [repeat constructor; discriminate|];
           split; [reflexivity|eexists; reflexivity]|]).
  contradiction.
Qed.

Lemma special_not_blank (c : N) :
  In (escapeChar c) Spec.escapeEntities -> c <> 10%N /\ c <> 96%N.
Proof.
  unfold escapeChar.
  destruct (N.eqb_spec c 38); [subst; split; discriminate|].
  destruct (N.eqb_spec c 60); [subst; split; discriminate|].
  destruct (N.eqb_spec c 62); [subst; split; discriminate|].
  destruct (N.eqb_spec c 160); [subst; split; discriminate|].
  intros H. apply entity_facts in H. destruct H as (_ & _ & r & Hr).
  injection Hr as Hc _. contradiction.
Qed.

Lemma escapeHtml_app (a b : jsstring) :
  escapeHtml (a ++ b) = escapeHtml a ++ escapeHtml b.
Proof. unfold escapeHtml. apply flat_map_app. Qed.

Lemma escapeHtml_backtick (text : jsstring) :
  In 96%N (escapeHtml text) -> In 96%N text.
Proof.
  induction text as [|c text IH]; [exact (fun H => H)|].
  change (escapeHtml (c :: text)) with (escapeChar c ++ escapeHtml text).
  intros H. apply in_app_or in H. destruct H as [H|H]; [|right; now apply IH].
  left. destruct (escapeChar_cases c) as [[E _]|E].
  - rewrite E in H. destruct H as [H|[]]. exact H.
  - apply entity_facts in E. destruct E as (E & _).
    rewrite Forall_forall in E. apply E in H. now destruct H.
Qed.

(** A replacement whose expression starts with a backtick leaves a text
    without backticks as it is. *)
Section Replace.
Variable matchAt : jsstring -> option (jsstring * nat).
Hypothesis matchAt_backtick :
  forall c s x, matchAt (c :: s) = Some x -> c = 96%N.

Lemma replaceAll_without_backtick (s : jsstring) :
  ~ In 96%N s -> replaceAll matchAt s = s.
Proof.
  unfold replaceAll. induction s as [|c s IH]; intros H; [reflexivity|].
  cbn [replace_from]. destruct (matchAt (c :: s)) as [[r n]|] eqn:E.
  - apply matchAt_backtick in E. exfalso. apply H. now left.
  - rewrite IH; [reflexivity|]. intros Hin. apply H. now right.
Qed.

End Replace.

Lemma startsWith_nl (c : N) (s : jsstring) :
  startsWith (c :: s) (nl ++ nl) = N.eqb 10 c && startsWith s nl.
Proof. reflexivity. Qed.

Lemma includes_cons (c : N) (s p : jsstring) :
  includes (c :: s) p = startsWith (c :: s) p || includes s p.
Proof. reflexivity. Qed.

Lemma startsWith_nl_head (c : N) (s : jsstring) :
  startsWith (c :: s) nl = N.eqb 10 c.
Proof. cbn [nl startsWith]. apply andb_true_r. Qed.

Lemma includes_skip (c : N) (s : jsstring) :
  c <> 10%N -> includes (c :: s) (nl ++ nl) = includes s (nl ++ nl).
Proof.
  intros H. rewrite includes_cons, startsWith_nl.
  destruct (N.eqb_spec 10 c); [now subst|reflexivity].
Qed.

Lemma includes_skip_app (t s : jsstring) :
  Forall (fun x => x <> 10%N /\ x <> 96%N) t ->
  includes (t ++ s) (nl ++ nl) = includes s (nl ++ nl).
Proof.
  induction 1 as [|c t [Hc _] _ IH]; [reflexivity|].
  change ((c :: t) ++ s) with (c :: (t ++ s)). now rewrite includes_skip.
Qed.

Lemma startsWith_nl_escapeHtml (text : jsstring) :
  startsWith (escapeHtml text) nl = startsWith text nl.
Proof.
  destruct text as [|c text]; [reflexivity|].
  change (escapeHtml (c :: text)) with (escapeChar c ++ escapeHtml text).
  destruct (escapeChar_cases c) as [[E _]|E].
  - rewrite E. cbn [app]. now rewrite !startsWith_nl_head.
  - destruct (special_not_blank c E) as [Hc _].
    apply entity_facts in E. destruct E as (_ & _ & r & ->).
    cbn [app]. rewrite !startsWith_nl_head.
    destruct (N.eqb_spec 10 c); [now subst|reflexivity].
Qed.

(** Escaping neither makes nor breaks a blank line. *)
Lemma includes_escapeHtml (text : jsstring) :
  includes (escapeHtml text) (nl ++ nl) = includes text (nl ++ nl).
Proof.
  induction text as [|c text IH]; [reflexivity|].
  change (escapeHtml (c :: text)) with (escapeChar c ++ escapeHtml text).
  destruct (escapeChar_cases c) as [[E _]|E].
  - rewrite E. cbn [app].
    now rewrite !includes_cons, !startsWith_nl, startsWith_nl_escapeHtml, IH.
  - destruct (special_not_blank c E) as [Hc _].
    rewrite (includes_skip c text Hc).
    apply entity_facts in E. destruct E as (E & _).
    now rewrite (includes_skip_app _ _ E).
Qed.

Lemma split_whole (sep s : jsstring) :
  includes s sep = false -> split s sep = [s].
Proof.
  unfold split. induction s as [|c s IH]; intros H; [reflexivity|].
  rewrite includes_cons in H. apply orb_false_iff in H. destruct H as [H1 H2].
  cbn [split_from]. rewrite H1, (IH H2). reflexivity.
Qed.

Lemma startsWith_nl_app (s t : jsstring) :
  s <> [] -> startsWith (s ++ t) nl = startsWith s nl.
Proof.
  destruct s as [|c s]; [contradiction|]. intros _.
  cbn [app]. now rewrite !startsWith_nl_head.
Qed.

(** The first piece of a text ends at its first blank line. *)
Lemma split_first (s r : jsstring) :
  includes (s ++ nl) (nl ++ nl) = false ->
  split (s ++ nl ++ nl ++ r) (nl ++ nl) = s :: split r (nl ++ nl).
Proof.
  unfold split. induction s as [|c s IH]; intros H; [reflexivity|].
  change ((c :: s) ++ nl) with (c :: (s ++ nl)) in H.
  rewrite includes_cons, startsWith_nl in H.
  apply orb_false_iff in H. destruct H as [H1 H2].
  change ((c :: s) ++ nl ++ nl ++ r) with (c :: (s ++ nl ++ (nl ++ r))).
  assert (Hh : startsWith (s ++ nl ++ nl ++ r) nl = startsWith (s ++ nl) nl)
    by (destruct s; reflexivity).
  cbn [split_from]. rewrite startsWith_nl, Hh, H1, (IH H2). reflexivity.
Qed.

Lemma includes_app_l (a x p : jsstring) :
  includes (a ++ x) p = false -> includes a p = false.
Proof.
  assert (Hs : forall p a, startsWith (a ++ x) p = false -> startsWith a p = false).
  { clear. induction p as [|c p IH]; intros a H; [now destruct a|].
    destruct a as [|d a]; [reflexivity|].
    cbn [app startsWith] in *. apply andb_false_iff in H.
    destruct H as [H|H]; [now rewrite H|]. rewrite (IH a H). apply andb_false_r. }
  induction a as [|c a IH]; intros H.
  - cbn [includes]. rewrite orb_false_r. apply (Hs p []).
    destruct x; cbn [app includes] in *; apply orb_false_iff in H; apply H.
  - change ((c :: a) ++ x) with (c :: (a ++ x)) in H.
    rewrite includes_cons in *. apply orb_false_iff in H. destruct H as [H1 H2].
    change (c :: (a ++ x)) with ((c :: a) ++ x) in H1.
    now rewrite (Hs p (c :: a) H1), (IH H2).
Qed.

(** [trim] *)
Lemma trimStart_cons (c : N) (s : jsstring) :
  trimStart (c :: s) = if isWhiteSpace c then trimStart s else c :: s.
Proof. reflexivity. Qed.

Lemma trimStart_blank (s : jsstring) :
  forallb isWhiteSpace s = true -> trimStart s = [].
Proof.
  induction s as [|c s IH]; [reflexivity|]. cbn [forallb].
  intros H. apply andb_true_iff in H. destruct H as [H1 H2].
  rewrite trimStart_cons, H1. now apply IH.
Qed.

Lemma trimStart_nonblank (s : jsstring) :
  forallb isWhiteSpace s = false ->
  exists c r, trimStart s = c :: r /\ isWhiteSpace c = false.
Proof.
  induction s as [|c s IH]; [discriminate|]. cbn [forallb]. intros H.
  rewrite trimStart_cons. destruct (isWhiteSpace c) eqn:E.
  - exact (IH H).
  - now exists c, s.
Qed.

Lemma forallb_rev (f : N -> bool) (s : jsstring) :
  forallb f (rev s) = forallb f s.
Proof.
  destruct (forallb f s) eqn:E.
  - apply forallb_forall. intros x Hx. apply in_rev in Hx.
    rewrite forallb_forall in E. now apply E.
  - destruct (forallb f (rev s)) eqn:E'; [|reflexivity].
    rewrite <- E. symmetry. apply forallb_forall. intros x Hx.
    apply in_rev in Hx. rewrite forallb_forall in E'. now apply E'.
Qed.

Lemma trim_blank (s : jsstring) :
  trim s = [] <-> forallb isWhiteSpace s = true.
Proof.
  unfold trim. split.
  - intros H.
    destruct (forallb isWhiteSpace s) eqn:E; [reflexivity|]. exfalso.
    destruct (trimStart_nonblank s E) as (c & r & Hc & Hw). rewrite Hc in H.
    assert (E' : forallb isWhiteSpace (rev (c :: r)) = false).
    { rewrite forallb_rev. cbn [forallb]. now rewrite Hw. }
    destruct (trimStart_nonblank _ E') as (d & r' & Hd & _).
    rewrite Hd in H. apply (f_equal (@List.length N)) in H.
    rewrite length_rev in H. discriminate.
  - intros H. now rewrite (trimStart_blank s H).
Qed.

Lemma blank_escapeHtml (text : jsstring) :
  forallb isWhiteSpace (escapeHtml text) = true ->
  forallb isWhiteSpace text = true.
Proof.
  induction text as [|c text IH]; [reflexivity|].
  change (escapeHtml (c :: text)) with (escapeChar c ++ escapeHtml text).
  rewrite forallb_app. intros H. apply andb_true_iff in H. destruct H as [H1 H2].
  cbn [forallb]. rewrite (IH H2), andb_true_r.
  destruct (escapeChar_cases c) as [[E _]|E].
  - rewrite E in H1. cbn [forallb] in H1. now rewrite andb_true_r in H1.
  - apply entity_facts in E. destruct E as (_ & E & _). congruence.
Qed.

Lemma paragraph_nonblank (p : jsstring) :
  trim p <> [] -> paragraph p = lit "<p>" ++ p ++ lit "</p>".
Proof. unfold paragraph. now destruct (trim p). Qed.

Lemma paragraph_blank (p : jsstring) :
  forallb isWhiteSpace p = true -> paragraph p = [].
Proof. intros H. unfold paragraph. apply trim_blank in H. now rewrite H. Qed.

Lemma formatContent_paragraphs (text : jsstring) :
  ~ In 96%N text ->
  formatContent text
  = join (map paragraph (split (escapeHtml text) (nl ++ nl))) [].
Proof.
  intros H. destruct text as [|c text]; [reflexivity|].
  unfold formatContent. cbv zeta.
  assert (He : ~ In 96%N (escapeHtml (c :: text))).
  { intros Hin. apply H. now apply escapeHtml_backtick. }
  rewrite (replaceAll_without_backtick codeBlockAt codeBlockAt_backtick _ He).
  now rewrite (replaceAll_without_backtick inlineCodeAt inlineCodeAt_backtick _ He).
Qed.

(** X18.  A text without backticks and without a blank line that is not
    blank itself is rendered as one paragraph of its escaped text. *)
Theorem plain_text_is_one_paragraph (text : jsstring) :
  ~ In 96%N text -> includes text (nl ++ nl) = false -> trim text <> [] ->
  formatContent text = lit "<p>" ++ escapeHtml text ++ lit "</p>".
Proof.
  intros Hb Hn Ht. rewrite (formatContent_paragraphs text Hb).
  rewrite (split_whole (nl ++ nl) (escapeHtml text))
    by (now rewrite includes_escapeHtml).
  cbn [map join]. apply paragraph_nonblank.
  intros H. apply Ht. apply trim_blank. apply blank_escapeHtml.
  now apply trim_blank.
Qed.

Lemma plain_text_is_one_paragraph_witness :
  formatContent (lit "a < b & c") = lit "<p>a &lt; b &amp; c</p>".
Proof.
  apply (plain_text_is_one_paragraph (lit "a < b & c")).
  - vm_compute. intuition discriminate.
  - reflexivity.
  - vm_compute. discriminate.
Defined.

Lemma join_cons (x : jsstring) (l : list jsstring) :
  join (x :: l) [] = x ++ join l [].
Proof. destruct l; [now rewrite app_nil_r|reflexivity]. Qed.

(** X19.  Paragraphs are rendered one by one: for texts without backticks,
    the rendering of a first paragraph, a blank line and the rest is the
    rendering of the paragraph followed by the rendering of the rest. *)
Theorem paragraphs_render_independently (a b : jsstring) :
  ~ In 96%N a -> ~ In 96%N b -> includes (a ++ nl) (nl ++ nl) = false ->
  formatContent (a ++ nl ++ nl ++ b) = formatContent a ++ formatContent b.
Proof.
  intros Ha Hb Hn.
  assert (Hab : ~ In 96%N (a ++ nl ++ nl ++ b)).
  { intros H. apply in_app_or in H. destruct H as [H|H]; [now apply Ha|].
    destruct H as [H|[H|H]]; [discriminate|discriminate|now apply Hb]. }
  rewrite (formatContent_paragraphs _ Hab), (formatContent_paragraphs a Ha),
    (formatContent_paragraphs b Hb).
  rewrite !escapeHtml_app.
  change (escapeHtml nl) with nl.
  assert (He : includes (escapeHtml a ++ nl) (nl ++ nl) = false).
  { change nl with (escapeHtml nl) at 1.
    now rewrite <- escapeHtml_app, includes_escapeHtml. }
  rewrite (split_first (escapeHtml a) (escapeHtml b) He).
  rewrite (split_whole (nl ++ nl) (escapeHtml a) (includes_app_l _ nl _ He)).
  cbn [map]. rewrite join_cons. cbn [join]. reflexivity.
Qed.

Lemma paragraphs_render_independently_witness :
  formatContent (lit "one" ++ nl ++ nl ++ lit "1 < 2" ++ nl ++ lit "three")
  = formatContent (lit "one") ++ formatContent (lit "1 < 2" ++ nl ++ lit "three").
Proof.
  apply (paragraphs_render_independently (lit "one")
           (lit "1 < 2" ++ nl ++ lit "three")).
  - vm_compute. intuition discriminate.
  - vm_compute. intuition discriminate.
  - reflexivity.
Defined.

Lemma split_from_In (sep : jsstring) (s : jsstring) :
  forall k p x, In p (split_from sep k s) -> In x p -> In x s.
Proof.
  induction s as [|c s IH]; intros k p x Hp Hx.
  - destruct Hp as [<-|[]]. exact Hx.
  - cbn [split_from] in Hp. destruct k as [|k].
    + destruct (startsWith (c :: s) sep).
      * destruct Hp as [<-|Hp]; [contradiction|]. right. eapply IH; eassumption.
      * destruct (split_from sep 0 s) as [|q qs] eqn:E.
        -- destruct Hp as [<-|[]]. destruct Hx as [<-|[]]. now left.
        -- destruct Hp as [<-|Hp].
           ++ destruct Hx as [<-|Hx]; [now left|]. right.
              apply (IH 0 q x); [rewrite E; now left|exact Hx].
           ++ right. apply (IH 0 p x); [rewrite E; now right|exact Hx].
    + right. eapply IH; eassumption.
Qed.

Lemma join_blank (l : list jsstring) :
  Forall (fun p => p = []) l -> join l [] = [].
Proof.
  induction 1 as [|x l -> _ IH]; [reflexivity|]. now rewrite join_cons.
Qed.

Lemma blank_escapes_to_itself (text : jsstring) :
  forallb isWhiteSpace text = true -> ~ In 160%N text -> escapeHtml text = text.
Proof.
  induction text as [|c text IH]; [reflexivity|]. cbn [forallb]. intros H Hn.
  apply andb_true_iff in H. destruct H as [H1 H2].
  change (escapeHtml (c :: text)) with (escapeChar c ++ escapeHtml text).
  rewrite (IH H2) by (intros Hin; apply Hn; now right).
  unfold escapeChar.
  destruct (N.eqb_spec c 38); [now subst|].
  destruct (N.eqb_spec c 60); [now subst|].
  destruct (N.eqb_spec c 62); [now subst|].
  destruct (N.eqb_spec c 160); [exfalso; apply Hn; now left|reflexivity].
Qed.

(** X20.  A text of white space only, without no-break spaces, is rendered
    as the empty string, however many blank lines it holds. *)
Theorem blank_text_renders_empty (text : jsstring) :
  forallb isWhiteSpace text = true -> ~ In 160%N text ->
  formatContent text = [].
Proof.
  intros Hw Hn.
  assert (Hb : ~ In 96%N text).
  { intros H. rewrite forallb_forall in Hw. apply Hw in H. discriminate. }
  rewrite (formatContent_paragraphs text Hb), (blank_escapes_to_itself text Hw Hn).
  apply join_blank. apply Forall_map. apply Forall_forall. intros p Hp.
  apply paragraph_blank. apply forallb_forall. intros x Hx.
  rewrite forallb_forall in Hw. apply Hw.
  apply (split_from_In (nl ++ nl) text 0 p x Hp Hx).
Qed.

Lemma blank_text_renders_empty_witness :
  formatContent (lit " " ++ nl ++ nl ++ nl ++ lit "  ") = [].
Proof.
  apply (blank_text_renders_empty (lit " " ++ nl ++ nl ++ nl ++ lit "  ")).
  - reflexivity.
  - vm_compute. intuition discriminate.
Defined.

Lemma one_paragraph (r : jsstring) :
  includes r (nl ++ nl) = false -> forallb isWhiteSpace r = false ->
  join (map paragraph (split r (nl ++ nl))) [] = lit "<p>" ++ r ++ lit "</p>".
Proof.
  intros Hn Hw. rewrite (split_whole (nl ++ nl) r Hn). cbn [map join].
  apply paragraph_nonblank. intros H. apply trim_blank in H. congruence.
Qed.

Lemma includes_skip_app_r (s t : jsstring) :
  Forall (fun x => x <> 10%N /\ x <> 96%N) t ->
  includes (s ++ t) (nl ++ nl) = includes s (nl ++ nl).
Proof.
  intros Ht.
  assert (Hh : startsWith t nl = false).
  { destruct Ht as [|c t [Hc _] _]; [reflexivity|].
    rewrite startsWith_nl_head. destruct (N.eqb_spec 10 c); [now subst|reflexivity]. }
  induction s as [|c s IH].
  - cbn [app]. now rewrite <- (app_nil_r t), (includes_skip_app t [] Ht).
  - change ((c :: s) ++ t) with (c :: (s ++ t)).
    rewrite !includes_cons, !startsWith_nl, IH.
    destruct s as [|d s]; [cbn [app]; now rewrite Hh|].
    now rewrite (startsWith_nl_app (d :: s) t).
Qed.

Lemma escapeHtml_word (lang : jsstring) :
  forallb isWordChar lang = true -> escapeHtml lang = lang.
Proof.
  induction lang as [|c lang IH]; [reflexivity|]. cbn [forallb]. intros H.
  apply andb_true_iff in H. destruct H as [H1 H2].
  change (escapeHtml (c :: lang)) with (escapeChar c ++ escapeHtml lang).
  rewrite (IH H2). unfold escapeChar.
  destruct (N.eqb_spec c 38); [now subst|].
  destruct (N.eqb_spec c 60); [now subst|].
  destruct (N.eqb_spec c 62); [now subst|].
  destruct (N.eqb_spec c 160); [now subst|reflexivity].
Qed.

Lemma takeWhile_app_stop (f : N -> bool) (l : jsstring) (c : N) (r : jsstring) :
  forallb f l = true -> f c = false -> takeWhile f (l ++ c :: r) = l.
Proof.
  intros Hl Hc. induction l as [|x l IH]; cbn [app takeWhile].
  - now rewrite Hc.
  - cbn [forallb] in Hl. apply andb_true_iff in Hl. destruct Hl as [H1 H2].
    now rewrite H1, (IH H2).
Qed.

Lemma skipn_length_app (a b : jsstring) : skipn (List.length a) (a ++ b) = b.
Proof. induction a; [reflexivity|assumption]. Qed.

Lemma firstn_length_app (a b : jsstring) : firstn (List.length a) (a ++ b) = a.
Proof. induction a as [|x a IH]; [reflexivity|]. simpl. now rewrite IH. Qed.

Lemma indexOf_fence (x : jsstring) :
  ~ In 96%N x -> indexOf (x ++ fence) fence = Some (List.length x).
Proof.
  induction x as [|c x IH]; intros H; [reflexivity|].
  change ((c :: x) ++ fence) with (c :: (x ++ fence)).
  assert (Hs : startsWith (c :: (x ++ fence)) fence = false).
  { change fence with (96%N :: lit "``"). cbn [startsWith].
    destruct (N.eqb_spec 96 c) as [E|E]; [|reflexivity].
    exfalso. apply H. now left. }
  cbn [indexOf]. rewrite Hs, IH; [reflexivity|].
  intros Hin. apply H. now right.
Qed.

Lemma codeBlockAt_fenced (lang x : jsstring) :
  forallb isWordChar lang = true -> ~ In 96%N x ->
  codeBlockAt (fence ++ lang ++ nl ++ x ++ fence)
  = Some (lit "<pre><code>" ++ x ++ lit "</code></pre>",
          3 + List.length lang + 1 + List.length x + 3).
Proof.
  intros Hl Hx. unfold codeBlockAt.
  rewrite (ServerMore.startsWith_app fence).
  change (skipn 3 (fence ++ lang ++ nl ++ x ++ fence))
    with (lang ++ 10%N :: (x ++ fence)).
  rewrite (takeWhile_app_stop isWordChar lang 10 (x ++ fence) Hl eq_refl).
  rewrite skipn_length_app. cbn [N.eqb Pos.eqb].
  now rewrite (indexOf_fence x Hx), firstn_length_app.
Qed.

Section Whole.
Variable matchAt : jsstring -> option (jsstring * nat).

(** A match that takes the whole text leaves its replacement. *)
Lemma replaceAll_whole (c : N) (s r : jsstring) :
  matchAt (c :: s) = Some (r, S (List.length s)) ->
  replaceAll matchAt (c :: s) = r.
Proof.
  intros H. unfold replaceAll. cbn [replace_from]. rewrite H.
  cbn [Nat.sub]. rewrite Nat.sub_0_r.
  pose proof (replace_from_skip matchAt s []) as Hs.
  rewrite app_nil_r in Hs. rewrite Hs. cbn [replace_from]. apply app_nil_r.
Qed.

Lemma replace_from_none (c : N) (s : jsstring) :
  matchAt (c :: s) = None ->
  replace_from matchAt 0 (c :: s) = c :: replace_from matchAt 0 s.
Proof. intros H. cbn [replace_from]. now rewrite H. Qed.

Lemma replace_from_some (c : N) (s r : jsstring) (n : nat) :
  matchAt (c :: s) = Some (r, n) ->
  replace_from matchAt 0 (c :: s) = r ++ replace_from matchAt (n - 1) s.
Proof. intros H. cbn [replace_from]. now rewrite H. Qed.

End Whole.

(** X21.  A fenced block with a language tag of word characters, a line
    feed and a code without backticks and without blank lines is rendered as
    one paragraph that holds the escaped code between [<pre><code>] and
    [</code></pre>]; the language tag is left out. *)
Theorem fenced_code_is_rendered (lang code : jsstring) :
  forallb isWordChar lang = true -> ~ In 96%N code ->
  includes code (nl ++ nl) = false ->
  formatContent (fence ++ lang ++ nl ++ code ++ fence)
  = lit "<p>" ++ (lit "<pre><code>" ++ escapeHtml code ++ lit "</code></pre>")
    ++ lit "</p>".
Proof.
  intros Hl Hc Hn.
  assert (Hx : ~ In 96%N (escapeHtml code))
    by (intros H; now apply Hc, escapeHtml_backtick).
  assert (He : escapeHtml (fence ++ lang ++ nl ++ code ++ fence)
               = fence ++ lang ++ nl ++ escapeHtml code ++ fence).
  { rewrite !escapeHtml_app, (escapeHtml_word lang Hl). reflexivity. }
  change (formatContent (fence ++ lang ++ nl ++ code ++ fence))
    with (join (map paragraph
                  (split (replaceAll inlineCodeAt
                            (replaceAll codeBlockAt
                               (escapeHtml (fence ++ lang ++ nl ++ code ++ fence))))
                         (nl ++ nl))) []).
  rewrite He.
  assert (Hr : replaceAll codeBlockAt (fence ++ lang ++ nl ++ escapeHtml code ++ fence)
               = lit "<pre><code>" ++ escapeHtml code ++ lit "</code></pre>").
  { change (fence ++ lang ++ nl ++ escapeHtml code ++ fence)
      with (96%N :: (lit "``" ++ lang ++ nl ++ escapeHtml code ++ fence)).
    apply replaceAll_whole.
    change (96%N :: (lit "``" ++ lang ++ nl ++ escapeHtml code ++ fence))
      with (fence ++ lang ++ nl ++ escapeHtml code ++ fence).
    rewrite (codeBlockAt_fenced lang (escapeHtml code) Hl Hx).
    f_equal. f_equal. rewrite !length_app. cbn [List.length lit map
      list_ascii_of_string fence nl]. lia. }
  rewrite Hr.
  assert (Hb : ~ In 96%N (lit "<pre><code>" ++ escapeHtml code ++ lit "</code></pre>")).
  { intros H. apply in_app_or in H. destruct H as [H|H];
      [vm_compute in H; intuition discriminate|].
    apply in_app_or in H. destruct H as [H|H]; [now apply Hx|].
    vm_compute in H; intuition discriminate. }
  rewrite (replaceAll_without_backtick inlineCodeAt inlineCodeAt_backtick _ Hb).
  apply one_paragraph; [|reflexivity].
  rewrite includes_skip_app by (repeat constructor; discriminate).
  rewrite includes_skip_app_r by (repeat constructor; discriminate).
  now rewrite includes_escapeHtml.
Qed.

Lemma fenced_code_is_rendered_witness :
  formatContent (fence ++ lit "js" ++ nl ++ lit "if (a < b) run();" ++ nl ++ fence)
  = lit "<p><pre><code>if (a &lt; b) run();" ++ nl ++ lit "</code></pre></p>".
Proof.
  apply (fenced_code_is_rendered (lit "js") (lit "if (a < b) run();" ++ nl)).
  - reflexivity.
  - vm_compute. intuition discriminate.
  - reflexivity.
Defined.

Section Plain.
Variable matchAt : jsstring -> option (jsstring * nat).
Hypothesis matchAt_backtick :
  forall c s x, matchAt (c :: s) = Some x -> c = 96%N.

Lemma replace_from_plain (a b : jsstring) :
  ~ In 96%N a -> replace_from matchAt 0 (a ++ b) = a ++ replace_from matchAt 0 b.
Proof.
  induction a as [|c a IH]; intros H; [reflexivity|].
  cbn [app replace_from]. destruct (matchAt (c :: a ++ b)) as [x|] eqn:E.
  - apply matchAt_backtick in E. exfalso. apply H. now left.
  - rewrite IH; [reflexivity|]. intros Hin. apply H. now right.
Qed.

End Plain.

Lemma includes_around (a t b : jsstring) :
  t <> [] -> Forall (fun x => x <> 10%N /\ x <> 96%N) t ->
  includes (a ++ t ++ b) (nl ++ nl)
  = includes a (nl ++ nl) || includes b (nl ++ nl).
Proof.
  intros Hne Ht.
  assert (Hh : startsWith (t ++ b) nl = false).
  { destruct Ht as [|c t [Hc _] _]; [contradiction|]. cbn [app].
    rewrite startsWith_nl_head. destruct (N.eqb_spec 10 c); [now subst|reflexivity]. }
  induction a as [|c a IH].
  - cbn [app]. now rewrite (includes_skip_app t b Ht).
  - change ((c :: a) ++ t ++ b) with (c :: (a ++ t ++ b)).
    rewrite !includes_cons, !startsWith_nl, IH, orb_assoc.
    destruct a as [|d a]; [cbn [app]; now rewrite Hh|].
    now rewrite (startsWith_nl_app (d :: a) (t ++ b)).
Qed.

Lemma codeBlockAt_apart (c : N) (s : jsstring) :
  c <> 96%N -> codeBlockAt (96%N :: c :: s) = None.
Proof.
  intros H. unfold codeBlockAt. change fence with (96%N :: 96%N :: lit "`").
  cbn [startsWith]. destruct (N.eqb_spec 96 c); [now subst|reflexivity].
Qed.

Lemma codeBlockAt_last (s : jsstring) :
  ~ In 96%N s -> codeBlockAt (96%N :: s) = None.
Proof.
  destruct s as [|c s]; [reflexivity|]. intros H. apply codeBlockAt_apart.
  intros ->. apply H. now left.
Qed.

Lemma inlineCodeAt_span (c : N) (x q : jsstring) :
  ~ In 96%N (c :: x) ->
  inlineCodeAt (96%N :: (c :: x) ++ 96%N :: q)
  = Some (lit "<code>" ++ (c :: x) ++ lit "</code>", List.length (c :: x) + 2).
Proof.
  intros H. unfold inlineCodeAt. cbn [N.eqb Pos.eqb].
  assert (Hw : forallb (fun c => negb (N.eqb c 96)) (c :: x) = true).
  { apply forallb_forall. intros y Hy. destruct (N.eqb_spec y 96); [|reflexivity].
    subst. contradiction. }
  rewrite (takeWhile_app_stop _ (c :: x) 96 q Hw eq_refl), skipn_length_app.
  reflexivity.
Qed.

Lemma escapeHtml_nonempty (c : N) (s : jsstring) :
  exists d r, escapeHtml (c :: s) = d :: r.
Proof.
  change (escapeHtml (c :: s)) with (escapeChar c ++ escapeHtml s).
  destruct (escapeChar_cases c) as [[E _]|E].
  - rewrite E. now eexists; eexists.
  - apply entity_facts in E. destruct E as (_ & _ & r & ->). now eexists; eexists.
Qed.

(** X22.  A span between two backticks inside a paragraph without other
    backticks is rendered as the escaped span between [<code>] and
    [</code>], with the escaped text before and after it around. *)
Theorem inline_code_is_rendered (pre code post : jsstring) :
  code <> [] -> ~ In 96%N pre -> ~ In 96%N code -> ~ In 96%N post ->
  includes pre (nl ++ nl) = false -> includes code (nl ++ nl) = false ->
  includes post (nl ++ nl) = false ->
  formatContent (pre ++ lit "`" ++ code ++ lit "`" ++ post)
  = lit "<p>" ++
    (escapeHtml pre ++ lit "<code>" ++ escapeHtml code ++ lit "</code>" ++
     escapeHtml post) ++ lit "</p>".
Proof.
  intros Hne Hpre Hcode Hpost Hn1 Hn2 Hn3.
  assert (Hp : ~ In 96%N (escapeHtml pre))
    by (intros H; now apply Hpre, escapeHtml_backtick).
  assert (Hx : ~ In 96%N (escapeHtml code))
    by (intros H; now apply Hcode, escapeHtml_backtick).
  assert (Hq : ~ In 96%N (escapeHtml post))
    by (intros H; now apply Hpost, escapeHtml_backtick).
  destruct code as [|c0 code]; [contradiction|].
  destruct (escapeHtml_nonempty c0 code) as (d & x & Ex).
  assert (Htext : pre ++ lit "`" ++ (c0 :: code) ++ lit "`" ++ post <> [])
    by (now destruct pre).
  assert (Hf : formatContent (pre ++ lit "`" ++ (c0 :: code) ++ lit "`" ++ post)
    = join (map paragraph
              (split (replaceAll inlineCodeAt
                        (replaceAll codeBlockAt
                           (escapeHtml
                              (pre ++ lit "`" ++ (c0 :: code) ++ lit "`" ++ post))))
                     (nl ++ nl))) []).
  { unfold formatContent.
    destruct (pre ++ lit "`" ++ (c0 :: code) ++ lit "`" ++ post);
      [contradiction|reflexivity]. }
  rewrite Hf. rewrite !escapeHtml_app. change (escapeHtml (lit "`")) with [96%N].
  rewrite Ex in *.
  assert (Hc : replaceAll codeBlockAt
                 (escapeHtml pre ++ [96%N] ++ (d :: x) ++ [96%N] ++ escapeHtml post)
               = escapeHtml pre ++ [96%N] ++ (d :: x) ++ [96%N] ++ escapeHtml post).
  { unfold replaceAll.
    rewrite (replace_from_plain codeBlockAt codeBlockAt_backtick _ _ Hp).
    f_equal. change ([96%N] ++ (d :: x) ++ [96%N] ++ escapeHtml post)
      with (96%N :: d :: (x ++ 96%N :: escapeHtml post)).
    rewrite (replace_from_none codeBlockAt)
      by (apply codeBlockAt_apart; intros ->; apply Hx; now left).
    f_equal.
    change (d :: x ++ 96%N :: escapeHtml post)
      with ((d :: x) ++ 96%N :: escapeHtml post).
    rewrite (replace_from_plain codeBlockAt codeBlockAt_backtick _ _ Hx).
    f_equal. rewrite (replace_from_none codeBlockAt _ _ (codeBlockAt_last _ Hq)).
    f_equal.
    apply (replaceAll_without_backtick codeBlockAt codeBlockAt_backtick _ Hq). }
  rewrite Hc.
  assert (Hi : replaceAll inlineCodeAt
                 (escapeHtml pre ++ [96%N] ++ (d :: x) ++ [96%N] ++ escapeHtml post)
               = escapeHtml pre ++ lit "<code>" ++ (d :: x) ++ lit "</code>"
                 ++ escapeHtml post).
  { unfold replaceAll.
    rewrite (replace_from_plain inlineCodeAt inlineCodeAt_backtick _ _ Hp).
    f_equal. change ([96%N] ++ (d :: x) ++ [96%N] ++ escapeHtml post)
      with (96%N :: ((d :: x) ++ 96%N :: escapeHtml post)).
    rewrite (replace_from_some inlineCodeAt _ _ _ _
               (inlineCodeAt_span d x (escapeHtml post) Hx)).
    replace (List.length (d :: x) + 2 - 1) with (List.length ((d :: x) ++ [96%N]))
      by (rewrite length_app; cbn [List.length]; lia).
    replace ((d :: x) ++ 96%N :: escapeHtml post)
      with (((d :: x) ++ [96%N]) ++ escapeHtml post)
      by (now rewrite <- app_assoc).
    rewrite replace_from_skip.
    fold (replaceAll inlineCodeAt (escapeHtml post)).
    rewrite (replaceAll_without_backtick inlineCodeAt inlineCodeAt_backtick _ Hq).
    now rewrite <- !app_assoc. }
  rewrite Hi. apply one_paragraph.
  - rewrite (includes_around (escapeHtml pre) (lit "<code>"))
      by (try discriminate; repeat constructor; discriminate).
    rewrite (includes_around (d :: x) (lit "</code>"))
      by (try discriminate; repeat constructor; discriminate).
    rewrite <- Ex, !includes_escapeHtml, Hn1, Hn2, Hn3. reflexivity.
  - rewrite forallb_app. apply andb_false_iff. now right.
Qed.

Lemma inline_code_is_rendered_witness :
  formatContent (lit "use `a<b>` here")
  = lit "<p>use <code>a&lt;b&gt;</code> here</p>".
Proof.
  apply (inline_code_is_rendered (lit "use ") (lit "a<b>") (lit " here")).
  - discriminate.
  - vm_compute. intuition discriminate.
  - vm_compute. intuition discriminate.
  - vm_compute. intuition discriminate.
  - reflexivity.
  - reflexivity.
  - reflexivity.
Defined.

End RenderMore.
